(* ===== verification/_CoqProject ===== *)
-Q . S2P
Prelude.v
GoStrings.v
GoTime.v
Types.v
ParseLine.v
Translate.v
Form.v
Json.v
Pipeline.v
Process.v
Progress.v
Ideal.v
Privacy.v
Timing.v
Effects.v
Follow.v
Observe.v
Startup.v
Channels.v
Tail.v
Program.v
