(* ===== verification/Prelude.v ===== *)
(** * A verification development for ffxiv-act-chat-translator (src/main.go)

    The program tails the most recent ACT log file of a directory, parses
    every appended line ([parseLine]), drops the lines that are malformed,
    older than the start of the process or of a chat code that is not
    configured, translates the actor name (optionally) and the content
    through the Papago HTTP API ([translate]: an in-memory cache, a cursor
    [secretIdx] into the list of API credentials that is advanced when the
    service answers "... exceeded ...") and prints ["actor: text\n\n"].

    ** Files, in dependency order

    - [Prelude] (this file): the scope [go_scope] and its notations, the
      type [outcome] of a Go call that may return or panic (with its bind),
      the type [error] of Go error values, byte-string lemmas, the tactics
      and the hint databases ([go]) the other files share.
    - [GoStrings]: the three functions of Go's package strings that
      main.go calls, [Split] (on a one-byte separator), [Contains] and
      [HasSuffix], with their specifications (Split/Join round trip,
      substring and suffix characterisations).  Library code: modelled from
      its documented behaviour.
    - [GoTime]: instants ([Time], nanoseconds since 0001-01-01T00:00:00Z,
      the zero value of Go's time.Time), [Before], [After] and [Parse] for
      the one layout main.go uses, "2006-01-02T15:04:05.0000000-07:00",
      as the library reads it: the format of spec.md and three spellings
      more (the hour in one digit, [take_num]; a comma for the period,
      [take_point]; a sign in the place of the first digit of the
      fraction, [take_frac]).  [print_civil] writes a time in the layout,
      as the program that produces the log does, and [print_civil_as] in
      the other spellings.  Library code: modelled from the format
      spec.md states and from the behaviour of the library.
    - [Types]: the records of main.go, [ConfigStruct], [Secret], [Log],
      [PapagoResponse], and the HTTP request the translator builds.
    - [ParseLine]: [parseLine] (main.go 181-199) and its theorems.
    - [Translate]: the process state [State] (the globals [secretIdx] and
      [translateCache], with the requests sent, the log and the standard
      output as traces), the interface [Remote] to the outside world
      (http.NewRequest, httpClient.Do with io.ReadAll, json.Unmarshal),
      the translator [translate] (main.go 225-274) as a fuel-indexed
      function [translate_fuel] following the source line by line, and an
      abstract specification [Spec.contract] (a scan [Spec.scan] over the
      credentials that remain), with the refinement theorem between the
      two.  The preorders [extends] and [evolves] say how a later state of
      the process relates to an earlier one.  [Demo] is a scripted service
      (an instance of [Remote]) on which the theorems are applied to
      concrete calls.
    - [Form]: the body of the request (main.go 235) as the service
      reads it: [form_decode] cuts a body of type
      application/x-www-form-urlencoded into its parameters and undoes
      the escapes ([unescape]); [escape] and [escaped_body] are the
      writing spec.md asks for; [meant] is the three parameters main.go
      means to send.  The reading is the provider's: modelled from the
      format.
    - [Json]: json.Unmarshal as main.go uses it.  JSON values ([json]);
      the rules by which the package stores a value into a string, a
      struct and a nil slice ([dec_string], [dec_struct], [dec_slice]);
      the decoders of [PapagoResponse] and [Secret] from the json tags of
      main.go 59-62 and 211-219; [with_json], the [Remote] that decodes an
      answer this way.  Reading a text into a value is the parameter
      [json_parse] of the class [JsonSyntax].
    - [Pipeline]: the body of the main loop [main_loop_body]
      (main.go 129-171) as the composition of the filter [accept] and the
      translation and printing [emit], its iteration [main_loop] over the
      lines the tail delivers, and the selection of the log file
      [mostRecentLog] (main.go 100-119).  [Run] holds the log lines and
      states of a concrete run against [Demo].
    - [Process]: the same loop as a relation [step] between the states of
      the process (one rule for each way through the body, [crash] for
      the iteration that panics) and its closure [reachable]; the class
      [Stable] of the predicates that the elementary transitions keep,
      carried once and for all through [translate], [emit], the loop and
      [step]; the invariant [inv] of the process, whose parts are
      instances of [Stable]: [history] (requests and cursor generated
      together, by rule), [cache_sound], [rotations_logged] and
      [cache_counted].
    - [Progress]: liveness of the loop under a credential that is never
      refused, the bound on the requests sent ([costs], [per_line]), and
      the cursor as a machine integer ([int_incr], [wrap], [max_int]).
    - [Ideal]: the purpose of the program as a machine that knows the
      translation of every text ([Ideal], [ideal_line], [ideal_run]),
      the services against which the program can meet it ([Faithful]),
      and the simulation of the machine by the loop ([abstract],
      [ideal_inv]).  [Echo] is the scripted service of its witness.
    - [Privacy]: what leaves the machine: [emit_all], the loop on the
      accepted lines alone; [carries], the requests for the texts of a
      list under a credential of the file; [sends], the relation between
      two states of which the later has sent only such requests.
    - [Timing]: the HTTP client of main.go 205-209 with its timeout of
      ten seconds ([Client], [httpClient]); a service with latencies
      ([Service], [Exchange]); [Do], what the client returns and after
      how long; [timed], the [Remote] of the client in front of a
      service; [waited], the time a run has spent on its requests.
    - [Effects]: [translate] and the loop once more, producing the one
      sequence of their effects ([Event]: request, body opened, body
      closed, line logged, text printed), with
      [defer resp.Body.Close()] (main.go 249) as [defer_close];
      [sound] relates a computation with events to the computation of
      [Translate] or [Pipeline] it describes; [bodies] and [peak] follow
      the response bodies that are open.
    - [Follow]: the lines of a file that grows, as the tail hands them
      to the program: [scan_lines] cuts a text into its whole lines and
      what follows the last newline, [grow] is a write to the file,
      [follow] the tail after a sequence of writes.  Library code:
      modelled from the contract of the Tail Source in spec.md.
    - [Observe]: the equivalence of the states that have the same
      cursor, the same cache and the same requests ([alike], written [≡]),
      its liftings to outcomes ([agree]) and to computations with events
      ([same_effects]), and the [Proper] instances of the functions of
      the program, for rewriting with the equivalence.
    - [Startup]: main.go 64-127.  The operating system as a record
      [World] (environment, files, directories, clock, the tail);
      [parseEnv] from the env tags of [ConfigStruct]; [startup] with its
      five [Fatal] exits ([fatal]) and the two lines it logs; [main],
      the start followed by the loop.  [Boot] is the world of the
      witnesses.
    - [Channels]: the two comments that open main.go, as data: the table
      of chat codes ([Channel], [chat_code], lines 8-32) and the line of
      the example ([example_line], lines 3-6); [target_chatcodes] is the
      text of TARGET_CHATCODES for a list of channels.  Comments are
      documentation, not statements of the program: these definitions
      say what the operator reads, and the theorems what the code makes
      of it.
    - [Tail]: the loop on the tail (main.go 129-171) as an
      interaction tree [tail_loop].  Its events ([tailE]) are [NextLine],
      the receive on [t.Lines], [Perform ev] for each effect [ev] of
      [Effects], and [Ask q] for the reads of the start
      ([Startup.startE]); [iteration] is one turn of the loop, and [next]
      says that a return goes on to the next line and a panic ends the
      tree.  [serve w] is the world [w] with a log that holds a list of
      lines and is then closed, and an observer that notes what is
      asked, read and performed in its order ([Seen]); [seen] is what is
      to be seen on a list of lines; [alive w] is the greatest fixed
      point of "goes on reading when it is given a line".
    - [Program]: the whole of [main] (main.go 77-172) as one tree,
      [program]: the five reads of the start as questions to the world,
      the two lines logged, the exits through [Fatal] as results, then
      [tail_loop]; [startup_seen] and [program_seen] are what is to be
      seen of the start and of a run, [main_events] the effects of
      [Startup.main].

    ** How state and effects are modelled

    The two process-wide variables of main.go are fields of [State]; every
    function that touches them takes and returns the state.  A Go call
    either returns or panics: [outcome] has a constructor for each, and a
    third one, [OutOfFuel], for the fuel-indexed recursion of [translate];
    the termination theorems show it is never produced with the fuel
    [translate] passes, [S (length secrets - secretIdx)], because every
    recursive call advances the cursor and a cursor at [length secrets]
    panics on [secrets[*secretIdx]] before it can recurse.  A Go function
    that returns [(T, error)] returns a pair [(T * option error)], so that
    the value a caller reads after an error (the empty string that main
    prints) is part of the model.  The state keeps the requests, the log
    and the output as separate traces; where the order between them or
    the response bodies matter, [Effects] gives the single sequence of
    events, proved to project onto the three traces.  Strings are byte
    strings ([String.string]), as in Go.  The cursor is a [nat]: it
    starts at 0,
    moves by increments, and stops at [length secrets], so the width of
    Go's [int] is never reached ([Progress.cursor_fits] proves it for
    32 and 64 bits).

    The network and the JSON decoder are parameters: the class [Remote]
    gives the result of each call as a function of the requests sent so
    far, so a theorem that quantifies over every instance holds for every
    behaviour of the service.  [Json.with_json] replaces the decoder of a
    [Remote] by the one main.go really has; what stays a parameter is the
    syntax of JSON texts.  The lines of the file are a list: the
    theorems about [main_loop] and [main] hold for every finite prefix of
    what the tail delivers.  What the start reads is the record [World].
    One behaviour of the env library differs between its versions (a
    variable set to the empty text, for a field with a default): it is
    the parameter [empty_default] of [parseEnv], and every theorem holds
    for both values.

    ** What the theorems show

    - [GoTime]: reading inverts writing ([read_civil_print_as]), and
      what is read was written in one of the spellings
      ([read_civil_spelling]): [Parse] accepts exactly the spellings of
      the valid civil times ([Parse_ok_iff]), which are texts of 33 or
      32 bytes.
    - [ParseLine]: the exact result of [parseLine] on every input (five
      fields or an error carrying the zero [Log]); it inverts the
      printing of a line with a timestamp written in the layout; every
      line it accepts is the print of its fields with a timestamp in one
      of the spellings, and these are more than the fixed-width format
      of spec.md; the checksum and later fields are ignored.
    - [Translate]: termination; the result on every branch (empty text,
      cache hit, transport and decoding errors, provider error, quota
      error with rotation, success); the invariants (the cursor never
      decreases and stays within [0, length secrets], the cache only
      grows, one request per credential tried, credentials used in order);
      a second call for the same text sends nothing; exhaustion of the
      credentials ends in a panic after exactly the remaining number of
      requests; refinement of [Spec.contract].
    - [Form]: reading inverts writing ([unescape_escape]); the body of
      main.go, which is written without escapes, is read as the
      parameters it was written from exactly when the two languages and
      the text hold no "&", "+" or "%"; the escaped body always is.
    - [Pipeline]: lines that fail to parse, are older than the start or
      carry another chat code change nothing; every other line prints
      exactly one text; output is produced in the order of the lines; a
      panic stops the loop and can only be the exhaustion of the
      credentials; no .log file is more recent than the one chosen.
    - [Process]: [step] is tied to [main_loop] by two lemmas (they reach
      the same states: the rules of [step] are the ways through the body
      of the loop); every
      reachable state, and the state of a crash, satisfies [inv] (by
      induction on the steps); hence the cursor is the number of quota
      refusals received, each request carries the credential that the
      refusals before it select, a crash comes only after every
      credential was refused, what the cache serves is an answer the
      service gave for that text, and the cache holds one entry for each
      translation received.
    - [Json]: [classify] on the two shapes of an answer (with the lemma
      that decoding inverts json.Marshal on [PapagoResponse] and on the
      credentials); an
      object with none of the fields is taken as the empty translation
      and cached; a field of the wrong type is an error; keys that match
      no field change nothing.
    - [Progress]: with one credential that is never refused the loop
      never crashes and prints every accepted line; the loop sends at
      most one request for each translation it asks for and one more for
      each credential; the increment of the cursor never wraps.
    - [Ideal]: against a service whose every answer is a refusal for
      quota or the translation of the text, with one credential that is
      never refused, the loop refines the machine: it prints every
      accepted line with its translation, in order, its cache is what
      the machine knows, and it sends exactly one request for each text
      it holds and one for each credential spent.
    - [Privacy]: the loop on a log is the loop on its accepted lines:
      the lines of the channels that are not configured change nothing,
      and every request is a POST to the endpoint that carries a text of
      an accepted line under a credential of the file.
    - [Timing]: no request holds the program longer than the timeout; a
      late answer is a failure returned at once, without rotation; the
      time a run has waited is at most ten seconds for each request the
      bound of [Progress] allows.
    - [Effects]: the functions with events compute the outcomes of the
      functions without, and the three traces of the state are the
      projections of the events; every response body opened is closed,
      the last opened first, also when the call panics; a call holds at
      most one body for each credential, since the bodies of refused
      requests stay open while the next credential is tried; the events
      of more lines begin with the events of the first lines.
    - [Follow]: the lines delivered are the whole lines of what was
      written, however the writes cut it; nothing is lost or delivered
      twice; later writes only add lines, so what the program has done
      is the beginning of what it will have done.
    - [Observe]: lemmas for rewriting, no property of the program: the
      log and the output are only written, so the functions of the
      program are [Proper] for [alike].
    - [Channels]: the codes of the table are pairwise distinct, four
      bytes without a comma or a "|"; with TARGET_CHATCODES written from
      a list of channels, a line of a channel is accepted exactly when
      the channel is in the list; the line of the example parses, and
      its code is none of the table.
    - [Startup]: the only configuration error is the boolean; without
      chat codes the program starts and never prints; an empty list of
      credentials passes the start and panics at the first translation.
    - [Tail]: served a finite list of lines the tree computes exactly
      what [main_loop] computes, so every theorem about [main_loop] is a
      theorem about the finite prefixes of the infinite run; what the
      tree does is each line read followed by the effects of that line,
      and these effects are the events of [Effects.main_loop_events]:
      the loop works on one line at a time; with a credential that is
      never refused the tree is [alive], that is, the loop never stops
      by itself (by coinduction, with Paco).
    - [Program]: in every world and on every list of lines [program]
      computes what [Startup.main] computes and shows the reads of the
      start, the lines and the effects in the order of [program_seen]
      (the credentials are read before the directory is listed, the
      clock before the tail is opened); where the start succeeds and one
      credential is never refused, [program] is [alive].

    ** Not modelled

    The operating system, the tail library and the terminal are I/O:
    their answers are inputs of the model ([World], the list of lines,
    the answers to [NextLine]), and [path.Join] is left to the field
    [TailFile].  How the tail library follows the file (polling,
    rotation, its own rate limit) is not modelled.  The syntax of JSON
    texts and the comparison of keys up to case are parameters
    ([JsonSyntax]): a parser of JSON texts would be a model of library
    code with nothing of main.go in it.  Of net/http, only the timeout
    of [httpClient] is modelled ([Timing]); connections, redirects, TLS
    and the HTTP status (which main.go never reads) are part of the
    answer of the [Remote].  [time.Now], time zones by name and layouts
    other than the one of main.go are not modelled; [GoTime.Parse] is
    written from the behaviour of the library for this one layout, not
    from its code, which is not part of the repository.  How the
    provider reads a form is modelled from the format ([Form]); a
    provider that reads a malformed escape as it stands, or that cuts at
    ";" as well, reads some texts otherwise.  The import block
    (main.go 35-47) has no behaviour.  Of logrus, the levels and the
    level of the standard logger are modelled ([Translate.stderr]: what
    is logged at the level debug is not written); the format of its
    lines (time, level, fields) is not, and the text of the messages and
    of the errors of the libraries is modelled only where the program
    builds it.  Concurrency: the program has a single goroutine of its
    own. *)

From stdpp Require Import base list strings.
From Stdlib Require Import Ascii Lia.

Declare Scope go_scope.
Delimit Scope go_scope with go.
#[global] Open Scope go_scope.

Create HintDb go.
Create Rewrite HintDb go.

(** ** Go values shared by every component *)

(** The run-time panics the program can raise: indexing a slice out of
    range, [secrets[*secretIdx]]. *)
Inductive panic : Type :=
| IndexOutOfRange (index len : nat).

(** Go's [error] values, by the statement that creates them.  [Foreign]
    errors come from a library call (the layer says which) with the
    library's message. *)
Inductive layer : Type :=
| TimeParse | NewRequest | ClientDo | ReadAll | JsonUnmarshal.

Inductive error : Type :=
| InvalidLine (line : string)
| PapagoError (msg : string)
| Foreign (l : layer) (msg : string).

(** The text of an error, as [err.Error()] gives it. *)
Definition error_text (e : error) : string :=
  match e with
  | InvalidLine line => "invalid line: " +:+ line
  | PapagoError msg => "papago error: " +:+ msg
  | Foreign _ msg => msg
  end.

(** The newline of Go's ["\n"]. *)
Definition nl : string := String (ascii_of_nat 10) "".

(** A call on state [S] returns a value, panics, or (for fuel-indexed
    definitions only) runs out of fuel. *)
Inductive outcome (S A : Type) : Type :=
| Returned (s : S) (a : A)
| Panicked (s : S) (p : panic)
| OutOfFuel.
Arguments Returned {S A} s a.
Arguments Panicked {S A} s p.
Arguments OutOfFuel {S A}.

Definition bind {S A B} (m : outcome S A) (k : S -> A -> outcome S B) : outcome S B :=
  match m with
  | Returned s a => k s a
  | Panicked s p => Panicked s p
  | OutOfFuel => OutOfFuel
  end.

Notation "'call' ( s , x ) <- m ; k" := (bind m (fun s x => k))
  (at level 10, s name, x name, m at level 100, k at level 200,
   format "'[v' 'call'  ( s ,  x )  <-  m ; '/' k ']'") : go_scope.

(** The state a call ends in, whether it returned or panicked. *)
Definition final {S A} (m : outcome S A) : option S :=
  match m with
  | Returned s _ => Some s
  | Panicked s _ => Some s
  | OutOfFuel => None
  end.

Definition returned {S A} (m : outcome S A) : bool :=
  match m with Returned _ _ => true | _ => false end.

Definition panicked {S A} (m : outcome S A) : bool :=
  match m with Panicked _ _ => true | _ => false end.

Definition terminates {S A} (m : outcome S A) : bool :=
  match m with OutOfFuel => false | _ => true end.

#[global] Instance panic_eq_dec : EqDecision panic.
Proof. solve_decision. Defined.
#[global] Instance layer_eq_dec : EqDecision layer.
Proof. solve_decision. Defined.
#[global] Instance error_eq_dec : EqDecision error.
Proof. solve_decision. Defined.

(** ** Tactics *)

(** Case analysis on the first [match] or [if] scrutinee of the goal,
    keeping the equation, then clean-up. *)
Ltac go_case :=
  match goal with
  | |- context [match ?x with _ => _ end] =>
      let E := fresh "E" in destruct x eqn:E; simplify_eq/=
  end.

Ltac go_cases := repeat (first [done | go_case]).

(** Invert an equation between outcomes or pairs in the hypotheses. *)
Ltac go_inv :=
  repeat match goal with
  | H : Returned _ _ = Returned _ _ |- _ => injection H as ?; subst
  | H : Panicked _ _ = Panicked _ _ |- _ => injection H as ?; subst
  | H : (_, _) = (_, _) |- _ => injection H as ?; subst
  | H : Some _ = Some _ |- _ => injection H as ?; subst
  | H : Returned _ _ = Panicked _ _ |- _ => discriminate H
  | H : Panicked _ _ = Returned _ _ |- _ => discriminate H
  | H : OutOfFuel = _ |- _ => discriminate H
  | H : _ = OutOfFuel |- _ => discriminate H
  end.

(** ** Outcomes *)

Section outcome_lemmas.
Context {S A B C : Type}.
Implicit Types (m : outcome S A) (k : S -> A -> outcome S B).

Lemma bind_Returned s a k : bind (Returned s a) k = k s a.
Proof. reflexivity. Qed.

Lemma bind_Panicked s p k : bind (@Panicked S A s p) k = Panicked s p.
Proof. reflexivity. Qed.

Lemma bind_OutOfFuel k : bind (@OutOfFuel S A) k = OutOfFuel.
Proof. reflexivity. Qed.

Lemma bind_ret_r m : bind m Returned = m.
Proof. by destruct m. Qed.

Lemma bind_assoc m k (h : S -> B -> outcome S C) :
  bind (bind m k) h = bind m (fun s a => bind (k s a) h).
Proof. by destruct m. Qed.

Lemma bind_Returned_inv m k s b :
  bind m k = Returned s b -> exists s0 a, m = Returned s0 a /\ k s0 a = Returned s b.
Proof. destruct m; naive_solver. Qed.

Lemma bind_Panicked_inv m k s p :
  bind m k = Panicked s p ->
  m = Panicked s p \/ exists s0 a, m = Returned s0 a /\ k s0 a = Panicked s p.
Proof. destruct m; naive_solver. Qed.

Lemma bind_terminates m k :
  terminates m = true -> (forall s a, terminates (k s a) = true) ->
  terminates (bind m k) = true.
Proof. destruct m; naive_solver. Qed.

Lemma terminates_final m : terminates m = true <-> is_Some (final m).
Proof. destruct m; simpl; split; try done; eauto; by intros [? ?]. Qed.

End outcome_lemmas.

#[export] Hint Rewrite @bind_Returned @bind_Panicked @bind_OutOfFuel @bind_ret_r : go.

(** ** Lists *)

Lemma omap_cons_length {A B} (f : A -> option B) (x : A) (l : list A) :
  length (omap f (x :: l)) = length (option_list (f x)) + length (omap f l).
Proof. simpl. by destruct (f x). Qed.

(** ** Byte strings *)

(** stdpp keeps [simpl] from unfolding the append of strings: its two
    equations are rewriting rules of [go]. *)
Section string_lemmas.
Implicit Types (s t u : string) (c : ascii).

Lemma string_app_nil_l s : "" +:+ s = s.
Proof. reflexivity. Qed.

Lemma string_app_cons c s t : String c s +:+ t = String c (s +:+ t).
Proof. reflexivity. Qed.

Lemma string_app_nil_r s : s +:+ "" = s.
Proof. induction s; [done | rewrite string_app_cons; congruence]. Qed.

Lemma string_app_assoc s t u : (s +:+ t) +:+ u = s +:+ (t +:+ u).
Proof. induction s; [done | rewrite !string_app_cons; congruence]. Qed.

Lemma string_length_app s t : String.length (s +:+ t) = String.length s + String.length t.
Proof. induction s; [done | rewrite string_app_cons; simpl; congruence]. Qed.

Lemma string_app_eq_nil s t : s +:+ t = "" -> s = "" /\ t = "".
Proof. destruct s; [by rewrite string_app_nil_l; intros -> | done]. Qed.

Lemma string_app_inv_head s t u : s +:+ t = s +:+ u -> t = u.
Proof. apply (inj (String.app s)). Qed.

Lemma string_app_inv_tail s t u : s +:+ u = t +:+ u -> s = t.
Proof.
  revert t. induction s as [|c s IH]; intros [|d t] H; try done.
  - apply (f_equal String.length) in H.
    rewrite string_app_nil_l, string_app_cons in H. simpl in H.
    rewrite string_length_app in H. lia.
  - apply (f_equal String.length) in H.
    rewrite string_app_nil_l, string_app_cons in H. simpl in H.
    rewrite string_length_app in H. lia.
  - rewrite !string_app_cons in H. injection H as -> H. f_equal. by apply IH.
Qed.

End string_lemmas.

#[export] Hint Rewrite string_app_nil_l string_app_cons string_app_nil_r
  string_app_assoc string_length_app : go.
#[export] Hint Resolve string_app_inv_head string_app_inv_tail : go.

(** Normalise appends of strings. *)
Ltac str_simpl := repeat (rewrite ?string_app_nil_l, ?string_app_cons,
  ?string_app_nil_r, ?string_app_assoc; simpl).
