(* ===== verification/GoStrings.v ===== *)
(** * GoStrings: the functions of Go's package strings that main.go calls

    [Split] (main.go 182, on the one-byte separator "|"), [Contains]
    (main.go 261) and [HasSuffix] (main.go 108), over byte strings.  They
    are library code, modelled from their documented behaviour:
    - [Split s sep] cuts [s] at every occurrence of [sep] and returns the
      pieces between them, [Count s sep + 1] of them; the separator is a
      single byte here, the only way main.go calls it;
    - [Contains s substr] reports whether [substr] is within [s];
    - [HasSuffix s suffix] is [len(s) >= len(suffix) &&
      s[len(s)-len(suffix):] == suffix].
    [Join] and [Count] are the specification's vocabulary: main.go does not
    call them. *)

From stdpp Require Import base list strings.
From Stdlib Require Import Ascii Lia.
From S2P Require Import Prelude.

(** ** Definitions *)

(** [s[n:]] for [n <= len(s)]; the whole of [s] is consumed beyond. *)
Fixpoint string_drop (n : nat) (s : string) : string :=
  match n, s with
  | 0, _ => s
  | S n', String _ s' => string_drop n' s'
  | S _, "" => ""
  end.

Fixpoint HasPrefix (s prefix : string) {struct prefix} : bool :=
  match prefix, s with
  | "", _ => true
  | String p prefix', String c s' =>
      if decide (c = p) then HasPrefix s' prefix' else false
  | String _ _, "" => false
  end.

Fixpoint Contains (s substr : string) : bool :=
  HasPrefix s substr ||
  match s with
  | "" => false
  | String _ s' => Contains s' substr
  end.

Definition HasSuffix (s suffix : string) : bool :=
  bool_decide (String.length suffix <= String.length s) &&
  bool_decide (string_drop (String.length s - String.length suffix) s = suffix).

Fixpoint Split (s : string) (sep : ascii) : list string :=
  match s with
  | "" => [""]
  | String c s' =>
      if decide (c = sep) then "" :: Split s' sep
      else match Split s' sep with
           | piece :: pieces => String c piece :: pieces
           | [] => [String c ""]
           end
  end.

(** The number of occurrences of a byte, and its absence. *)
Fixpoint Count (s : string) (sep : ascii) : nat :=
  match s with
  | "" => 0
  | String c s' => (if decide (c = sep) then 1 else 0) + Count s' sep
  end.

Definition sep_free (sep : ascii) (s : string) : Prop := Count s sep = 0.

#[global] Instance sep_free_dec sep s : Decision (sep_free sep s).
Proof. unfold sep_free. apply _. Defined.

Fixpoint Join (elems : list string) (sep : string) : string :=
  match elems with
  | [] => ""
  | [x] => x
  | x :: rest => x +:+ sep +:+ Join rest sep
  end.

(** ** Prefixes, suffixes and substrings *)

Section substrings.
Implicit Types (s t p : string) (c : ascii).

Lemma string_drop_app s t : string_drop (String.length s) (s +:+ t) = t.
Proof. induction s; [done | by rewrite string_app_cons]. Qed.

Lemma string_drop_length s n :
  String.length (string_drop n s) = String.length s - n.
Proof. revert s; induction n; intros [|c s]; simpl; auto. Qed.

Lemma string_drop_split s n :
  n <= String.length s -> exists a, s = a +:+ string_drop n s /\ String.length a = n.
Proof.
  revert s; induction n as [|n IH]; intros s Hn.
  - by exists "".
  - destruct s as [|c s]; simpl in *; [lia|].
    destruct (IH s) as (a & Ha & Hl); [lia|].
    exists (String c a). rewrite string_app_cons, <- Ha. simpl. auto.
Qed.

Lemma HasPrefix_spec s p : HasPrefix s p = true <-> exists t, s = p +:+ t.
Proof.
  revert s; induction p as [|c p IH]; intros s; simpl.
  - split; [by exists s | done].
  - destruct s as [|d s]; [split; [done | by intros [t ?]] |].
    case_decide; subst.
    + rewrite IH. split; intros [t Ht]; exists t.
      * by rewrite string_app_cons, Ht.
      * rewrite string_app_cons in Ht. congruence.
    + split; [done | intros [t Ht]]. rewrite string_app_cons in Ht. congruence.
Qed.

Lemma HasPrefix_app s t : HasPrefix (s +:+ t) s = true.
Proof. apply HasPrefix_spec. by exists t. Qed.

Lemma Contains_spec s p : Contains s p = true <-> exists a b, s = a +:+ p +:+ b.
Proof.
  induction s as [|c s IH]; simpl; rewrite orb_true_iff, HasPrefix_spec.
  - split.
    + intros [[t Ht]|?]; [|done]. by exists "", t.
    + intros (a & b & H). left. symmetry in H.
      apply string_app_eq_nil in H as [-> H]. by exists b.
  - rewrite IH. split.
    + intros [[t Ht]|(a & b & ->)]; [by exists "", t|].
      by exists (String c a), b.
    + intros ([|d a] & b & H); [left; by exists b|right].
      rewrite string_app_cons in H. injection H as -> ->. by exists a, b.
Qed.

Lemma Contains_app a p b : Contains (a +:+ p +:+ b) p = true.
Proof. apply Contains_spec. by exists a, b. Qed.

Lemma Contains_nil_r s : Contains s "" = true.
Proof. by destruct s. Qed.

Lemma HasSuffix_spec s p : HasSuffix s p = true <-> exists a, s = a +:+ p.
Proof.
  unfold HasSuffix. rewrite andb_true_iff, !bool_decide_eq_true. split.
  - intros [Hle Heq].
    destruct (string_drop_split s (String.length s - String.length p)) as (a & Ha & _);
      [lia|]. exists a. by rewrite Heq in Ha.
  - intros [a ->]. rewrite string_length_app. split; [lia|].
    replace (String.length a + String.length p - String.length p)
      with (String.length a) by lia.
    apply string_drop_app.
Qed.

End substrings.

(** ** Split *)

Section split.
Context (sep : ascii).
Implicit Types (s t : string) (l : list string).

Lemma Count_app s t : Count (s +:+ t) sep = Count s sep + Count t sep.
Proof. induction s as [|c s IH]; [done|]. rewrite string_app_cons. cbn [Count]. lia. Qed.

(** A text without the separator, or a first piece and the rest. *)
Lemma sep_cut s :
  sep_free sep s \/ exists a b, s = a +:+ String sep b /\ sep_free sep a.
Proof.
  unfold sep_free. induction s as [|c s IH]; [by left|]. cbn [Count].
  destruct (decide (c = sep)) as [->|Hc]; [right; by exists "", s|].
  destruct IH as [H|(a & b & -> & Ha)]; [left; lia|right].
  exists (String c a), b. cbn [Count]. by rewrite decide_False.
Qed.

Lemma Split_nonempty s : Split s sep <> [].
Proof. destruct s as [|c s]; simpl; [done|]. case_decide; [done|]. by destruct (Split s sep). Qed.

Lemma Split_cons_inv s : exists piece pieces, Split s sep = piece :: pieces.
Proof. pose proof (Split_nonempty s). destruct (Split s sep); naive_solver. Qed.

Lemma Split_length s : length (Split s sep) = S (Count s sep).
Proof.
  induction s as [|c s IH]; simpl; [done|].
  case_decide; simpl; [by rewrite IH|].
  destruct (Split_cons_inv s) as (p & ps & E). rewrite E in *. simpl in *. lia.
Qed.

Lemma Split_sep_free s : sep_free sep s -> Split s sep = [s].
Proof.
  unfold sep_free. induction s as [|c s IH]; simpl; [done|].
  case_decide; [lia|]. intros ?. by rewrite IH.
Qed.

(** The first field of a line: everything before the first separator. *)
Lemma Split_field s t :
  sep_free sep s -> Split (s +:+ String sep t) sep = s :: Split t sep.
Proof.
  unfold sep_free. induction s as [|c s IH]; simpl.
  - intros _. rewrite ?string_app_nil_l. simpl. by rewrite decide_True.
  - case_decide; [lia|]. intros ?. by rewrite IH.
Qed.

Lemma Join_Split s : Join (Split s sep) (String sep "") = s.
Proof.
  induction s as [|c s IH]; simpl; [done|].
  destruct (Split_cons_inv s) as (p & ps & E). rewrite E in IH |- *.
  case_decide; [subst c|]; rewrite <- IH; by destruct ps.
Qed.

Lemma Split_all_sep_free s : Forall (sep_free sep) (Split s sep).
Proof.
  unfold sep_free. induction s as [|c s IH]; simpl; [by repeat constructor|].
  case_decide; subst; [by constructor|].
  destruct (Split_cons_inv s) as (p & ps & E). rewrite E in *.
  apply Forall_cons in IH as [Hp Hps]. constructor; [|done].
  simpl. by rewrite decide_False.
Qed.

Lemma Split_Join l :
  l <> [] -> Forall (sep_free sep) l -> Split (Join l (String sep "")) sep = l.
Proof.
  induction l as [|x [|y l] IH]; intros Hne Hall; [done| |].
  - simpl. apply Split_sep_free. by apply Forall_cons in Hall as [? _].
  - apply Forall_cons in Hall as [Hx Hall].
    change (Join (x :: y :: l) (String sep "")) with
      (x +:+ String sep "" +:+ Join (y :: l) (String sep "")).
    str_simpl. rewrite Split_field by done. f_equal. by apply IH.
Qed.

End split.

#[export] Hint Resolve Split_nonempty Split_all_sep_free : go.
#[export] Hint Rewrite Split_length Join_Split : go.
