(* ===== verification/GoTime.v ===== *)
(** * GoTime: the part of Go's package time that main.go calls

    [time.Parse] with the layout "2006-01-02T15:04:05.0000000-07:00"
    (main.go 187), [Time.Before] (main.go 135) and [Time.After]
    (main.go 115).  Library code, modelled from the format spec.md gives,
    [YYYY-MM-DDThh:mm:ss.fffffff±hh:mm] with seven fractional digits, an
    explicit offset and no "Z" form, and from what the library does with
    this layout beyond that format: the hour may have one digit (the
    element "15" is read without padding, [take_num]), a comma may stand
    for the period ([take_point]), and the first of the seven characters
    of the fraction may be a sign, read as a digit 0 ([take_frac]).  The
    other fields have their exact width, so an accepted text has 33 bytes
    or 32.  The fields are range-checked: month 1-12, day within the
    month of that year (Gregorian leap years), hour below 24, minute and
    second below 60, offset hours at most 24 and offset minutes at most
    60.

    [print_civil] writes a civil time in the layout, zero-padded, and
    [print_civil_as] in the other spellings.  [read_civil] reads back
    what they write ([read_civil_print_as]) and accepts nothing else
    ([read_civil_spelling]); [Parse_ok_iff] is the two together.

    An instant is the number of nanoseconds since 0001-01-01T00:00:00 UTC,
    which makes 0 the zero value of [time.Time].  [Before] and [After]
    compare instants, whatever offset the text was written with. *)

From stdpp Require Import base list strings.
From Stdlib Require Import ZArith Lia Ascii.
From S2P Require Import Prelude.
Local Open Scope Z_scope.

(** ** Instants *)

Record Time : Type := mkTime { nanos : Z }.

#[global] Instance Time_eq_dec : EqDecision Time.
Proof. solve_decision. Defined.

(** [Time{}]: January 1, year 1, 00:00:00 UTC. *)
Definition zeroTime : Time := mkTime 0.

Definition Before (t u : Time) : bool := nanos t <? nanos u.
Definition After (t u : Time) : bool := nanos u <? nanos t.

(** ** The civil calendar *)

Definition is_leap (year : Z) : bool :=
  ((year mod 4 =? 0) && negb (year mod 100 =? 0)) || (year mod 400 =? 0).

Definition daysIn (month year : Z) : Z :=
  if month =? 2 then (if is_leap year then 29 else 28)
  else if (month =? 4) || (month =? 6) || (month =? 9) || (month =? 11) then 30
  else 31.

(** Days from January 1 of year 1 to January 1 of [year]. *)
Definition days_before_year (year : Z) : Z :=
  let y := year - 1 in 365 * y + y / 4 - y / 100 + y / 400.

(** Days from January 1 to the first of [month], [month] in 1..12. *)
Definition days_before_month (month year : Z) : Z :=
  fold_right Z.add 0 (map (fun m => daysIn m year) (map Z.of_nat (seq 1 (Z.to_nat (month - 1))))).

Record civil : Type := mkCivil {
  c_year : Z; c_month : Z; c_day : Z;
  c_hour : Z; c_min : Z; c_sec : Z;
  c_frac : Z;                  (* in units of 100 ns: seven digits *)
  c_sign : Z;                  (* 1 for "+", -1 for "-" *)
  c_zhour : Z; c_zmin : Z
}.

Definition civil_valid (c : civil) : bool :=
  (1 <=? c_month c) && (c_month c <=? 12) &&
  (1 <=? c_day c) && (c_day c <=? daysIn (c_month c) (c_year c)) &&
  (c_hour c <? 24) && (c_min c <? 60) && (c_sec c <? 60) &&
  (c_zhour c <=? 24) && (c_zmin c <=? 60).

Definition zone_offset (c : civil) : Z :=
  c_sign c * ((c_zhour c * 60 + c_zmin c) * 60).

Definition civil_instant (c : civil) : Time :=
  let days := days_before_year (c_year c) + days_before_month (c_month c) (c_year c)
              + (c_day c - 1) in
  let secs := days * 86400 + c_hour c * 3600 + c_min c * 60 + c_sec c - zone_offset c in
  mkTime (secs * 1000000000 + c_frac c * 100).

(** ** Reading the fixed-width text *)

Definition digit (c : ascii) : option Z :=
  let n := Z.of_nat (nat_of_ascii c) in
  if (48 <=? n) && (n <=? 57) then Some (n - 48) else None.

(** Exactly [n] decimal digits, most significant first. *)
Fixpoint take_digits (n : nat) (acc : Z) (s : string) : option (Z * string) :=
  match n with
  | O => Some (acc, s)
  | S n' =>
      match s with
      | String c s' =>
          match digit c with
          | Some d => take_digits n' (10 * acc + d) s'
          | None => None
          end
      | "" => None
      end
  end.

Definition expect (c : ascii) (s : string) : option string :=
  match s with
  | String d s' => if decide (d = c) then Some s' else None
  | "" => None
  end.

Definition take_sign (s : string) : option (Z * string) :=
  match s with
  | String d s' =>
      if decide (d = "+"%char) then Some (1, s')
      else if decide (d = "-"%char) then Some (-1, s')
      else None
  | "" => None
  end.

(** One decimal digit, or two when a second one follows: the library
    reads the element "15" of a layout with [getnum(value, false)], so
    an hour may be written with one digit. *)
Definition take_num (s : string) : option (Z * string) :=
  match s with
  | String c s' =>
      match digit c with
      | Some d =>
          match s' with
          | String c' s'' =>
              match digit c' with
              | Some d' => Some (10 * d + d', s'')
              | None => Some (d, s')
              end
          | "" => Some (d, s')
          end
      | None => None
      end
  | "" => None
  end.

(** The separator of the fraction: the library takes a comma for the
    period of the layout. *)
Definition take_point (s : string) : option string :=
  match s with
  | String d s' =>
      if decide (d = "."%char) then Some s'
      else if decide (d = ","%char) then Some s'
      else None
  | "" => None
  end.

(** The seven characters of the fraction.  The library reads them with
    its [atoi], which takes a sign before the digits: a "+" counts as a
    leading zero, and so does a "-" when the six digits after it are
    zeros (a negative fraction is out of range). *)
Definition take_frac (s : string) : option (Z * string) :=
  match s with
  | String d s' =>
      if decide (d = "+"%char) then take_digits 6 0 s'
      else if decide (d = "-"%char) then
        '(q, s'') ← take_digits 6 0 s';
        if decide (q = 0) then Some (0, s'') else None
      else take_digits 7 0 s
  | "" => None
  end.

Definition read_civil (value : string) : option civil :=
  '(year, s) ← take_digits 4 0 value;
  s ← expect "-" s;
  '(month, s) ← take_digits 2 0 s;
  s ← expect "-" s;
  '(day, s) ← take_digits 2 0 s;
  s ← expect "T" s;
  '(hour, s) ← take_num s;
  s ← expect ":" s;
  '(min, s) ← take_digits 2 0 s;
  s ← expect ":" s;
  '(sec, s) ← take_digits 2 0 s;
  s ← take_point s;
  '(frac, s) ← take_frac s;
  '(sign, s) ← take_sign s;
  '(zhour, s) ← take_digits 2 0 s;
  s ← expect ":" s;
  '(zmin, s) ← take_digits 2 0 s;
  if decide (s = "") then
    Some (mkCivil year month day hour min sec frac sign zhour zmin)
  else None.

(** [time.Parse(layout, value)] for the layout of main.go: the instant, or
    the zero [Time] and an error. *)
Definition Parse (value : string) : Time * option error :=
  match read_civil value with
  | Some c =>
      if civil_valid c then (civil_instant c, None)
      else (zeroTime, Some (Foreign TimeParse value))
  | None => (zeroTime, Some (Foreign TimeParse value))
  end.

(** ** Writing the fixed-width text

    The timestamps of the log are written by the program that produces
    it, in the layout [Parse] reads: zero-padded fields of fixed width. *)

Definition digit_char (d : Z) : ascii :=
  match d with
  | 0 => "0" | 1 => "1" | 2 => "2" | 3 => "3" | 4 => "4"
  | 5 => "5" | 6 => "6" | 7 => "7" | 8 => "8" | _ => "9"
  end%char.

(** The last [n] decimal digits of [v], most significant first, and the
    text [s] after them. *)
Fixpoint put_digits (n : nat) (v : Z) (s : string) : string :=
  match n with
  | O => s
  | S n' => String (digit_char (v / 10 ^ Z.of_nat n' mod 10)) (put_digits n' v s)
  end.

Definition sign_char (sign : Z) : ascii := if 0 <=? sign then "+"%char else "-"%char.

Definition print_civil (c : civil) : string :=
  put_digits 4 (c_year c) (String "-" (put_digits 2 (c_month c) (String "-"
  (put_digits 2 (c_day c) (String "T" (put_digits 2 (c_hour c) (String ":"
  (put_digits 2 (c_min c) (String ":" (put_digits 2 (c_sec c) (String "."
  (put_digits 7 (c_frac c) (String (sign_char (c_sign c))
  (put_digits 2 (c_zhour c) (String ":" (put_digits 2 (c_zmin c) "")))))))))))))))).

(** The fraction, in seven digits or in six after the character [lead]. *)
Definition put_frac (lead : option ascii) (v : Z) (s : string) : string :=
  match lead with
  | Some ch => String ch (put_digits 6 v s)
  | None => put_digits 7 v s
  end.

(** The other spellings of a civil time that [Parse] reads: the hour in
    one digit when [short], [point] before the fraction, and [lead] in
    the place of the first digit of the fraction. *)
Definition print_civil_as (short : bool) (point : ascii) (lead : option ascii) (c : civil)
    : string :=
  put_digits 4 (c_year c) (String "-" (put_digits 2 (c_month c) (String "-"
  (put_digits 2 (c_day c) (String "T" (put_digits (if short then 1 else 2) (c_hour c)
  (String ":" (put_digits 2 (c_min c) (String ":" (put_digits 2 (c_sec c) (String point
  (put_frac lead (c_frac c) (String (sign_char (c_sign c))
  (put_digits 2 (c_zhour c) (String ":" (put_digits 2 (c_zmin c) "")))))))))))))))).

(** A sign stands for a first digit 0 of the fraction, "-" only before
    zeros. *)
Definition frac_ok (lead : option ascii) (v : Z) : Prop :=
  match lead with
  | Some ch => (ch = "+"%char /\ 0 <= v < 1000000) \/ (ch = "-"%char /\ v = 0)
  | None => 0 <= v < 10000000
  end.

(** The hour has one digit if it is written with one, the separator is
    one of the two, and the fraction fits the way it is written. *)
Definition spelling (short : bool) (point : ascii) (lead : option ascii) (c : civil) : Prop :=
  (point = "."%char \/ point = ","%char) /\ (short = true -> c_hour c < 10) /\
  frac_ok lead (c_frac c).

(** The fields fit their widths. *)
Definition civil_printable (c : civil) : bool :=
  (0 <=? c_year c) && (c_year c <? 10000) && (0 <=? c_month c) && (c_month c <? 100) &&
  (0 <=? c_day c) && (c_day c <? 100) && (0 <=? c_hour c) && (c_hour c <? 100) &&
  (0 <=? c_min c) && (c_min c <? 100) && (0 <=? c_sec c) && (c_sec c <? 100) &&
  (0 <=? c_frac c) && (c_frac c <? 10000000) &&
  ((c_sign c =? 1) || (c_sign c =? -1)) &&
  (0 <=? c_zhour c) && (c_zhour c <? 100) && (0 <=? c_zmin c) && (c_zmin c <? 100).

(** ** Comparisons *)

Section compare.
Implicit Types t u v : Time.

Lemma Before_irrefl t : Before t t = false.
Proof. unfold Before. lia. Qed.

Lemma Before_trans t u v : Before t u = true -> Before u v = true -> Before t v = true.
Proof. unfold Before. lia. Qed.

Lemma Before_After t u : Before t u = After u t.
Proof. reflexivity. Qed.

Lemma Before_false_iff t u : Before t u = false <-> nanos u <= nanos t.
Proof. unfold Before. lia. Qed.

Lemma Before_true_iff t u : Before t u = true <-> nanos t < nanos u.
Proof. unfold Before. lia. Qed.

Lemma After_true_iff t u : After t u = true <-> nanos u < nanos t.
Proof. unfold After. lia. Qed.

Lemma After_false_iff t u : After t u = false <-> nanos t <= nanos u.
Proof. unfold After. lia. Qed.

Lemma Before_total t u : Before t u = false -> Before u t = false -> t = u.
Proof. destruct t, u. unfold Before. simpl. intros. f_equal. lia. Qed.

End compare.

(** ** Parsing *)

Section parse.
Implicit Types (s value : string) (t : Time).

Lemma Parse_error_zero value e t : Parse value = (t, Some e) -> t = zeroTime.
Proof. unfold Parse. intros H. repeat case_match; by simplify_eq. Qed.

Lemma Parse_error_value value e t :
  Parse value = (t, Some e) -> e = Foreign TimeParse value.
Proof. unfold Parse. intros H. repeat case_match; by simplify_eq. Qed.

Lemma Parse_ok_inv value t :
  Parse value = (t, None) ->
  exists c, read_civil value = Some c /\ civil_valid c = true /\ t = civil_instant c.
Proof. unfold Parse. intros H. repeat case_match; simplify_eq. eauto. Qed.

Lemma Parse_ok c value :
  read_civil value = Some c -> civil_valid c = true ->
  Parse value = (civil_instant c, None).
Proof. unfold Parse. by intros -> ->. Qed.

Lemma take_digits_length n acc s v s' :
  take_digits n acc s = Some (v, s') ->
  String.length s = (n + String.length s')%nat.
Proof.
  revert acc s. induction n as [|n IH]; intros acc s H; simpl in *; [by simplify_eq|].
  destruct s as [|c s]; [done|]. destruct (digit c); [|done].
  apply IH in H. simpl. lia.
Qed.

Lemma expect_length c s s' :
  expect c s = Some s' -> String.length s = S (String.length s').
Proof. destruct s; simpl; [done|]. case_decide; naive_solver. Qed.

Lemma take_sign_length s v s' :
  take_sign s = Some (v, s') -> String.length s = S (String.length s').
Proof. destruct s; simpl; [done|]. repeat case_decide; naive_solver. Qed.

Lemma take_num_length s v s' :
  take_num s = Some (v, s') ->
  (S (String.length s') <= String.length s <= 2 + String.length s')%nat.
Proof.
  destruct s as [|c [|c' s'']]; cbn [take_num]; [done|..]; destruct (digit c); try done.
  - intros [= <- <-]. simpl. lia.
  - destruct (digit c'); intros [= <- <-]; simpl; lia.
Qed.

Lemma take_point_length s s' :
  take_point s = Some s' -> String.length s = S (String.length s').
Proof. destruct s; simpl; [done|]. repeat case_decide; naive_solver. Qed.

Lemma take_frac_length s v s' :
  take_frac s = Some (v, s') -> String.length s = (7 + String.length s')%nat.
Proof.
  destruct s as [|d s]; cbn [take_frac]; [done|]. repeat case_decide.
  - intros E%take_digits_length. simpl. lia.
  - destruct (take_digits 6 0 s) as [[q s'']|] eqn:E; cbn [mbind option_bind]; [|done].
    apply take_digits_length in E. case_decide; [|done]. intros [= <- <-]. simpl. lia.
  - by intros E%take_digits_length.
Qed.

(** Every text the layout accepts has the width of the layout, or one
    byte less. *)
Lemma read_civil_length value c :
  read_civil value = Some c -> (32 <= String.length value <= 33)%nat.
Proof.
  unfold read_civil. intros H.
  repeat match goal with
  | H : (mbind _ ?m) = Some _ |- _ =>
      let E := fresh "E" in
      destruct m as [[? ?]|] eqn:E; cbn [mbind option_bind] in H; [|done]
  | H : (mbind _ ?m) = Some _ |- _ =>
      let E := fresh "E" in
      destruct m as [?|] eqn:E; cbn [mbind option_bind] in H; [|done]
  end.
  case_decide; [subst|done].
  repeat match goal with
  | E : take_digits _ _ _ = Some _ |- _ => apply take_digits_length in E
  | E : expect _ _ = Some _ |- _ => apply expect_length in E
  | E : take_sign _ = Some _ |- _ => apply take_sign_length in E
  | E : take_num _ = Some _ |- _ => apply take_num_length in E
  | E : take_point _ = Some _ |- _ => apply take_point_length in E
  | E : take_frac _ = Some _ |- _ => apply take_frac_length in E
  end.
  simpl in *. lia.
Qed.

Lemma Parse_ok_length value t :
  Parse value = (t, None) -> (32 <= String.length value <= 33)%nat.
Proof. intros (c & H & _)%Parse_ok_inv. by eapply read_civil_length. Qed.

End parse.

(** ** Writing and reading back *)

Section print.
Implicit Types (s value : string) (c : civil) (n : nat) (v acc d : Z) (ch : ascii).

Lemma digit_digit_char d : 0 <= d < 10 -> digit (digit_char d) = Some d.
Proof.
  intros H.
  assert (d = 0 \/ d = 1 \/ d = 2 \/ d = 3 \/ d = 4 \/ d = 5 \/ d = 6 \/ d = 7 \/ d = 8 \/ d = 9)
    as Hd by lia.
  repeat (destruct Hd as [->|Hd]); try subst d; reflexivity.
Qed.

Lemma digit_char_digit ch d : digit ch = Some d -> ch = digit_char d /\ 0 <= d < 10.
Proof.
  destruct ch as [[] [] [] [] [] [] [] []]; intros H; vm_compute in H;
    try discriminate; injection H as <-; split; (reflexivity || lia).
Qed.

Lemma pow10_pos n : 0 < 10 ^ Z.of_nat n.
Proof. apply Z.pow_pos_nonneg; lia. Qed.

(** Reading [n] digits that were written gives back the number, up to
    its last [n] digits. *)
Lemma take_digits_put n acc v s :
  take_digits n acc (put_digits n v s)
  = Some (acc * 10 ^ Z.of_nat n + v mod 10 ^ Z.of_nat n, s).
Proof.
  revert acc. induction n as [|n IH]; intros acc.
  - simpl. rewrite Z.mod_1_r. do 2 f_equal. lia.
  - pose proof (pow10_pos n) as HP.
    cbn [take_digits put_digits]. rewrite digit_digit_char by (apply Z.mod_pos_bound; lia).
    rewrite IH. do 2 f_equal. rewrite Nat2Z.inj_succ, Z.pow_succ_r by lia.
    rewrite (Z.mul_comm 10 (10 ^ _)), Z.rem_mul_r by lia. ring.
Qed.

Lemma take_digits_put_small n v s :
  0 <= v < 10 ^ Z.of_nat n -> take_digits n 0 (put_digits n v s) = Some (v, s).
Proof. intros H. by rewrite take_digits_put, Z.mod_small. Qed.

(** What was read as [n] digits is what writing the number gives. *)
Lemma take_digits_inv n acc s v s' :
  0 <= acc -> take_digits n acc s = Some (v, s') ->
  s = put_digits n v s' /\ acc * 10 ^ Z.of_nat n <= v < (acc + 1) * 10 ^ Z.of_nat n.
Proof.
  revert acc s. induction n as [|n IH]; intros acc s Hacc H.
  { simpl in H. simplify_eq. simpl. split; [done | lia]. }
  cbn [take_digits] in H. destruct s as [|ch s]; [done|].
  destruct (digit ch) as [d|] eqn:Ed; [|done].
  apply digit_char_digit in Ed as [-> Hd]. apply IH in H as [-> Hv]; [|lia].
  pose proof (pow10_pos n) as HP. rewrite Nat2Z.inj_succ, Z.pow_succ_r by lia.
  assert (v / 10 ^ Z.of_nat n = 10 * acc + d) as Hq.
  { symmetry. apply (Z.div_unique v _ _ (v - 10 ^ Z.of_nat n * (10 * acc + d))); [left; nia | ring]. }
  split; [|nia]. cbn [put_digits]. rewrite Hq.
  replace ((10 * acc + d) mod 10) with d; [done|]. apply (Z.mod_unique _ _ acc); [left; lia | ring].
Qed.

Lemma expect_cons ch s : expect ch (String ch s) = Some s.
Proof. unfold expect. by rewrite decide_True. Qed.

Lemma expect_inv ch s s' : expect ch s = Some s' -> s = String ch s'.
Proof. destruct s; simpl; [done|]. case_decide; naive_solver. Qed.

Lemma take_sign_put sign s :
  sign = 1 \/ sign = -1 -> take_sign (String (sign_char sign) s) = Some (sign, s).
Proof. by intros [-> | ->]. Qed.

Lemma take_sign_inv s sign s' :
  take_sign s = Some (sign, s') -> s = String (sign_char sign) s' /\ (sign = 1 \/ sign = -1).
Proof. destruct s; simpl; [done|]. repeat case_decide; naive_solver. Qed.

(** The hour, written with two digits or with one. *)
Lemma take_num_put2 v s : 0 <= v < 100 -> take_num (put_digits 2 v s) = Some (v, s).
Proof.
  intros H. rewrite <- (take_digits_put_small 2 v s) by (simpl; lia).
  cbn [put_digits take_num take_digits].
  rewrite !digit_digit_char by (apply Z.mod_pos_bound; lia). repeat f_equal; lia.
Qed.

Lemma take_num_put1 v ch s :
  0 <= v < 10 -> digit ch = None ->
  take_num (put_digits 1 v (String ch s)) = Some (v, String ch s).
Proof.
  intros H Hch. rewrite <- (take_digits_put_small 1 v (String ch s)) by (simpl; lia).
  cbn [put_digits take_num take_digits].
  rewrite !digit_digit_char, Hch by (apply Z.mod_pos_bound; lia). repeat f_equal; lia.
Qed.

Lemma take_num_put (short : bool) v ch s :
  0 <= v < (if short then 10 else 100) -> digit ch = None ->
  take_num (put_digits (if short then 1 else 2) v (String ch s)) = Some (v, String ch s).
Proof. destruct short; [apply take_num_put1 | intros; by apply take_num_put2]. Qed.

Lemma take_point_cons point s :
  point = "."%char \/ point = ","%char -> take_point (String point s) = Some s.
Proof. by intros [-> | ->]. Qed.

Lemma take_num_inv s v s' :
  take_num s = Some (v, s') ->
  exists short : bool,
    s = put_digits (if short then 1 else 2) v s' /\ 0 <= v < (if short then 10 else 100).
Proof.
  intros H.
  assert (exists short : bool,
            take_digits (if short then 1 else 2) 0 s = Some (v, s')) as [short E].
  { destruct s as [|ch [|ch' s'']]; cbn [take_num] in H; [done|..];
      destruct (digit ch) as [d|] eqn:Ed; try done.
    - exists true. cbn [take_digits]. rewrite Ed. by simplify_eq.
    - destruct (digit ch') as [d'|] eqn:Ed'; simplify_eq.
      + exists false. cbn [take_digits]. by rewrite Ed, Ed'.
      + exists true. cbn [take_digits]. by rewrite Ed. }
  exists short. apply take_digits_inv in E as [-> ?]; [|done]. split; [done|].
  destruct short; simpl in *; lia.
Qed.

Lemma take_point_inv s s' :
  take_point s = Some s' ->
  exists point, s = String point s' /\ (point = "."%char \/ point = ","%char).
Proof. destruct s as [|ch s]; simpl; [done|]. repeat case_decide; naive_solver. Qed.

(** No digit is a sign. *)
Lemma digit_sign ch d : digit ch = Some d -> ch <> "+"%char /\ ch <> "-"%char.
Proof. intros H. split; intros ->; discriminate H. Qed.

Lemma take_frac_put lead v s :
  frac_ok lead v -> take_frac (put_frac lead v s) = Some (v, s).
Proof.
  destruct lead as [ch|]; cbn [frac_ok put_frac].
  - intros [[-> H] | [-> ->]]; cbn [take_frac]; rewrite ?decide_True, ?decide_False by done.
    + by apply take_digits_put_small.
    + by rewrite (take_digits_put_small 6 0 s).
  - intros H. rewrite <- (take_digits_put_small 7 v s) by done.
    cbn [put_digits take_frac].
    destruct (digit_sign (digit_char (v / 10 ^ Z.of_nat 6 mod 10)) (v / 10 ^ Z.of_nat 6 mod 10))
      as [H1 H2]; [apply digit_digit_char, Z.mod_pos_bound; lia|].
    by rewrite !decide_False by done.
Qed.

Lemma take_frac_inv s v s' :
  take_frac s = Some (v, s') -> exists lead, s = put_frac lead v s' /\ frac_ok lead v.
Proof.
  destruct s as [|d s]; cbn [take_frac]; [done|]. repeat case_decide; subst.
  - intros [-> ?]%take_digits_inv; [|done]. exists (Some "+"%char).
    split; [done | left; split; [done | simpl in *; lia]].
  - destruct (take_digits 6 0 s) as [[q s'']|] eqn:E; cbn [mbind option_bind]; [|done].
    apply take_digits_inv in E as [-> _]; [|done]. case_decide; [subst|done].
    intros [= <- <-]. exists (Some "-"%char). split; [done | by right].
  - intros [E ?]%take_digits_inv; [|done]. exists None. split; [done | simpl in *; lia].
Qed.

Lemma frac_ok_bound lead v : frac_ok lead v -> 0 <= v < 10000000.
Proof. destruct lead; simpl; [intros [[_ ?] | [_ ->]]|]; lia. Qed.

(** A civil time whose fields fit their widths is read back from each
    of its spellings. *)
Lemma read_civil_print_as short point lead c :
  civil_printable c = true -> spelling short point lead c ->
  read_civil (print_civil_as short point lead c) = Some c.
Proof.
  intros H (Hpoint & Hshort & Hfrac). unfold civil_printable in H.
  unfold read_civil, print_civil_as.
  assert (0 <= c_hour c < (if short then 10 else 100)) as Hhour
    by (destruct short; [specialize (Hshort eq_refl)|]; lia).
  repeat (first [ rewrite take_digits_put_small by (simpl; lia)
                | rewrite expect_cons
                | rewrite (take_num_put short) by done
                | rewrite (take_point_cons point) by done
                | rewrite (take_frac_put lead) by done
                | rewrite take_sign_put by lia ];
          cbn [mbind option_bind]).
  rewrite decide_True by done. by destruct c.
Qed.

Lemma spelling_plain c : civil_printable c = true -> spelling false "." None c.
Proof.
  intros H. unfold civil_printable in H. split; [by left|]. split; [done|]. simpl. lia.
Qed.

Lemma read_civil_print c : civil_printable c = true -> read_civil (print_civil c) = Some c.
Proof. intros H. by apply (read_civil_print_as false "."%char None c H), spelling_plain. Qed.

(** Every text the layout accepts is a spelling of the civil time read
    from it. *)
Lemma read_civil_spelling value c :
  read_civil value = Some c ->
  exists short point lead,
    value = print_civil_as short point lead c /\ spelling short point lead c /\
    civil_printable c = true.
Proof.
  unfold read_civil. intros H.
  repeat match goal with
  | H : (mbind _ ?m) = Some _ |- _ =>
      let E := fresh "E" in
      destruct m as [[? ?]|] eqn:E; cbn [mbind option_bind] in H; [|done]
  | H : (mbind _ ?m) = Some _ |- _ =>
      let E := fresh "E" in
      destruct m as [?|] eqn:E; cbn [mbind option_bind] in H; [|done]
  end.
  case_decide; [|done]. simplify_eq.
  repeat match goal with
  | E : take_digits _ _ _ = Some _ |- _ => apply take_digits_inv in E as [-> ?]; [|lia]
  | E : expect _ _ = Some _ |- _ => apply expect_inv in E as ->
  | E : take_sign _ = Some _ |- _ => apply take_sign_inv in E as [-> ?]
  | E : take_num _ = Some _ |- _ => apply take_num_inv in E as (short & -> & ?)
  | E : take_point _ = Some _ |- _ => apply take_point_inv in E as (point & -> & ?)
  | E : take_frac _ = Some _ |- _ => apply take_frac_inv in E as (lead & -> & Hfrac)
  end.
  exists short, point, lead. split; [done|].
  pose proof (frac_ok_bound _ _ Hfrac) as Hf.
  unfold civil_printable, spelling. simpl in *.
  split; [split; [done | split; [by destruct short; [lia|] | done]] | destruct short; lia].
Qed.

Lemma read_civil_printable value c : read_civil value = Some c -> civil_printable c = true.
Proof. by intros (? & ? & ? & _ & _ & ?)%read_civil_spelling. Qed.

Lemma Parse_print_as short point lead c :
  civil_printable c = true -> civil_valid c = true -> spelling short point lead c ->
  Parse (print_civil_as short point lead c) = (civil_instant c, None).
Proof. intros Hp Hv Hs. apply Parse_ok; [by apply read_civil_print_as | done]. Qed.

(** [Parse] accepts exactly the spellings of the valid civil times, with
    the instant of the time. *)
Lemma Parse_ok_iff value t :
  Parse value = (t, None) <->
  exists short point lead c,
    value = print_civil_as short point lead c /\ spelling short point lead c /\
    civil_printable c = true /\ civil_valid c = true /\ t = civil_instant c.
Proof.
  split.
  - intros (c & (short & point & lead & -> & ? & ?)%read_civil_spelling & ? & ->)%Parse_ok_inv.
    by exists short, point, lead, c.
  - intros (short & point & lead & c & -> & ? & ? & ? & ->). by apply Parse_print_as.
Qed.

Lemma Parse_print c :
  civil_printable c = true -> civil_valid c = true ->
  Parse (print_civil c) = (civil_instant c, None).
Proof. intros Hp Hv. apply Parse_ok; [by apply read_civil_print | done]. Qed.

(** What [Parse] accepts is the time of a civil time whose canonical
    text it accepts too, with the same result. *)
Lemma Parse_ok_print value t :
  Parse value = (t, None) ->
  exists c, civil_printable c = true /\ civil_valid c = true /\ t = civil_instant c /\
    Parse (print_civil c) = (t, None).
Proof.
  intros (c & Hc%read_civil_printable & Hv & ->)%Parse_ok_inv.
  exists c. repeat split; [done..|]. by apply Parse_print.
Qed.

End print.

(** The timestamp of the sample line of main.go: 22 October 2022, 20:13:42
    at +09:00, that is 11:13:42 UTC. *)
Example Parse_sample :
  Parse "2022-10-22T20:13:42.0000000+09:00" = (mkTime 63802034022000000000, None).
Proof. vm_compute. reflexivity. Qed.

Example Parse_sample_utc :
  fst (Parse "2022-10-22T11:13:42.0000000+00:00") = fst (Parse "2022-10-22T20:13:42.0000000+09:00").
Proof. vm_compute. reflexivity. Qed.

(** The spellings the library reads besides the one of the layout: an
    hour of one digit, a comma before the fraction, a sign in the place
    of the first digit of the fraction. *)
Example Parse_short_hour :
  Parse "2022-10-22T8:13:42.0000000+09:00" = Parse "2022-10-22T08:13:42.0000000+09:00"
  /\ snd (Parse "2022-10-22T8:13:42.0000000+09:00") = None.
Proof. vm_compute. done. Qed.

Example Parse_comma :
  Parse "2022-10-22T20:13:42,0000000+09:00" = Parse "2022-10-22T20:13:42.0000000+09:00".
Proof. vm_compute. reflexivity. Qed.

Example Parse_signed_fraction :
  Parse "2022-10-22T20:13:42.+123456+09:00" = Parse "2022-10-22T20:13:42.0123456+09:00"
  /\ Parse "2022-10-22T20:13:42.-000000+09:00" = Parse "2022-10-22T20:13:42.0000000+09:00"
  /\ snd (Parse "2022-10-22T20:13:42.-000001+09:00") <> None
  /\ snd (Parse "2022-10-22T20:13:42.0123456+09:00") = None.
Proof. vm_compute. done. Qed.

Example Parse_rejects_short_minute : snd (Parse "2022-10-22T20:3:42.0000000+09:00") <> None.
Proof. vm_compute. discriminate. Qed.

Example Parse_rejects_Z : snd (Parse "2022-10-22T20:13:42.0000000Z") <> None.
Proof. vm_compute. discriminate. Qed.

Example Parse_rejects_day : snd (Parse "2022-02-30T20:13:42.0000000+09:00") <> None.
Proof. vm_compute. discriminate. Qed.
