(* ===== verification/Types.v ===== *)
(** * Types: the data of main.go

    The struct types of main.go as records with the source's field names
    ([ConfigStruct], [Secret], [Log], [PapagoResponse]), their zero
    values, the constant [papagoAPIEndpoint], and the HTTP request that
    [translate] builds (method, URL, body and the three headers it
    sets). *)

From stdpp Require Import base list strings.
From S2P Require Import Prelude GoTime.

(** main.go 49-57.  The defaults of the env tags are the values
    [parseEnv] leaves in a field whose variable is not set. *)
Record ConfigStruct : Type := mkConfig {
  LogDirectory : string;
  TargetChatCodes : list string;
  SecretFileName : string;
  SourceLanguage : string;
  TargetLanguage : string;
  TranslateActorName : bool
}.

Definition defaultConfig : ConfigStruct :=
  mkConfig "" [] "secret.json" "ja" "ko" false.

(** main.go 59-62. *)
Record Secret : Type := mkSecret {
  ClientId : string;
  ClientSecret : string
}.

(** main.go 174-179. *)
Record Log : Type := mkLog {
  Timestamp : Time;
  LogCode : string;
  ActorName : string;
  Content : string
}.

(** [Log{}]. *)
Definition zeroLog : Log := mkLog zeroTime "" "" "".

(** main.go 211-219: the two shapes of an answer share one struct; a field
    that the JSON text does not carry keeps its zero value. *)
Record PapagoResult : Type := mkPapagoResult { TranslatedText : string }.
Record PapagoMessage : Type := mkPapagoMessage { Result : PapagoResult }.
Record PapagoResponse : Type := mkPapagoResponse {
  Message : PapagoMessage;
  ErrorMsg : string;
  ErrorCode : string
}.

Definition zeroPapagoResponse : PapagoResponse :=
  mkPapagoResponse (mkPapagoMessage (mkPapagoResult "")) "" "".

(** main.go 201-203. *)
Definition papagoAPIEndpoint : string := "https://openapi.naver.com/v1/papago/n2mt".

(** What [http.NewRequest] and the three [req.Header.Set] calls of
    [translate] leave in [req] (main.go 236-243). *)
Record Request : Type := mkRequest {
  Method : string;
  URL : string;
  Body : string;
  Header : list (string * string)
}.

#[global] Instance Secret_eq_dec : EqDecision Secret.
Proof. solve_decision. Defined.
#[global] Instance Log_eq_dec : EqDecision Log.
Proof. solve_decision. Defined.
#[global] Instance PapagoResult_eq_dec : EqDecision PapagoResult.
Proof. solve_decision. Defined.
#[global] Instance PapagoMessage_eq_dec : EqDecision PapagoMessage.
Proof. solve_decision. Defined.
#[global] Instance PapagoResponse_eq_dec : EqDecision PapagoResponse.
Proof. solve_decision. Defined.
#[global] Instance Request_eq_dec : EqDecision Request.
Proof. solve_decision. Defined.
#[global] Instance ConfigStruct_eq_dec : EqDecision ConfigStruct.
Proof. solve_decision. Defined.
