(* ===== verification/ParseLine.v ===== *)
(** * ParseLine: the line parser of main.go

    [parseLine] (main.go 181-199) splits a log line at every "|", refuses
    a line of fewer than five fields, reads the second field as a
    timestamp and takes the third, fourth and fifth as the chat code, the
    actor and the content.  [print_line] is the specification's inverse:
    the text of a line from its fields.

    The theorems give the result on every input: the three cases of
    [parseLine_Split], the error cases with the zero [Log], the round trip
    with [print_line] and the timestamp written by [print_civil] (what is
    printed is parsed back), the lines that are accepted (the prints with
    a timestamp in one of the spellings of [print_civil_as], which are
    more than the fixed-width format of spec.md), and the independence
    from the fields after the fifth. *)

From stdpp Require Import base list strings.
From Stdlib Require Import Ascii Lia.
From S2P Require Import Prelude GoStrings GoTime Types.

(** ** Definitions *)

(** The separator of [strings.Split(line, "|")]. *)
Definition pipe : ascii := "|"%char.

Definition parseLine (line : string) : Log * option error :=
  let s := Split line pipe in
  if decide (length s < 5) then (zeroLog, Some (InvalidLine line))
  else
    let '(t, err) := Parse (s !!! 1) in
    match err with
    | Some e => (zeroLog, Some e)
    | None => (mkLog t (s !!! 2) (s !!! 3) (s !!! 4), None)
    end.

(** A line as ACT writes it: the fields joined by "|". *)
Definition print_line (seq ts code actor content : string) (rest : list string) : string :=
  Join (seq :: ts :: code :: actor :: content :: rest) (String pipe "").

(** ** The result of [parseLine], by the shape of the split line *)

Section parseLine.
Implicit Types (line seq ts code actor content : string) (rest : list string) (l : Log).

Lemma parseLine_Split line seq ts code actor content rest :
  Split line pipe = seq :: ts :: code :: actor :: content :: rest ->
  parseLine line =
    match Parse ts with
    | (t, None) => (mkLog t code actor content, None)
    | (_, Some e) => (zeroLog, Some e)
    end.
Proof.
  intros E. unfold parseLine. rewrite E.
  rewrite decide_False by (simpl; lia). simpl. by destruct (Parse ts) as [t [e|]].
Qed.

Lemma parseLine_short line :
  (Count line pipe < 4)%nat -> parseLine line = (zeroLog, Some (InvalidLine line)).
Proof.
  intros H. unfold parseLine. rewrite Split_length. by rewrite decide_True by lia.
Qed.

Lemma Split_five line :
  (4 <= Count line pipe)%nat ->
  exists seq ts code actor content rest,
    Split line pipe = seq :: ts :: code :: actor :: content :: rest.
Proof.
  intros H. pose proof (Split_length pipe line) as Hl.
  destruct (Split line pipe) as [|a [|b [|c [|d [|e r]]]]]; simpl in Hl; try lia.
  naive_solver.
Qed.

Lemma parseLine_error_zero line l e : parseLine line = (l, Some e) -> l = zeroLog.
Proof.
  unfold parseLine. case_decide; [naive_solver|].
  destruct (Parse _) as [t [e'|]]; naive_solver.
Qed.

Lemma parseLine_ok_inv line l :
  parseLine line = (l, None) ->
  exists seq ts rest,
    Split line pipe = seq :: ts :: LogCode l :: ActorName l :: Content l :: rest /\
    Parse ts = (Timestamp l, None).
Proof.
  intros H. destruct (decide (Count line pipe < 4)%nat) as [Hc|Hc].
  { rewrite parseLine_short in H by done. naive_solver. }
  destruct (Split_five line) as (seq & ts & code & actor & content & rest & E); [lia|].
  rewrite (parseLine_Split _ _ _ _ _ _ _ E) in H.
  destruct (Parse ts) as [t [e|]] eqn:EP; simplify_eq. simpl. eauto.
Qed.

Lemma Split_print_line seq ts code actor content rest :
  Forall (sep_free pipe) (seq :: ts :: code :: actor :: content :: rest) ->
  Split (print_line seq ts code actor content rest) pipe
  = seq :: ts :: code :: actor :: content :: rest.
Proof. intros H. by apply Split_Join. Qed.

(** A line printed with a timestamp that [Parse] accepts. *)
Lemma parseLine_print_line_ts seq ts code actor content rest t :
  Forall (sep_free pipe) (seq :: ts :: code :: actor :: content :: rest) ->
  Parse ts = (t, None) ->
  parseLine (print_line seq ts code actor content rest) = (mkLog t code actor content, None).
Proof.
  intros Hfree Hts. rewrite (parseLine_Split _ seq ts code actor content rest).
  - by rewrite Hts.
  - by apply Split_print_line.
Qed.

(** The text of a timestamp holds no "|". *)
Lemma digit_char_pipe d : digit_char d <> pipe.
Proof. unfold digit_char. by repeat case_match. Qed.

Lemma Count_put_digits n v s : Count (put_digits n v s) pipe = Count s pipe.
Proof.
  induction n as [|n IH]; [done|]. cbn [put_digits Count].
  by rewrite decide_False, IH by apply digit_char_pipe.
Qed.

Lemma print_civil_sep_free c : sep_free pipe (print_civil c).
Proof.
  unfold sep_free, print_civil.
  repeat (rewrite Count_put_digits; cbn [Count]; rewrite ?decide_False by (by destruct (c_sign c))).
  done.
Qed.

Lemma print_civil_as_sep_free short point lead c :
  spelling short point lead c -> sep_free pipe (print_civil_as short point lead c).
Proof.
  intros (Hpoint & _ & Hfrac). unfold sep_free, print_civil_as, put_frac.
  assert (point <> pipe) as Hp by (by destruct Hpoint as [-> | ->]).
  destruct lead as [ch|];
    [assert (ch <> pipe) as Hl by (by destruct Hfrac as [[-> _] | [-> _]])|];
    repeat (rewrite Count_put_digits; cbn [Count];
            rewrite ?decide_False by (done || by destruct (c_sign c)));
    done.
Qed.

(** A line printed with a timestamp in any spelling [Parse] reads. *)
Lemma parseLine_print_line_as seq short point lead c code actor content rest :
  Forall (sep_free pipe) (seq :: code :: actor :: content :: rest) ->
  civil_printable c = true -> civil_valid c = true -> spelling short point lead c ->
  parseLine (print_line seq (print_civil_as short point lead c) code actor content rest)
  = (mkLog (civil_instant c) code actor content, None).
Proof.
  intros [Hs Hfree]%Forall_cons Hp Hv Hsp. apply parseLine_print_line_ts.
  - apply Forall_cons; split; [done|].
    apply Forall_cons; split; [by apply print_civil_as_sep_free | done].
  - by apply Parse_print_as.
Qed.

(** What [parseLine] accepts: the line is the print of the fields of the
    [Log] after a sequence number and a spelling of a valid time. *)
Lemma parseLine_ok_print line l :
  parseLine line = (l, None) ->
  exists seq short point lead c rest,
    line = print_line seq (print_civil_as short point lead c) (LogCode l) (ActorName l)
             (Content l) rest /\
    Forall (sep_free pipe) (seq :: LogCode l :: ActorName l :: Content l :: rest) /\
    spelling short point lead c /\
    civil_printable c = true /\ civil_valid c = true /\ Timestamp l = civil_instant c.
Proof.
  intros (seq & ts & rest & E & HP)%parseLine_ok_inv.
  apply Parse_ok_iff in HP as (short & point & lead & c & -> & Hsp & Hp & Hv & Ht).
  pose proof (Split_all_sep_free pipe line) as H. rewrite E in H.
  apply Forall_cons in H as [Hseq [_ H]%Forall_cons].
  exists seq, short, point, lead, c, rest.
  split; [unfold print_line; by rewrite <- E, Join_Split|].
  split; [by apply Forall_cons | done].
Qed.

End parseLine.

#[export] Hint Resolve parseLine_error_zero : go.

(** ** Properties *)

(** C26 (round trip).  A line printed from five fields that hold no "|",
    with a timestamp written in the layout from a valid time, and any
    further fields, is parsed back to exactly these fields: the sequence
    number, the checksum and what follows are dropped, the timestamp is
    the instant of the time written. *)
Theorem parseLine_print_line seq c code actor content rest :
  Forall (sep_free pipe) (seq :: code :: actor :: content :: rest) ->
  civil_printable c = true -> civil_valid c = true ->
  parseLine (print_line seq (print_civil c) code actor content rest)
  = (mkLog (civil_instant c) code actor content, None).
Proof.
  intros [Hs Hfree]%Forall_cons Hp Hv. apply parseLine_print_line_ts.
  - apply Forall_cons; split; [done|].
    apply Forall_cons; split; [apply print_civil_sep_free | done].
  - by apply Parse_print.
Qed.

Lemma parseLine_print_line_witness :
  parseLine (print_line "00" (print_civil (mkCivil 2022 10 22 20 13 42 0 1 9 0)) "003D" "Name"
               "Hello there." ["abc123"])
  = (mkLog (civil_instant (mkCivil 2022 10 22 20 13 42 0 1 9 0)) "003D" "Name" "Hello there.",
     None).
Proof.
  apply parseLine_print_line; [|vm_compute; reflexivity..].
  repeat constructor; vm_compute; reflexivity.
Defined.

(** C27 (error).  [parseLine] reports "invalid line" exactly for the lines
    with fewer than five fields, that is with fewer than four "|"; every
    other error comes from the timestamp. *)
Theorem parseLine_InvalidLine_iff line :
  snd (parseLine line) = Some (InvalidLine line) <-> Count line pipe < 4.
Proof.
  split; [|intros H; by rewrite parseLine_short].
  intros H. destruct (decide (Count line pipe < 4)) as [|Hc]; [done|exfalso].
  destruct (Split_five line) as (seq & ts & code & actor & content & rest & E); [lia|].
  rewrite (parseLine_Split _ _ _ _ _ _ _ E) in H.
  destruct (Parse ts) as [t [e|]] eqn:EP; simpl in H; [|done].
  apply Parse_error_value in EP. congruence.
Qed.

(** The fields after the fifth (the checksum and any
    more) have no influence on the result. *)
Theorem parseLine_ignores_rest seq ts code actor content rest1 rest2 :
  Forall (sep_free pipe) [seq; ts; code; actor; content] ->
  Forall (sep_free pipe) rest1 -> Forall (sep_free pipe) rest2 ->
  parseLine (print_line seq ts code actor content rest1)
  = parseLine (print_line seq ts code actor content rest2).
Proof.
  intros H5 H1 H2.
  rewrite (parseLine_Split _ seq ts code actor content rest1),
          (parseLine_Split _ seq ts code actor content rest2); [done|..];
    apply Split_print_line; by apply (Forall_app_2 _ [_; _; _; _; _]).
Qed.

Lemma parseLine_ignores_rest_witness :
  parseLine (print_line "00" "2022-10-22T20:13:42.0000000+09:00" "003D" "Name" "Hi" ["abc"; "x"])
  = parseLine (print_line "00" "2022-10-22T20:13:42.0000000+09:00" "003D" "Name" "Hi" []).
Proof.
  apply parseLine_ignores_rest; repeat constructor; vm_compute; reflexivity.
Defined.

(** When the second field is not a timestamp of the layout,
    [parseLine] returns the zero [Log] and the error of [time.Parse],
    whatever the other fields are. *)
Theorem parseLine_bad_timestamp line seq ts code actor content rest e :
  Split line pipe = seq :: ts :: code :: actor :: content :: rest ->
  snd (Parse ts) = Some e ->
  parseLine line = (zeroLog, Some e).
Proof.
  intros E H. rewrite (parseLine_Split _ _ _ _ _ _ _ E).
  destruct (Parse ts) as [t [e'|]]; simpl in H; by simplify_eq.
Qed.

Lemma parseLine_bad_timestamp_witness :
  parseLine "00|yesterday|003D|Name|Hello|abc"
  = (zeroLog, Some (Foreign TimeParse "yesterday")).
Proof.
  apply (parseLine_bad_timestamp _ "00" "yesterday" "003D" "Name" "Hello" ["abc"]);
    vm_compute; reflexivity.
Defined.

(** C29 (type).  A parsed [Log] is well formed.  Its fields never hold a
    "|": content with a "|" in it reaches the translator cut at the first
    one.  And the line is the print of these fields after a sequence
    number and a timestamp, and the timestamp is a spelling [time.Parse]
    reads of a valid civil time (the hour in two digits or in one, "." or
    "," before the fraction, seven digits of fraction or a sign and six)
    whose instant is the timestamp of the [Log].  The line with the same
    fields and the timestamp in the spelling of the layout is a line of
    spec.md's format and is parsed to the same [Log]. *)
Theorem parseLine_fields_sep_free line l :
  parseLine line = (l, None) ->
  sep_free pipe (LogCode l) /\ sep_free pipe (ActorName l) /\ sep_free pipe (Content l) /\
  exists seq short point lead c rest,
    line = print_line seq (print_civil_as short point lead c) (LogCode l) (ActorName l)
             (Content l) rest /\
    spelling short point lead c /\
    civil_printable c = true /\ civil_valid c = true /\ Timestamp l = civil_instant c /\
    parseLine (print_line seq (print_civil c) (LogCode l) (ActorName l) (Content l) rest)
    = (l, None).
Proof.
  intros (seq & short & point & lead & c & rest & E & Hfree & Hsp & Hp & Hv & Ht)%parseLine_ok_print.
  pose proof Hfree as H. rewrite !Forall_cons in H. destruct H as (_ & ? & ? & ? & _).
  repeat (split; [done|]). exists seq, short, point, lead, c, rest. repeat (split; [done|]).
  rewrite (parseLine_print_line_as seq false "." None c) by (done || by apply spelling_plain).
  destruct l; simpl in *; by subst.
Qed.

Lemma parseLine_fields_sep_free_witness :
  let line := "00|2022-10-22T8:13:42,+000000+09:00|003D|Name|a|b|c" in
  let l := fst (parseLine line) in
  sep_free pipe (LogCode l) /\ sep_free pipe (ActorName l) /\ sep_free pipe (Content l) /\
  exists seq short point lead c rest,
    line = print_line seq (print_civil_as short point lead c) (LogCode l) (ActorName l)
             (Content l) rest /\
    spelling short point lead c /\
    civil_printable c = true /\ civil_valid c = true /\ Timestamp l = civil_instant c /\
    parseLine (print_line seq (print_civil c) (LogCode l) (ActorName l) (Content l) rest)
    = (l, None).
Proof.
  apply (parseLine_fields_sep_free "00|2022-10-22T8:13:42,+000000+09:00|003D|Name|a|b|c").
  vm_compute. reflexivity.
Defined.

(** C30 (functional).  [parseLine] takes more than the format of spec.md:
    a line whose timestamp has the hour in one digit, a comma before the
    fraction or a sign in the place of the first digit of the fraction
    is parsed, to the [Log] of the same line with the timestamp in the
    fixed-width spelling. *)
Theorem parseLine_spellings seq short point lead c code actor content rest :
  Forall (sep_free pipe) (seq :: code :: actor :: content :: rest) ->
  civil_printable c = true -> civil_valid c = true -> spelling short point lead c ->
  parseLine (print_line seq (print_civil_as short point lead c) code actor content rest)
  = (mkLog (civil_instant c) code actor content, None)
  /\ parseLine (print_line seq (print_civil_as short point lead c) code actor content rest)
     = parseLine (print_line seq (print_civil c) code actor content rest).
Proof.
  intros Hfree Hp Hv Hsp.
  rewrite (parseLine_print_line_as seq short point lead c) by done.
  split; [done|]. symmetry.
  apply (parseLine_print_line_as seq false "." None c); [done..|]. by apply spelling_plain.
Qed.

Lemma parseLine_spellings_witness :
  parseLine "00|2022-10-22T8:13:42,+123456+09:00|003D|Name|Hello there.|abc123"
  = (mkLog (civil_instant (mkCivil 2022 10 22 8 13 42 123456 1 9 0)) "003D" "Name"
       "Hello there.", None)
  /\ parseLine "00|2022-10-22T8:13:42,+123456+09:00|003D|Name|Hello there.|abc123"
     = parseLine "00|2022-10-22T08:13:42.0123456+09:00|003D|Name|Hello there.|abc123".
Proof.
  apply (parseLine_spellings "00" true "," (Some "+"%char)
           (mkCivil 2022 10 22 8 13 42 123456 1 9 0) "003D" "Name" "Hello there." ["abc123"]).
  - repeat constructor; vm_compute; reflexivity.
  - vm_compute; reflexivity.
  - vm_compute; reflexivity.
  - split; [by right|]. split; [intros _; vm_compute; reflexivity|].
    left. split; [reflexivity | vm_compute; split; [discriminate | reflexivity]].
Defined.
