(* ===== verification/Translate.v ===== *)
(** * Translate: the translator of main.go, its cache and its credentials

    - [State]: the two process-wide variables of main.go, [secretIdx]
      (line 75) and [translateCache] (lines 221-223), and three traces
      that make the effects observable: the requests handed to
      [httpClient.Do] ([sent]), the lines logged through logrus
      ([logged]) and the texts printed ([stdout]).
    - [Remote]: the outside world, as far as [translate] meets it:
      [http.NewRequest], [httpClient.Do] followed by [io.ReadAll], and
      [json.Unmarshal].  The answer to a request may depend on every
      request sent before.
    - [translate_fuel] follows [translate] (main.go 225-274) statement by
      statement; [translate] gives it the fuel that is always enough.
    - [Spec]: the contract of the translator, a scan of the credentials
      that remain, and the refinement theorem.

    Theorems: termination, refinement, the result on every branch, the
    invariants of the state (the relation [extends]), the accounting of
    requests against credentials, and the behaviour of the cache. *)

From stdpp Require Import base list strings gmap pretty.
From Stdlib Require Import Ascii Lia.
From S2P Require Import Prelude GoStrings GoTime Types.

(** ** The outside world *)

(** What comes back from [httpClient.Do(req)] and [io.ReadAll(resp.Body)]
    (main.go 245-254): a failure of the first (no connection, the 10 s
    timeout), a failure of the second, or the bytes of the body. *)
Inductive RoundTrip : Type :=
| DoFailed (msg : string)
| ReadFailed (msg : string)
| Replied (body : string).

Class Remote : Type := {
  (** [http.NewRequest(method, url, body)]: the message of its error *)
  new_request : string -> string -> string -> option string;
  (** the requests sent so far, oldest first, and the request *)
  round_trip : list Request -> Request -> RoundTrip;
  (** [json.Unmarshal(b, &papagoResp)] on a zero [PapagoResponse] *)
  json_unmarshal : string -> PapagoResponse + string
}.

(** ** The state of the process *)

Inductive LogEntry : Type :=
| Debugf (msg : string)
| Infof (msg : string)
| Errorf (e : error) (msg : string).

Record State : Type := mkState {
  secretIdx : nat;
  translateCache : gmap string string;
  sent : list Request;
  logged : list LogEntry;
  stdout : list string
}.

(** main.go 75 and 221-223: the cursor at 0, an empty cache. *)
Definition initState : State := mkState 0 ∅ [] [] [].

Definition log (e : LogEntry) (st : State) : State :=
  mkState (secretIdx st) (translateCache st) (sent st) (logged st ++ [e]) (stdout st).

(** The levels of logrus, the most severe first.  main.go never sets the
    level of the standard logger, which is [InfoLevel]: what is logged
    below it is not written. *)
Inductive Level : Type :=
| PanicLevel | FatalLevel | ErrorLevel | WarnLevel | InfoLevel | DebugLevel | TraceLevel.

Definition severity (l : Level) : nat :=
  match l with
  | PanicLevel => 0 | FatalLevel => 1 | ErrorLevel => 2 | WarnLevel => 3
  | InfoLevel => 4 | DebugLevel => 5 | TraceLevel => 6
  end.

Definition level_of (e : LogEntry) : Level :=
  match e with
  | Debugf _ => DebugLevel
  | Infof _ => InfoLevel
  | Errorf _ _ => ErrorLevel
  end.

Definition standard_level : Level := InfoLevel.

Definition written (e : LogEntry) : bool :=
  bool_decide (severity (level_of e) <= severity standard_level).

(** What the process has written to its standard error. *)
Definition stderr (st : State) : list LogEntry :=
  filter (fun e => written e = true) (logged st).

Definition print (text : string) (st : State) : State :=
  mkState (secretIdx st) (translateCache st) (sent st) (logged st) (stdout st ++ [text]).

Definition record_request (req : Request) (st : State) : State :=
  mkState (secretIdx st) (translateCache st) (sent st ++ [req]) (logged st) (stdout st).

(** [translateCache[content]] (main.go 230) and
    [translateCache[content] = result] (main.go 271). *)
Definition cache_lookup (content : string) (st : State) : option string :=
  translateCache st !! content.

Definition cache_store (content result : string) (st : State) : State :=
  mkState (secretIdx st) (<[content := result]> (translateCache st))
          (sent st) (logged st) (stdout st).

(** [secrets[*secretIdx]] (main.go 240). *)
Definition current (secrets : list Secret) (st : State) : option Secret :=
  secrets !! secretIdx st.

(** [*secretIdx++] and the line logged after it (main.go 262-263). *)
Definition rotate (st : State) : State :=
  log (Infof ("query limit exceeded. rotating secret... (idx "
              +:+ pretty (S (secretIdx st)) +:+ ")"))
      (mkState (S (secretIdx st)) (translateCache st) (sent st) (logged st) (stdout st)).

(** One state extends another when the cursor has not moved back, the
    cache has kept its entries and the traces have only grown. *)
Record extends (st st' : State) : Prop := mkExtends {
  ext_idx : secretIdx st <= secretIdx st';
  ext_cache : translateCache st ⊆ translateCache st';
  ext_sent : sent st `prefix_of` sent st';
  ext_logged : logged st `prefix_of` logged st';
  ext_stdout : stdout st `prefix_of` stdout st'
}.

(** The invariant of the process for the credentials [secrets]: the state
    extends, and a cursor within [0, len(secrets)] stays within. *)
Definition evolves (secrets : list Secret) (st st' : State) : Prop :=
  extends st st' /\ (secretIdx st <= length secrets -> secretIdx st' <= length secrets).

(** ** The translator *)

(** The body of the POST, [fmt.Sprintf] of main.go 235.  The three values
    are written as they are. *)
Definition request_body (cfg : ConfigStruct) (content : string) : string :=
  "source=" +:+ SourceLanguage cfg +:+ "&target=" +:+ TargetLanguage cfg
  +:+ "&text=" +:+ content.

(** main.go 236-243. *)
Definition build_request (data : string) (secret : Secret) : Request :=
  mkRequest "POST" papagoAPIEndpoint data
    [("Content-Type", "application/x-www-form-urlencoded; charset=UTF-8");
     ("X-Naver-Client-Id", ClientId secret);
     ("X-Naver-Client-Secret", ClientSecret secret)].

(** The request for [content] under [secret]. *)
Definition request_for (cfg : ConfigStruct) (content : string) (secret : Secret) : Request :=
  build_request (request_body cfg content) secret.

(** What [translate] makes of an answer (main.go 245-269). *)
Inductive answer : Type :=
| Failure (e : error)
| Quota
| Text (result : string).

Section translator.
Context {remote : Remote} (cfg : ConfigStruct).

Definition classify (rt : RoundTrip) : answer :=
  match rt with
  | DoFailed msg => Failure (Foreign ClientDo msg)
  | ReadFailed msg => Failure (Foreign ReadAll msg)
  | Replied b =>
      match json_unmarshal b with
      | inr msg => Failure (Foreign JsonUnmarshal msg)
      | inl papagoResp =>
          if decide (ErrorMsg papagoResp <> "") then
            if Contains (ErrorMsg papagoResp) "exceeded" then Quota
            else Failure (PapagoError (ErrorMsg papagoResp))
          else Text (TranslatedText (Result (Message papagoResp)))
      end
  end.

Fixpoint translate_fuel (fuel : nat) (secrets : list Secret) (st : State)
    (content : string) : outcome State (string * option error) :=
  match fuel with
  | O => OutOfFuel
  | S fuel' =>
      if decide (content = "") then Returned st ("", None)
      else
        match cache_lookup content st with
        | Some translated =>
            Returned (log (Debugf ("using translation cache: " +:+ content)) st)
                     (translated, None)
        | None =>
            let data := request_body cfg content in
            match new_request "POST" papagoAPIEndpoint data with
            | Some msg => Returned st ("", Some (Foreign NewRequest msg))
            | None =>
                match current secrets st with
                | None => Panicked st (IndexOutOfRange (secretIdx st) (length secrets))
                | Some secret =>
                    let req := build_request data secret in
                    let st1 := record_request req st in
                    match classify (round_trip (sent st) req) with
                    | Failure e => Returned st1 ("", Some e)
                    | Quota => translate_fuel fuel' secrets (rotate st1) content
                    | Text result =>
                        Returned (cache_store content result st1) (result, None)
                    end
                end
            end
        end
  end.

(** Every recursive call has moved the cursor by one, and a cursor at
    [length secrets] panics before it recurses: one call per remaining
    credential and one more. *)
Definition translate (secrets : list Secret) (st : State) (content : string)
    : outcome State (string * option error) :=
  translate_fuel (S (length secrets - secretIdx st)) secrets st content.

End translator.

(** ** The contract of the translator

    The translator returns the empty text for the empty text and the
    cached text for a cached one.  Otherwise it asks the service with the
    credentials from the cursor on, one after the other, until an answer
    is not a quota error; it stores a translation, returns a failure, and
    panics when no credential is left. *)
Module Spec.
Section spec.
Context {remote : Remote} (cfg : ConfigStruct).

Fixpoint scan (content : string) (total : nat) (remaining : list Secret) (st : State)
    : outcome State (string * option error) :=
  match remaining with
  | [] => Panicked st (IndexOutOfRange (secretIdx st) total)
  | secret :: rest =>
      let req := request_for cfg content secret in
      let st1 := record_request req st in
      match classify (round_trip (sent st) req) with
      | Failure e => Returned st1 ("", Some e)
      | Quota => scan content total rest (rotate st1)
      | Text result => Returned (cache_store content result st1) (result, None)
      end
  end.

Definition contract (secrets : list Secret) (st : State) (content : string)
    : outcome State (string * option error) :=
  if decide (content = "") then Returned st ("", None)
  else
    match translateCache st !! content with
    | Some translated =>
        Returned (log (Debugf ("using translation cache: " +:+ content)) st)
                 (translated, None)
    | None =>
        match new_request "POST" papagoAPIEndpoint (request_body cfg content) with
        | Some msg => Returned st ("", Some (Foreign NewRequest msg))
        | None => scan content (length secrets) (drop (secretIdx st) secrets) st
        end
    end.

(** The state after the credentials [used] have all been refused for
    quota: one request and one rotation each. *)
Fixpoint rotations (content : string) (used : list Secret) (st : State) : State :=
  match used with
  | [] => st
  | secret :: used' =>
      rotations content used' (rotate (record_request (request_for cfg content secret) st))
  end.

(** The service refuses each of [used] for quota, asked in this order
    from [st]. *)
Fixpoint all_quota (content : string) (used : list Secret) (st : State) : bool :=
  match used with
  | [] => true
  | secret :: used' =>
      let req := request_for cfg content secret in
      match classify (round_trip (sent st) req) with
      | Quota => all_quota content used' (rotate (record_request req st))
      | _ => false
      end
  end.

End spec.
End Spec.

(** ** A scripted service, for the witnesses

    The credential decides the answer: the client id "spent" is refused
    for quota, "down" does not connect, "odd" gets an answer that is not
    JSON, "banned" a provider error; any other gets the text of the body
    between brackets as the translation, unless the body ends with a
    question mark: such a request times out. *)
Module Demo.

Definition client_id (req : Request) : string :=
  match Header req !! 1 with
  | Some (_, id) => id
  | None => ""
  end.

#[export] Instance remote : Remote := {
  new_request _ _ _ := None;
  round_trip _ req :=
    if decide (client_id req = "spent") then Replied "quota"
    else if decide (client_id req = "down") then DoFailed "dial tcp: i/o timeout"
    else if decide (client_id req = "odd") then Replied "<html>"
    else if decide (client_id req = "banned") then Replied "auth"
    else if HasSuffix (Body req) "?" then DoFailed "context deadline exceeded"
    else Replied (Body req);
  json_unmarshal b :=
    if decide (b = "quota") then
      inl (mkPapagoResponse (mkPapagoMessage (mkPapagoResult ""))
             "Query limit exceeded." "010")
    else if decide (b = "auth") then
      inl (mkPapagoResponse (mkPapagoMessage (mkPapagoResult ""))
             "Authentication failed." "024")
    else if decide (b = "<html>") then inr "invalid character '<'"
    else inl (mkPapagoResponse (mkPapagoMessage (mkPapagoResult ("[" +:+ b +:+ "]"))) "" "")
}.

Definition cfg : ConfigStruct := mkConfig "logs" ["003D"; "000A"] "secret.json" "ja" "ko" false.

Definition spent1 : Secret := mkSecret "spent" "s1".
Definition spent2 : Secret := mkSecret "spent" "s2".
Definition fresh : Secret := mkSecret "fresh" "s3".
Definition down : Secret := mkSecret "down" "s4".
Definition banned : Secret := mkSecret "banned" "s5".
Definition secrets : list Secret := [spent1; spent2; fresh].

(** A state in which "hello" is cached. *)
Definition warm : State := cache_store "hello" "annyeong" initState.

(** The translation the service gives for [content]. *)
Definition reply (content : string) : string := "[" +:+ request_body cfg content +:+ "]".

(** The state after [content] was translated with [secrets] from
    [initState]: two rotations, then the answer to the third request. *)
Definition served (content : string) : State :=
  cache_store content (reply content)
    (record_request (request_for cfg content fresh)
       (rotate (record_request (request_for cfg content spent2)
          (rotate (record_request (request_for cfg content spent1) initState))))).

End Demo.

(** ** States and their extension *)

Section state_lemmas.
Implicit Types (st : State) (e : LogEntry) (req : Request).

#[global] Instance extends_preorder : PreOrder extends.
Proof.
  split.
  - intros st. by split.
  - intros st1 st2 st3 [] []. split; by etrans.
Qed.

(** What is logged at the level debug is not written; what is logged at
    the levels info and error is. *)
Lemma stderr_log e st :
  stderr (log e st) = stderr st ++ (if written e then [e] else []).
Proof.
  unfold stderr. simpl. rewrite filter_app. f_equal.
  destruct (written e) eqn:E.
  - by rewrite filter_cons_True.
  - rewrite filter_cons_False; [done | by rewrite E].
Qed.

Lemma stderr_debug msg st : stderr (log (Debugf msg) st) = stderr st.
Proof. by rewrite stderr_log, app_nil_r. Qed.

Lemma extends_log e st : extends st (log e st).
Proof. split; simpl; try done. by apply prefix_app_r. Qed.

Lemma extends_print text st : extends st (print text st).
Proof. split; simpl; try done. by apply prefix_app_r. Qed.

Lemma extends_record_request req st : extends st (record_request req st).
Proof. split; simpl; try done. by apply prefix_app_r. Qed.

Lemma extends_rotate st : extends st (rotate st).
Proof. split; simpl; try done; [lia | by apply prefix_app_r]. Qed.

Lemma extends_cache_store content result st :
  cache_lookup content st = None -> extends st (cache_store content result st).
Proof. intros H. split; simpl; try done. by apply insert_subseteq. Qed.

(** An entry of the cache is still there in every extension. *)
Lemma extends_cache_lookup st st' content translated :
  extends st st' -> cache_lookup content st = Some translated ->
  cache_lookup content st' = Some translated.
Proof. intros [_ Hc _ _ _] H. unfold cache_lookup in *. by eapply lookup_weaken. Qed.

#[global] Instance evolves_preorder secrets : PreOrder (evolves secrets).
Proof.
  split.
  - intros st. by split.
  - intros st1 st2 st3 [? ?] [? ?]. split; [by etrans | auto].
Qed.

(** A step that leaves the cursor where it is keeps the invariant. *)
Lemma evolves_same_idx secrets st st' :
  extends st st' -> secretIdx st' = secretIdx st -> evolves secrets st st'.
Proof. intros ? E. split; [done|]. by rewrite E. Qed.

Lemma evolves_log secrets e st : evolves secrets st (log e st).
Proof. by apply evolves_same_idx; [apply extends_log|]. Qed.

Lemma evolves_print secrets text st : evolves secrets st (print text st).
Proof. by apply evolves_same_idx; [apply extends_print|]. Qed.

End state_lemmas.

#[export] Hint Resolve extends_log extends_print extends_record_request
  extends_rotate extends_cache_store evolves_log evolves_print : go.

(** ** The scan of the credentials *)

Section scan_lemmas.
Context {remote : Remote} (cfg : ConfigStruct).
Implicit Types (st : State) (content : string) (total : nat).
Implicit Types (used rest remaining : list Secret).

Lemma rotations_app content used rest st :
  Spec.rotations cfg content (used ++ rest) st
  = Spec.rotations cfg content rest (Spec.rotations cfg content used st).
Proof. revert st. induction used as [|secret used IH]; intros st; simpl; auto. Qed.

Lemma rotations_idx content used st :
  secretIdx (Spec.rotations cfg content used st) = secretIdx st + length used.
Proof.
  revert st. induction used as [|secret used IH]; intros st; simpl; [lia|].
  rewrite IH. simpl. lia.
Qed.

Lemma rotations_sent content used st :
  sent (Spec.rotations cfg content used st)
  = sent st ++ map (request_for cfg content) used.
Proof.
  revert st. induction used as [|secret used IH]; intros st; simpl.
  - by rewrite app_nil_r.
  - rewrite IH. simpl. by rewrite <- app_assoc.
Qed.

Lemma rotations_cache content used st :
  translateCache (Spec.rotations cfg content used st) = translateCache st.
Proof. revert st. induction used as [|secret used IH]; intros st; simpl; [done|]. by rewrite IH. Qed.

Lemma rotations_stdout content used st :
  stdout (Spec.rotations cfg content used st) = stdout st.
Proof. revert st. induction used as [|secret used IH]; intros st; simpl; [done|]. by rewrite IH. Qed.

Lemma rotations_extends content used st : extends st (Spec.rotations cfg content used st).
Proof.
  revert st. induction used as [|secret used IH]; intros st; simpl; [done|].
  etrans; [|apply IH]. etrans; [apply extends_record_request | apply extends_rotate].
Qed.

(** The scan skips the credentials that are refused for quota. *)
Lemma scan_all_quota content total used rest st :
  Spec.all_quota cfg content used st = true ->
  Spec.scan cfg content total (used ++ rest) st
  = Spec.scan cfg content total rest (Spec.rotations cfg content used st).
Proof.
  revert st. induction used as [|secret used IH]; intros st H; simpl in *; [done|].
  destruct (classify _); try done. by apply IH.
Qed.

(** Where a scan stops: after a prefix [used] of the credentials was
    refused for quota, on the first credential with another answer or at
    the end of the list. *)
Lemma scan_stops content total remaining st :
  exists used rest,
    remaining = used ++ rest /\ Spec.all_quota cfg content used st = true /\
    match rest with
    | [] => True
    | secret :: _ =>
        classify (round_trip (sent (Spec.rotations cfg content used st))
                             (request_for cfg content secret)) <> Quota
    end.
Proof.
  revert st. induction remaining as [|secret remaining IH]; intros st.
  { by exists [], []. }
  destruct (classify (round_trip (sent st) (request_for cfg content secret))) eqn:E.
  - exists [], (secret :: remaining). simpl. by rewrite E.
  - destruct (IH (rotate (record_request (request_for cfg content secret) st)))
      as (used & rest & -> & Hq & Hrest).
    exists (secret :: used), rest. simpl. by rewrite E.
  - exists [], (secret :: remaining). simpl. by rewrite E.
Qed.

Lemma scan_terminates content total remaining st :
  terminates (Spec.scan cfg content total remaining st) = true.
Proof.
  revert st. induction remaining as [|secret remaining IH]; intros st; simpl; [done|].
  by destruct (classify _).
Qed.

(** The final state of a scan, in terms of the number [k] of credentials
    it has tried. *)
Lemma scan_final content total remaining st st' :
  final (Spec.scan cfg content total remaining st) = Some st' ->
  exists k, k <= length remaining /\
    sent st' = sent st ++ map (request_for cfg content) (take k remaining) /\
    stdout st' = stdout st /\
    if returned (Spec.scan cfg content total remaining st)
    then 0 < k /\ S (secretIdx st') = secretIdx st + k
    else k = length remaining /\ secretIdx st' = secretIdx st + k.
Proof.
  revert st. induction remaining as [|secret remaining IH]; intros st; simpl.
  - intros [= <-]. exists 0. simpl. rewrite app_nil_r. repeat split; lia.
  - destruct (classify _) eqn:E; simpl.
    + intros [= <-]. exists 1. simpl. repeat split; lia.
    + intros (k & Hk & Hs & Ho & Hi)%IH. exists (S k). simpl in *.
      rewrite Hs, <- app_assoc. split; [lia|]. split; [done|]. split; [done|].
      destruct (returned _); lia.
    + intros [= <-]. exists 1. simpl. repeat split; lia.
Qed.

(** The cache after a scan that started on a miss. *)
Lemma scan_cache content total remaining st :
  match Spec.scan cfg content total remaining st with
  | Returned st' (text, None) =>
      translateCache st' = <[content := text]> (translateCache st)
  | Returned st' (text, Some _) => text = "" /\ translateCache st' = translateCache st
  | Panicked st' _ => translateCache st' = translateCache st
  | OutOfFuel => False
  end.
Proof.
  revert st. induction remaining as [|secret remaining IH]; intros st; simpl; [done|].
  destruct (classify _); simpl; [done| |done].
  specialize (IH (rotate (record_request (request_for cfg content secret) st))).
  by destruct (Spec.scan _ _ _ _ _) as [? [? [?|]]| |].
Qed.

Lemma scan_extends content total remaining st st' :
  cache_lookup content st = None ->
  final (Spec.scan cfg content total remaining st) = Some st' -> extends st st'.
Proof.
  revert st. induction remaining as [|secret remaining IH]; intros st Hmiss; simpl.
  - by intros [= <-].
  - destruct (classify _); simpl.
    + intros [= <-]. apply extends_record_request.
    + intros H%IH; [|done]. etrans; [|apply H].
      etrans; [apply extends_record_request | apply extends_rotate].
    + intros [= <-]. etrans; [apply extends_record_request|]. by apply extends_cache_store.
Qed.

(** A scan panics only at the end of the list, on the index it names. *)
Lemma scan_Panicked content total remaining st st' p :
  Spec.scan cfg content total remaining st = Panicked st' p ->
  p = IndexOutOfRange (secretIdx st') total /\
  secretIdx st' = secretIdx st + length remaining.
Proof.
  revert st. induction remaining as [|secret remaining IH]; intros st; simpl.
  - intros [= <- <-]. split; [done | lia].
  - destruct (classify _); try done. intros [-> Hi]%IH. simpl in Hi. split; [done | lia].
Qed.

End scan_lemmas.

(** ** Refinement and termination *)

Section refinement.
Context {remote : Remote} (cfg : ConfigStruct).
Implicit Types (st : State) (content : string) (secrets : list Secret) (fuel : nat).

(** With fuel for the credentials that remain and one more call, the
    function of the source is the scan of the contract. *)
Lemma translate_fuel_spec fuel secrets st content :
  length secrets - secretIdx st < fuel ->
  translate_fuel cfg fuel secrets st content = Spec.contract cfg secrets st content.
Proof.
  revert st. induction fuel as [|fuel IH]; intros st Hf; [lia|].
  unfold Spec.contract. simpl. case_decide; [done|]. unfold cache_lookup, current.
  destruct (translateCache st !! content) eqn:Ec; [done|].
  destruct (new_request _ _ _) eqn:En; [done|].
  destruct (secrets !! secretIdx st) as [secret|] eqn:Es.
  - rewrite (drop_S _ _ _ Es). simpl. fold (request_for cfg content secret).
    destruct (classify _); [done| |done].
    rewrite IH by (simpl; apply lookup_lt_Some in Es; lia).
    unfold Spec.contract. rewrite decide_False by done. simpl. by rewrite Ec, En.
  - by rewrite drop_ge by (by apply lookup_ge_None).
Qed.

(** The contract on a miss that reaches the network. *)
Lemma translate_scan secrets st content :
  content <> "" -> cache_lookup content st = None ->
  new_request "POST" papagoAPIEndpoint (request_body cfg content) = None ->
  translate cfg secrets st content
  = Spec.scan cfg content (length secrets) (drop (secretIdx st) secrets) st.
Proof.
  intros Hne Hmiss Hreq. unfold translate. rewrite translate_fuel_spec by lia.
  unfold Spec.contract, cache_lookup in *. by rewrite decide_False, Hmiss, Hreq.
Qed.

(** The four ways through [translate]: the empty text, a hit, a request
    that cannot be built, and the scan. *)
Lemma translate_cases secrets st content :
  (content = "" /\ translate cfg secrets st content = Returned st ("", None)) \/
  (exists translated, content <> "" /\ cache_lookup content st = Some translated /\
     translate cfg secrets st content
     = Returned (log (Debugf ("using translation cache: " +:+ content)) st) (translated, None)) \/
  (exists msg, content <> "" /\ cache_lookup content st = None /\
     translate cfg secrets st content = Returned st ("", Some (Foreign NewRequest msg))) \/
  (content <> "" /\ cache_lookup content st = None /\
     translate cfg secrets st content
     = Spec.scan cfg content (length secrets) (drop (secretIdx st) secrets) st).
Proof.
  unfold translate. rewrite translate_fuel_spec by lia. unfold Spec.contract, cache_lookup.
  case_decide; [by left|right].
  destruct (translateCache st !! content) eqn:Ec; [left; eauto|right].
  destruct (new_request _ _ _) eqn:En; [left; eauto|right; eauto].
Qed.

(** A text that is in the cache is answered from it: no request is built
    or sent, the cursor and the cache stay, one debug line is logged. *)
Lemma translate_hit secrets st content translated :
  content <> "" -> cache_lookup content st = Some translated ->
  translate cfg secrets st content
  = Returned (log (Debugf ("using translation cache: " +:+ content)) st) (translated, None).
Proof.
  intros Hne Hhit.
  destruct (translate_cases secrets st content)
    as [[? _]|[(t & _ & Ht & ->)|[(msg & _ & Hmiss & _)|(_ & Hmiss & _)]]];
    [done| |congruence..].
  congruence.
Qed.

(** A translation that was returned is in the cache of every state that
    extends the one it was returned in. *)
Lemma translate_cached secrets st st1 st2 content text :
  content <> "" ->
  translate cfg secrets st content = Returned st1 (text, None) ->
  extends st1 st2 -> cache_lookup content st2 = Some text.
Proof.
  intros Hne H1 Hext. apply (extends_cache_lookup st1); [done|].
  assert (translateCache st1 = <[content := text]> (translateCache st)) as Hc.
  { destruct (translate_cases secrets st content)
      as [[? _]|[(t & _ & Hhit & E)|[(msg & _ & _ & E)|(_ & _ & E)]]];
      [done|..]; rewrite E in H1.
    - injection H1 as <- <-. simpl. symmetry. by apply insert_id.
    - done.
    - pose proof (scan_cache cfg content (length secrets) (drop (secretIdx st) secrets) st) as H.
      by rewrite H1 in H. }
  unfold cache_lookup. rewrite Hc. apply lookup_insert_eq.
Qed.

Lemma translate_total secrets st content :
  terminates (translate cfg secrets st content) = true.
Proof.
  destruct (translate_cases secrets st content)
    as [[_ ->]|[(t & _ & _ & ->)|[(msg & _ & _ & ->)|(_ & _ & ->)]]]; try done.
  apply scan_terminates.
Qed.

(** The cache after a call, by the way the call ends. *)
Lemma translate_cache secrets st content :
  match translate cfg secrets st content with
  | Returned st' (text, None) =>
      if decide (content = "") then text = "" /\ translateCache st' = translateCache st
      else translateCache st' = <[content := text]> (translateCache st)
  | Returned st' (text, Some _) => text = "" /\ translateCache st' = translateCache st
  | Panicked st' _ => translateCache st' = translateCache st
  | OutOfFuel => False
  end.
Proof.
  destruct (translate_cases secrets st content)
    as [[-> ->]|[(t & Hne & Hhit & ->)|[(msg & Hne & Hmiss & ->)|(Hne & Hmiss & ->)]]].
  - by rewrite decide_True.
  - rewrite decide_False by done. simpl. symmetry. by apply insert_id.
  - done.
  - pose proof (scan_cache cfg content (length secrets) (drop (secretIdx st) secrets) st) as H.
    destruct (Spec.scan _ _ _ _ _) as [? [? [?|]]| |]; try done. by rewrite decide_False.
Qed.

Lemma translate_final_extends secrets st st' content :
  final (translate cfg secrets st content) = Some st' -> extends st st'.
Proof.
  destruct (translate_cases secrets st content)
    as [[-> ->]|[(t & Hne & Hhit & ->)|[(msg & Hne & Hmiss & ->)|(Hne & Hmiss & ->)]]]; simpl.
  - by intros [= <-].
  - intros [= <-]. apply extends_log.
  - by intros [= <-].
  - by apply scan_extends.
Qed.

Lemma translate_final_stdout secrets st st' content :
  final (translate cfg secrets st content) = Some st' -> stdout st' = stdout st.
Proof.
  destruct (translate_cases secrets st content)
    as [[-> ->]|[(t & Hne & Hhit & ->)|[(msg & Hne & Hmiss & ->)|(Hne & Hmiss & ->)]]]; simpl.
  - by intros [= <-].
  - by intros [= <-].
  - by intros [= <-].
  - by intros (k & _ & _ & ? & _)%scan_final.
Qed.

Lemma translate_final_evolves secrets st st' content :
  final (translate cfg secrets st content) = Some st' -> evolves secrets st st'.
Proof.
  intros H. split; [by eapply translate_final_extends|]. intros Hle. revert H.
  destruct (translate_cases secrets st content)
    as [[_ ->]|[(t & _ & _ & ->)|[(msg & _ & _ & ->)|(_ & _ & ->)]]]; simpl;
    try (by intros [= <-]).
  intros (k & Hk & _ & _ & Hcur)%scan_final. rewrite length_drop in Hk.
  destruct (returned _); lia.
Qed.

(** The only panic of [translate]: the cursor is not an index of
    [secrets]. *)
Lemma translate_Panicked_inv secrets st st' p content :
  translate cfg secrets st content = Panicked st' p ->
  p = IndexOutOfRange (secretIdx st') (length secrets) /\ length secrets <= secretIdx st'.
Proof.
  destruct (translate_cases secrets st content)
    as [[_ ->]|[(t & _ & _ & ->)|[(msg & _ & _ & ->)|(_ & _ & ->)]]]; try done.
  intros [-> Hi]%scan_Panicked. rewrite length_drop in Hi. split; [done | lia].
Qed.

End refinement.

(** ** Properties of the translator *)

Section properties.
Context {remote : Remote} (cfg : ConfigStruct).
Implicit Types (st : State) (content text : string) (secrets : list Secret) (fuel : nat).

(** C1 (termination).  [translate] always returns or panics: the fuel it
    passes, one call for each credential from the cursor on and one more,
    is never used up, and any larger amount gives the same outcome. *)
Theorem translate_terminates fuel secrets st content :
  length secrets - secretIdx st < fuel ->
  translate_fuel cfg fuel secrets st content = translate cfg secrets st content /\
  terminates (translate cfg secrets st content) = true.
Proof.
  intros Hfuel. split.
  - unfold translate. by rewrite !translate_fuel_spec by lia.
  - apply translate_total.
Qed.

(** C2 (refinement).  The translator of the source implements its
    contract: the empty text and a cached text are answered without the
    network, and a miss is answered by scanning the credentials that
    remain, in order, until an answer is not a quota error. *)
Theorem translate_refines_spec secrets st content :
  translate cfg secrets st content = Spec.contract cfg secrets st content.
Proof. unfold translate. apply translate_fuel_spec. lia. Qed.

(** C3 (functional: the cache).  Once a text has been translated, every
    later call for it, in any state the process reaches afterwards,
    returns the same translation without sending a request: it only logs
    the hit, at the level debug, so that with the logger as main.go
    leaves it nothing is written. *)
Theorem translate_twice secrets st st1 st2 content text :
  content <> "" ->
  translate cfg secrets st content = Returned st1 (text, None) ->
  extends st1 st2 ->
  exists st3,
    translate cfg secrets st2 content = Returned st3 (text, None) /\
    st3 = log (Debugf ("using translation cache: " +:+ content)) st2 /\
    stderr st3 = stderr st2.
Proof.
  intros Hne H1 Hext. eexists. split; [|split; [done|]].
  - apply translate_hit; [done|]. by eapply translate_cached.
  - apply stderr_debug.
Qed.

(** C4 (error).  When the service refuses every credential from the
    cursor on for quota, [translate] panics on [secrets[*secretIdx]] with
    the cursor at [len(secrets)], after one request for each of these
    credentials and no more; nothing is cached. *)
Theorem translate_exhausted secrets st content :
  content <> "" -> cache_lookup content st = None ->
  new_request "POST" papagoAPIEndpoint (request_body cfg content) = None ->
  secretIdx st <= length secrets ->
  Spec.all_quota cfg content (drop (secretIdx st) secrets) st = true ->
  exists st',
    translate cfg secrets st content
    = Panicked st' (IndexOutOfRange (length secrets) (length secrets)) /\
    secretIdx st' = length secrets /\
    sent st' = sent st ++ map (request_for cfg content) (drop (secretIdx st) secrets) /\
    translateCache st' = translateCache st.
Proof.
  intros Hne Hmiss Hreq Hidx Hq.
  exists (Spec.rotations cfg content (drop (secretIdx st) secrets) st).
  rewrite translate_scan by done.
  rewrite <- (app_nil_r (drop _ _)) at 1. rewrite scan_all_quota by done. simpl.
  rewrite rotations_idx, rotations_sent, rotations_cache, length_drop.
  replace (secretIdx st + (length secrets - secretIdx st)) with (length secrets) by lia.
  done.
Qed.

(** C5 (invariant).  Whatever way a call ends, the cursor has not moved
    back and, if it was within [0, len(secrets)], it still is; the cache
    has kept every entry; nothing was printed. *)
Theorem translate_invariant secrets st st' content :
  final (translate cfg secrets st content) = Some st' ->
  secretIdx st <= secretIdx st' /\
  (secretIdx st <= length secrets -> secretIdx st' <= length secrets) /\
  translateCache st ⊆ translateCache st' /\
  stdout st' = stdout st.
Proof.
  intros H. pose proof (translate_final_evolves cfg _ _ _ _ H) as [[Hi Hc _ _ _] Hb].
  pose proof (translate_final_stdout cfg _ _ _ _ H) as Ho.
  by repeat split.
Qed.

(** C6 (safety: requests against credentials).  The requests of a call
    are made with the credentials from the cursor on, in their order, one
    request each; when the call returns, the cursor is on the credential
    of the last request, and when it panics every remaining credential
    has been used. *)
Theorem translate_requests secrets st st' content :
  final (translate cfg secrets st content) = Some st' ->
  exists k,
    sent st' = sent st ++ map (request_for cfg content) (take k (drop (secretIdx st) secrets)) /\
    secretIdx st' = secretIdx st + (if returned (translate cfg secrets st content)
                                    then pred k else length (drop (secretIdx st) secrets)).
Proof.
  destruct (translate_cases cfg secrets st content)
    as [[_ ->]|[(t & _ & _ & ->)|[(msg & _ & _ & ->)|(_ & _ & ->)]]]; simpl;
    try (intros [= <-]; exists 0; simpl; by rewrite app_nil_r, Nat.add_0_r).
  intros (k & Hk & Hs & _ & Hcur)%scan_final. exists k. split; [done|].
  destruct (returned _); lia.
Qed.

(** C39 (functional: one rotation).  When the credential under the cursor
    is refused for quota and the next one is served, the call returns the
    translation after exactly two requests, the second with the next
    credential; the cursor has advanced by one and the text is cached. *)
Theorem translate_rotates_once secrets st content secret next text :
  content <> "" -> cache_lookup content st = None ->
  new_request "POST" papagoAPIEndpoint (request_body cfg content) = None ->
  secrets !! secretIdx st = Some secret ->
  secrets !! S (secretIdx st) = Some next ->
  classify (round_trip (sent st) (request_for cfg content secret)) = Quota ->
  classify (round_trip (sent st ++ [request_for cfg content secret])
                       (request_for cfg content next)) = Text text ->
  exists st',
    translate cfg secrets st content = Returned st' (text, None) /\
    secretIdx st' = S (secretIdx st) /\
    sent st' = sent st ++ [request_for cfg content secret; request_for cfg content next] /\
    translateCache st' = <[content := text]> (translateCache st).
Proof.
  intros Hne Hmiss Hreq Hs Hn Hq Ht. rewrite translate_scan by done.
  rewrite (drop_S _ _ _ Hs), (drop_S _ _ _ Hn). simpl. rewrite Hq. simpl. rewrite Ht.
  eexists. split; [done|]. simpl. by rewrite <- app_assoc.
Qed.

(** C8 (error: no retry).  An answer that is a failure but not a quota
    error (no connection or a timeout, an unreadable body, a body that is
    not JSON, any other provider error) ends the call with that error and
    the empty text, after this single request; the cursor stays. *)
Theorem translate_failure secrets st content secret e :
  content <> "" -> cache_lookup content st = None ->
  new_request "POST" papagoAPIEndpoint (request_body cfg content) = None ->
  current secrets st = Some secret ->
  classify (round_trip (sent st) (request_for cfg content secret)) = Failure e ->
  translate cfg secrets st content
  = Returned (record_request (request_for cfg content secret) st) ("", Some e).
Proof.
  intros Hne Hmiss Hreq Hs Hf. rewrite translate_scan by done.
  rewrite (drop_S _ _ _ Hs). simpl. by rewrite Hf.
Qed.

(** C9 (functional: the cache and the value of a call).  A call that
    returns a translation of a text that is not empty leaves the cache
    with exactly this entry added; a call that returns an error returns
    the empty text with it and leaves the cache as it was. *)
Theorem translate_success_stores secrets st st' content text err :
  content <> "" ->
  translate cfg secrets st content = Returned st' (text, err) ->
  match err with
  | None => translateCache st' = <[content := text]> (translateCache st)
  | Some _ => text = "" /\ translateCache st' = translateCache st
  end.
Proof.
  intros Hne H. pose proof (translate_cache cfg secrets st content) as Hc.
  rewrite H in Hc. destruct err; [done|]. by rewrite decide_False in Hc.
Qed.

(** The empty text.  The empty text is translated to the
    empty text at once: no cache access, no request, no change of
    state, whatever the credentials are. *)
Theorem translate_empty secrets st :
  translate cfg secrets st "" = Returned st ("", None).
Proof.
  destruct (translate_cases cfg secrets st "")
    as [[_ ->]|[(t & ? & _)|[(msg & ? & _)|(? & _)]]]; done.
Qed.

(** The text goes into the form body as it is: whatever follows an "&"
    in it is written after the body ([Form] says how the service reads
    it). *)
Lemma request_body_app content params :
  request_body cfg (content +:+ "&" +:+ params)
  = request_body cfg content +:+ "&" +:+ params.
Proof. unfold request_body. by rewrite !string_app_assoc. Qed.

(** C13 (functional: what counts as a quota error).  An answer makes the
    translator rotate exactly when it was read, it is JSON, and its
    errorMessage holds the word "exceeded" somewhere. *)
Theorem classify_Quota_iff rt :
  classify rt = Quota <->
  exists b papagoResp before after,
    rt = Replied b /\ json_unmarshal b = inl papagoResp /\
    ErrorMsg papagoResp = before +:+ "exceeded" +:+ after.
Proof.
  unfold classify. split.
  - destruct rt as [| |b]; try done. destruct (json_unmarshal b) as [r|] eqn:E; [|done].
    case_decide; [|done]. destruct (Contains _ _) eqn:Ec; [|done]. intros _.
    apply Contains_spec in Ec as (before & after & Ec). by exists b, r, before, after.
  - intros (b & r & before & after & -> & -> & E).
    rewrite decide_True by (rewrite E; by destruct before).
    by rewrite E, Contains_app.
Qed.

End properties.

(** ** Witnesses, on the scripted service *)

Lemma translate_terminates_witness :
  translate_fuel (remote := Demo.remote) Demo.cfg 9 Demo.secrets initState "hello"
  = translate (remote := Demo.remote) Demo.cfg Demo.secrets initState "hello" /\
  terminates (translate (remote := Demo.remote) Demo.cfg Demo.secrets initState "hello") = true.
Proof. apply translate_terminates. simpl. lia. Defined.

Lemma translate_twice_witness :
  exists st1 text,
    translate (remote := Demo.remote) Demo.cfg Demo.secrets initState "hello"
    = Returned st1 (text, None) /\
    exists st3,
      translate (remote := Demo.remote) Demo.cfg Demo.secrets st1 "hello"
      = Returned st3 (text, None) /\
      st3 = log (Debugf ("using translation cache: " +:+ "hello")) st1 /\
      stderr st3 = stderr st1.
Proof.
  eexists _, _. split; [vm_compute; reflexivity|].
  eapply (translate_twice Demo.cfg Demo.secrets initState); [done| |done].
  vm_compute. reflexivity.
Defined.

Lemma translate_exhausted_witness :
  exists st',
    translate (remote := Demo.remote) Demo.cfg [Demo.spent1; Demo.spent2] initState "hello"
    = Panicked st' (IndexOutOfRange 2 2) /\
    secretIdx st' = 2 /\
    sent st' = map (request_for Demo.cfg "hello") [Demo.spent1; Demo.spent2] /\
    translateCache st' = ∅.
Proof.
  apply (translate_exhausted Demo.cfg [Demo.spent1; Demo.spent2] initState "hello");
    try done; simpl; lia.
Defined.

Lemma translate_invariant_witness :
  secretIdx initState <= secretIdx (Demo.served "hello") /\
  (secretIdx initState <= length Demo.secrets -> secretIdx (Demo.served "hello") <= length Demo.secrets) /\
  translateCache initState ⊆ translateCache (Demo.served "hello") /\
  stdout (Demo.served "hello") = stdout initState.
Proof.
  apply (translate_invariant (remote := Demo.remote) Demo.cfg Demo.secrets initState
           (Demo.served "hello") "hello").
  vm_compute. reflexivity.
Defined.

Lemma translate_requests_witness :
  exists k,
    sent (Demo.served "hello")
    = sent initState
      ++ map (request_for Demo.cfg "hello") (take k (drop (secretIdx initState) Demo.secrets)) /\
    secretIdx (Demo.served "hello") = secretIdx initState +
      (if returned (translate (remote := Demo.remote) Demo.cfg Demo.secrets initState "hello")
       then pred k else length (drop (secretIdx initState) Demo.secrets)).
Proof.
  apply (translate_requests (remote := Demo.remote) Demo.cfg Demo.secrets initState
           (Demo.served "hello") "hello").
  vm_compute. reflexivity.
Defined.

Lemma translate_rotates_once_witness :
  exists st',
    translate (remote := Demo.remote) Demo.cfg [Demo.spent1; Demo.fresh] initState "hello"
    = Returned st' ("[source=ja&target=ko&text=hello]", None) /\
    secretIdx st' = 1 /\
    sent st' = [request_for Demo.cfg "hello" Demo.spent1; request_for Demo.cfg "hello" Demo.fresh] /\
    translateCache st' = {["hello" := "[source=ja&target=ko&text=hello]"]}.
Proof.
  apply (translate_rotates_once Demo.cfg [Demo.spent1; Demo.fresh] initState "hello");
    done.
Defined.

Lemma translate_failure_witness :
  translate (remote := Demo.remote) Demo.cfg [Demo.down; Demo.fresh] initState "hello"
  = Returned (record_request (request_for Demo.cfg "hello" Demo.down) initState)
             ("", Some (Foreign ClientDo "dial tcp: i/o timeout")).
Proof. by apply translate_failure. Defined.

Lemma translate_success_stores_witness :
  exists st',
    translate (remote := Demo.remote) Demo.cfg [Demo.fresh] initState "hello"
    = Returned st' ("[source=ja&target=ko&text=hello]", None) /\
    translateCache st' = {["hello" := "[source=ja&target=ko&text=hello]"]}.
Proof.
  eexists. split; [vm_compute; reflexivity|].
  apply (translate_success_stores (remote := Demo.remote) Demo.cfg [Demo.fresh] initState
           _ "hello" _ None); [done|].
  vm_compute. reflexivity.
Defined.
