(* ===== verification/Form.v ===== *)
(** * Form: what the service reads from the body of a request

    [translate] sends its request with the content type
    application/x-www-form-urlencoded (main.go 241) and writes the body
    with [fmt.Sprintf] (main.go 235).  A body of that type is read by
    cutting it at every "&", cutting each piece at its first "=", and
    undoing the escapes of both halves: "+" is a space and "%XX" the
    byte with that hexadecimal code.  This file holds that reading, the
    writing that goes with it, and what the body of main.go means under
    it.

    - [unescape], [parse_pair], [form_decode]: the reading.  An escape
      that is cut short or not hexadecimal is refused, as Go's
      [url.ParseQuery] and Java's [URLDecoder] do; empty pieces are
      skipped.
    - [escape], [escaped_body]: the writing, and the body spec.md asks
      for (the three values form-urlencoded).
    - [form_safe]: the texts without "&", "+" and "%".
    - [text_read], [reading]: the text a provider finds in a body, and
      the provider (a [Remote]) that answers with the translation of the
      text it has found.

    Theorems: reading inverts writing on every text; the body of
    main.go is read as the three parameters it was written from exactly
    when none of the three values holds an "&", a "+" or a "%";
    otherwise the service translates another text than the one of the
    chat line, or refuses the form; what [translate] returns and caches
    for a chat line is the translation of the text the provider has
    read. *)

From stdpp Require Import base list strings.
From Stdlib Require Import Ascii NArith Lia.
From S2P Require Import Prelude GoStrings Types Translate.

(** ** Definitions *)

Definition amp : ascii := "&"%char.
Definition equals_sign : ascii := "="%char.
Definition plus : ascii := "+"%char.
Definition percent : ascii := "%"%char.
Definition space : ascii := " "%char.

(** The value of a hexadecimal digit, of either case. *)
Definition unhex (c : ascii) : option N :=
  let n := N_of_ascii c in
  if ((48 <=? n) && (n <=? 57))%N then Some (n - 48)%N
  else if ((65 <=? n) && (n <=? 70))%N then Some (n - 55)%N
  else if ((97 <=? n) && (n <=? 102))%N then Some (n - 87)%N
  else None.

Fixpoint unescape (s : string) : option string :=
  match s with
  | "" => Some ""
  | String c s' =>
      if decide (c = plus) then String space <$> unescape s'
      else if decide (c = percent) then
        match s' with
        | String h (String l s'') =>
            match unhex h, unhex l with
            | Some a, Some b => String (ascii_of_N (16 * a + b)) <$> unescape s''
            | _, _ => None
            end
        | _ => None
        end
      else String c <$> unescape s'
  end.

(** A piece [key=value]; without "=" the value is empty. *)
Definition parse_pair (piece : string) : option (string * string) :=
  match Split piece equals_sign with
  | key :: values =>
      k ← unescape key; v ← unescape (Join values (String equals_sign "")); Some (k, v)
  | [] => None
  end.

Fixpoint decode_pieces (pieces : list string) : option (list (string * string)) :=
  match pieces with
  | [] => Some []
  | p :: rest =>
      if decide (p = "") then decode_pieces rest
      else x ← parse_pair p; xs ← decode_pieces rest; Some (x :: xs)
  end.

(** The parameters of a body, in the order they are written in. *)
Definition form_decode (body : string) : option (list (string * string)) :=
  decode_pieces (Split body amp).

(** Letters, digits and "-", "_", ".", "~" are written as they are. *)
Definition unreserved (c : ascii) : bool :=
  let n := N_of_ascii c in
  ((48 <=? n) && (n <=? 57) || (65 <=? n) && (n <=? 90) || (97 <=? n) && (n <=? 122)
   || (n =? 45) || (n =? 95) || (n =? 46) || (n =? 126))%N.

Definition hexdigit (n : N) : ascii :=
  ascii_of_N (if (n <? 10)%N then n + 48 else n + 55).

Definition escape_byte (c : ascii) : string :=
  if unreserved c then String c ""
  else if decide (c = space) then String plus ""
  else String percent (String (hexdigit (N_of_ascii c / 16))
                         (String (hexdigit (N_of_ascii c mod 16)) "")).

Fixpoint escape (s : string) : string :=
  match s with
  | "" => ""
  | String c s' => escape_byte c +:+ escape s'
  end.

(** The body with its three values form-urlencoded. *)
Definition escaped_body (cfg : ConfigStruct) (content : string) : string :=
  "source=" +:+ escape (SourceLanguage cfg) +:+ "&target=" +:+ escape (TargetLanguage cfg)
  +:+ "&text=" +:+ escape content.

(** The parameters main.go means to send. *)
Definition meant (cfg : ConfigStruct) (content : string) : list (string * string) :=
  [("source", SourceLanguage cfg); ("target", TargetLanguage cfg); ("text", content)].

(** The first parameter of a name. *)
Fixpoint parameter (name : string) (params : list (string * string)) : option string :=
  match params with
  | [] => None
  | (k, v) :: rest => if decide (k = name) then Some v else parameter name rest
  end.

(** The text a provider finds in a body. *)
Definition text_read (body : string) : option string :=
  params ← form_decode body; parameter "text" params.

(** A provider that reads the form and answers with the translation
    [tr] of the text it has read; a form it cannot read, or without a
    text, is answered with an error. *)
Definition reading (tr : string -> string) : Remote := {|
  new_request _ _ _ := None;
  round_trip _ req := Replied (Body req);
  json_unmarshal b :=
    match text_read b with
    | Some text => inl (mkPapagoResponse (mkPapagoMessage (mkPapagoResult (tr text))) "" "")
    | None =>
        inl (mkPapagoResponse (mkPapagoMessage (mkPapagoResult ""))
               "text parameter is needed" "N2MT07")
    end
|}.

(** The texts that are read as they are written. *)
Definition form_safe (s : string) : Prop :=
  sep_free amp s /\ sep_free plus s /\ sep_free percent s.

(** The names of parameters: safe, not empty and without "=". *)
Definition plain (k : string) : Prop :=
  k <> "" /\ form_safe k /\ sep_free equals_sign k.

(** What may follow a piece: nothing, or "&" and the other pieces. *)
Definition follows (tail : string) : Prop :=
  match tail with
  | "" => True
  | String c _ => c = amp
  end.

(** ** Escapes *)

Section escapes.
Implicit Types (s t : string) (c : ascii).

Lemma unescape_length s t : unescape s = Some t -> String.length t <= String.length s.
Proof.
  revert t. induction s as [s IH] using (induction_ltof1 _ String.length).
  unfold ltof in IH. intros t. destruct s as [|c s]; cbn [unescape]; [by intros [= <-]|].
  repeat case_decide.
  - intros (r & E & ->)%fmap_Some. apply IH in E; cbn [String.length]; lia.
  - destruct s as [|h [|l s']]; [done..|]. destruct (unhex h), (unhex l); try done.
    intros (r & E & ->)%fmap_Some. apply IH in E; cbn [String.length] in *; lia.
  - intros (r & E & ->)%fmap_Some. apply IH in E; cbn [String.length]; lia.
Qed.

Lemma unescape_safe s : sep_free plus s -> sep_free percent s -> unescape s = Some s.
Proof.
  unfold sep_free. induction s as [|c s IH]; [done|]. cbn [Count unescape].
  repeat case_decide; try lia. intros ? ?. by rewrite IH.
Qed.

(** Only the texts without escapes are read as themselves. *)
Lemma unescape_id s : unescape s = Some s -> sep_free plus s /\ sep_free percent s.
Proof.
  unfold sep_free. induction s as [|c s IH]; [done|]. cbn [Count unescape].
  destruct (decide (c = plus)) as [->|_]; [|destruct (decide (c = percent)) as [->|_]].
  - intros (r & E & H)%fmap_Some. by inversion H.
  - destruct s as [|h [|l s']]; [done..|]. destruct (unhex h), (unhex l); try done.
    intros (r & E & [= _ <-])%fmap_Some. apply unescape_length in E.
    cbn [String.length] in E. lia.
  - intros (r & E & [= <-])%fmap_Some. by apply IH.
Qed.

Lemma unescape_escape_byte c t : unescape (escape_byte c +:+ t) = String c <$> unescape t.
Proof. destruct c as [[] [] [] [] [] [] [] []]; reflexivity. Qed.

Lemma escape_byte_sep_free c :
  sep_free amp (escape_byte c) /\ sep_free equals_sign (escape_byte c).
Proof. destruct c as [[] [] [] [] [] [] [] []]; by vm_compute. Qed.

(** Reading inverts writing. *)
Lemma unescape_escape s : unescape (escape s) = Some s.
Proof.
  induction s as [|c s IH]; [done|]. cbn [escape]. by rewrite unescape_escape_byte, IH.
Qed.

Lemma escape_sep_free s : sep_free amp (escape s) /\ sep_free equals_sign (escape s).
Proof.
  unfold sep_free. induction s as [|c s [IH1 IH2]]; [done|]. cbn [escape].
  destruct (escape_byte_sep_free c) as [H1 H2]. unfold sep_free in *.
  rewrite !Count_app. lia.
Qed.

End escapes.

(** ** Pieces *)

Section pieces.
Implicit Types (k v p tail : string) (ps : list (string * string)).

Lemma parse_pair_field k v :
  plain k -> parse_pair (k +:+ String equals_sign v) = v' ← unescape v; Some (k, v').
Proof.
  intros (_ & (_ & ? & ?) & ?). unfold parse_pair.
  by rewrite Split_field, Join_Split, (unescape_safe k).
Qed.

Lemma form_decode_amp tail : form_decode (String amp tail) = form_decode tail.
Proof. unfold form_decode. cbn [Split]. by rewrite decide_True. Qed.

Lemma form_decode_piece p tail :
  sep_free amp p -> p <> "" -> follows tail ->
  form_decode (p +:+ tail) = x ← parse_pair p; xs ← form_decode tail; Some (x :: xs).
Proof.
  intros Hp Hne Ht. destruct tail as [|c tail]; [|cbn [follows] in Ht; subst c].
  - rewrite string_app_nil_r. unfold form_decode. rewrite Split_sep_free by done.
    cbn [decode_pieces]. rewrite decide_False by done. by destruct (parse_pair p).
  - rewrite form_decode_amp. unfold form_decode. rewrite Split_field by done.
    cbn [decode_pieces]. by rewrite decide_False.
Qed.

(** A parameter whose value has no "&", before what follows. *)
Lemma form_decode_field k v tail :
  plain k -> sep_free amp v -> follows tail ->
  form_decode (k +:+ String equals_sign (v +:+ tail))
  = v' ← unescape v; ps ← form_decode tail; Some ((k, v') :: ps).
Proof.
  intros Hk Hv Ht.
  replace (k +:+ String equals_sign (v +:+ tail))
    with ((k +:+ String equals_sign v) +:+ tail)
    by (by rewrite string_app_assoc, string_app_cons).
  rewrite form_decode_piece, parse_pair_field; [by destruct (unescape v)| done | | | done].
  - destruct Hk as (_ & (Hk & _) & _). unfold sep_free in *.
    rewrite Count_app. cbn [Count]. rewrite decide_False by done. lia.
  - destruct Hk as (Hk & _). by destruct k.
Qed.

(** A parameter that is read as it was written has a safe value. *)
Lemma form_decode_field_inv k v tail ps :
  plain k -> follows tail ->
  form_decode (k +:+ String equals_sign (v +:+ tail)) = Some ((k, v) :: ps) ->
  form_safe v /\ form_decode tail = Some ps.
Proof.
  intros Hk Ht. destruct (sep_cut amp v) as [Hv|(a & b & -> & Ha)].
  - rewrite form_decode_field by done.
    destruct (unescape v) as [v'|] eqn:E; [|done]. cbn [mbind option_bind].
    destruct (form_decode tail); [|done]. intros [= -> ->].
    by destruct (unescape_id _ E).
  - rewrite string_app_assoc, string_app_cons, form_decode_field by done.
    destruct (unescape a) as [v'|] eqn:E; [|done]. cbn [mbind option_bind].
    destruct (form_decode _); [|done]. intros [= -> _].
    apply unescape_length in E. rewrite string_length_app in E. cbn [String.length] in E. lia.
Qed.

Lemma plain_names : plain "source" /\ plain "target" /\ plain "text".
Proof. by vm_compute. Qed.

End pieces.

Section body.
Context (cfg : ConfigStruct).
Implicit Types content : string.

(** The body of main.go, piece by piece. *)
Lemma request_body_pieces content :
  request_body cfg content
  = "source" +:+ String equals_sign (SourceLanguage cfg +:+ String amp
      ("target" +:+ String equals_sign (TargetLanguage cfg +:+ String amp
        ("text" +:+ String equals_sign (content +:+ ""))))).
Proof. unfold request_body. by rewrite string_app_nil_r. Qed.

(** Had the values been escaped, the service would read them back,
    whatever they are. *)
Lemma escaped_body_decodes content :
  form_decode (escaped_body cfg content) = Some (meant cfg content).
Proof.
  destruct plain_names as (H1 & H2 & H3). unfold escaped_body.
  rewrite <- (string_app_nil_r (escape content)).
  change (form_decode
    ("source" +:+ String equals_sign (escape (SourceLanguage cfg) +:+ String amp
      ("target" +:+ String equals_sign (escape (TargetLanguage cfg) +:+ String amp
        ("text" +:+ String equals_sign (escape content +:+ ""))))))
    = Some (meant cfg content)).
  rewrite form_decode_field, form_decode_amp, form_decode_field, form_decode_amp,
    form_decode_field, !unescape_escape by (done || apply escape_sep_free).
  done.
Qed.

(** With safe languages, the text the provider finds is the text before
    the first "&" of the content, with its escapes undone. *)
Lemma text_read_body content text tail :
  form_safe (SourceLanguage cfg) -> form_safe (TargetLanguage cfg) ->
  sep_free amp content -> follows tail -> is_Some (form_decode tail) ->
  unescape content = Some text ->
  text_read (request_body cfg (content +:+ tail)) = Some text.
Proof.
  intros (? & ? & ?) (? & ? & ?) Hc Ht [ps Hps] E.
  destruct plain_names as (K1 & K2 & K3). unfold text_read, request_body.
  change (form_decode
    ("source" +:+ String equals_sign (SourceLanguage cfg +:+ String amp
      ("target" +:+ String equals_sign (TargetLanguage cfg +:+ String amp
        ("text" +:+ String equals_sign (content +:+ tail)))))) ≫= parameter "text"
    = Some text).
  rewrite form_decode_field, form_decode_amp, form_decode_field, form_decode_amp,
    form_decode_field, (unescape_safe (SourceLanguage cfg)),
    (unescape_safe (TargetLanguage cfg)), E, Hps by done.
  done.
Qed.

(** What [translate] returns from a provider that reads the form: the
    translation of the text the provider has read, stored in the cache
    under the text of the chat line. *)
Lemma translate_reading tr secrets st content secret text :
  content <> "" -> cache_lookup content st = None -> current secrets st = Some secret ->
  text_read (request_body cfg content) = Some text ->
  translate (remote := reading tr) cfg secrets st content
  = Returned (cache_store content (tr text)
                (record_request (request_for cfg content secret) st)) (tr text, None).
Proof.
  intros Hne Hmiss Hs Hread. unfold translate. cbn [translate_fuel].
  rewrite decide_False, Hmiss by done. cbn [new_request round_trip reading].
  rewrite Hs. cbn [Body build_request]. unfold classify. cbn [json_unmarshal reading].
  by rewrite Hread.
Qed.

End body.

(** ** Properties *)

Section form_properties.
Context (cfg : ConfigStruct).

(** C12 (functional: the body is not escaped).  The service reads from
    the body of main.go the three parameters it was written from, the
    languages and the text of the chat line, exactly when none of the
    three holds an "&", a "+" or a "%".  For every other text the form
    is refused or the parameters differ: what follows an "&" is read as
    further parameters, a "+" as a space, a "%XX" as one byte. *)
Theorem request_body_not_escaped content :
  form_decode (request_body cfg content) = Some (meant cfg content) <->
  form_safe (SourceLanguage cfg) /\ form_safe (TargetLanguage cfg) /\ form_safe content.
Proof.
  destruct plain_names as (H1 & H2 & H3). rewrite request_body_pieces. unfold meant. split.
  - intros [? H]%form_decode_field_inv; [|done..]. rewrite form_decode_amp in H.
    apply form_decode_field_inv in H as [? H]; [|done..]. rewrite form_decode_amp in H.
    by apply form_decode_field_inv in H as [? _].
  - intros ((? & ? & ?) & (? & ? & ?) & (? & ? & ?)).
    rewrite form_decode_field, form_decode_amp, form_decode_field, form_decode_amp,
      form_decode_field, !unescape_safe by done. done.
Qed.

End form_properties.

(** ** Examples *)

(** A chat line with an "&": the service translates what is before it,
    and is given a parameter the program never meant to send. *)
Example ampersand_cuts_the_text :
  form_decode (request_body Demo.cfg "Tom & Jerry&target=en")
  = Some [("source", "ja"); ("target", "ko"); ("text", "Tom "); (" Jerry", ""); ("target", "en")].
Proof. vm_compute. reflexivity. Qed.

(** A "+" is read as a space, and "100%" is refused. *)
Example plus_is_a_space :
  form_decode (request_body Demo.cfg "1+1=2")
  = Some [("source", "ja"); ("target", "ko"); ("text", "1 1=2")].
Proof. vm_compute. reflexivity. Qed.

Example percent_is_refused : form_decode (request_body Demo.cfg "100%") = None.
Proof. vm_compute. reflexivity. Qed.

(** The chat line "Tom & Jerry" is answered, printed and cached with the
    translation of "Tom ". *)
Example ampersand_translation tr st :
  cache_lookup "Tom & Jerry" st = None -> current Demo.secrets st = Some Demo.fresh ->
  translate (remote := reading tr) Demo.cfg Demo.secrets st "Tom & Jerry"
  = Returned (cache_store "Tom & Jerry" (tr "Tom ")
                (record_request (request_for Demo.cfg "Tom & Jerry" Demo.fresh) st))
             (tr "Tom ", None).
Proof. intros Hmiss Hs. by apply translate_reading. Qed.

Example escaped_ampersand :
  escaped_body Demo.cfg "Tom & Jerry" = "source=ja&target=ko&text=Tom+%26+Jerry".
Proof. vm_compute. reflexivity. Qed.
