(* ===== verification/Json.v ===== *)
(** * Json: what json.Unmarshal makes of the answers and of secret.json

    main.go decodes two JSON texts: the body of every answer of the
    service, into a [PapagoResponse] (main.go 255-259), and the file of
    the credentials, into a slice of [Secret] (main.go 89-93).  What
    decides the outcome is in main.go: the struct types and their [json]
    tags (lines 59-62 and 211-219).

    - [json]: JSON values.  Reading a text into a value is the syntax
      half of encoding/json; it is a parameter, [json_parse] of the class
      [JsonSyntax], with the comparison [equal_fold] of a key with a
      field name up to case (bytes.EqualFold).
    - [dec]: a decoder stores a value into an existing Go value and
      reports the first mismatch of types; a mismatch does not stop the
      decoding.  [dec_string], [dec_struct] and [dec_slice] follow the
      rules of the package: a key is matched with a field exactly, or
      else up to case; keys that match no field are skipped; [null]
      leaves a string or a struct as it is; fields are stored in the
      order of the text, so that of two values for a field the later one
      stays.
    - [dec_PapagoResponse], [dec_Secret]: the decoders of the two struct
      types, from their tags; [unmarshal_PapagoResponse] and
      [unmarshal_Secrets] are the two calls of main.go.
    - [marshal_PapagoResponse], [marshal_Secret]: the values json.Marshal
      builds from the same tags (with their [omitempty]), as the
      reference for the round trip.
    - [with_json]: a [Remote] whose decoder is [unmarshal_PapagoResponse].

    Theorems: what [classify] answers on each shape of a reply (a
    translation, an error, neither); keys that match no field change
    nothing.  That decoding inverts the encoding ([dec_marshal_Secret],
    [dec_marshal_PapagoResponse]) is a lemma they use. *)

From stdpp Require Import base list strings.
From Stdlib Require Import Ascii.
From S2P Require Import Prelude GoStrings GoTime Types Translate.

(** ** JSON values and the package's rules *)

#[local] Unset Elimination Schemes.
Inductive json : Type :=
| JNull
| JBool (b : bool)
| JNumber (literal : string)
| JString (s : string)
| JArray (elems : list json)
| JObject (fields : list (string * json)).
#[local] Set Elimination Schemes.

Class JsonSyntax : Type := {
  (** the value of a JSON text, or the message of the syntax error *)
  json_parse : string -> json + string;
  (** a field name and a key are equal up to case *)
  equal_fold : string -> string -> bool
}.

(** The name of a value in the message of a type error. *)
Definition kind (j : json) : string :=
  match j with
  | JNull => "null"
  | JBool _ => "bool"
  | JNumber _ => "number"
  | JString _ => "string"
  | JArray _ => "array"
  | JObject _ => "object"
  end.

Definition type_error (j : json) (path ty : string) : string :=
  "json: cannot unmarshal " +:+ kind j +:+ " into Go value " +:+ path
  +:+ " of type " +:+ ty.

(** A decoder: the Go value before, the JSON value, the Go value after
    and the type error met, if any. *)
Definition dec (A : Type) : Type := A -> json -> A * option string.

(** The error Unmarshal returns is the earliest one. *)
Definition first_error (e1 e2 : option string) : option string :=
  match e1 with
  | Some _ => e1
  | None => e2
  end.

Definition dec_string (path : string) : dec string :=
  fun old j =>
    match j with
    | JString s => (s, None)
    | JNull => (old, None)
    | _ => (old, Some (type_error j path "string"))
    end.

(** A decoder for a field, from the decoder of its type. *)
Definition on_field {A B : Type} (get : A -> B) (set : B -> A -> A) (d : dec B) : dec A :=
  fun a j => let '(b, e) := d (get a) j in (set b a, e).

Fixpoint find_exact {A : Type} (fields : list (string * A)) (key : string) : option A :=
  match fields with
  | [] => None
  | (name, d) :: rest => if decide (name = key) then Some d else find_exact rest key
  end.

Section rules.
Context {syntax : JsonSyntax}.

Fixpoint find_fold {A : Type} (fields : list (string * A)) (key : string) : option A :=
  match fields with
  | [] => None
  | (name, d) :: rest => if equal_fold name key then Some d else find_fold rest key
  end.

(** The field a key is stored in: the one of that name, or else the
    first one whose name is the key up to case. *)
Definition find_field {A : Type} (fields : list (string * A)) (key : string) : option A :=
  match find_exact fields key with
  | Some d => Some d
  | None => find_fold fields key
  end.

(** One member of an object. *)
Definition dec_member {A : Type} (fields : list (string * dec A))
    (acc : A * option string) (member : string * json) : A * option string :=
  match find_field fields member.1 with
  | None => acc
  | Some d => let '(a, e) := d acc.1 member.2 in (a, first_error acc.2 e)
  end.

Definition dec_struct {A : Type} (path ty : string) (fields : list (string * dec A)) : dec A :=
  fun old j =>
    match j with
    | JObject members => foldl (dec_member fields) (old, None) members
    | JNull => (old, None)
    | _ => (old, Some (type_error j path ty))
    end.

(** Into a nil slice: one element for each element of the array, each
    decoded into a zero value. *)
Definition dec_elem {A : Type} (zero : A) (d : dec A)
    (acc : list A * option string) (j : json) : list A * option string :=
  let '(a, e) := d zero j in (acc.1 ++ [a], first_error acc.2 e).

Definition dec_slice {A : Type} (path ty : string) (zero : A) (d : dec A) : dec (list A) :=
  fun old j =>
    match j with
    | JArray elems => foldl (dec_elem zero d) ([], None) elems
    | JNull => ([], None)
    | _ => (old, Some (type_error j path ty))
    end.

(** [json.Unmarshal(b, &v)] with [v] holding [zero]. *)
Definition unmarshal {A : Type} (d : dec A) (zero : A) (b : string) : A + string :=
  match json_parse b with
  | inr msg => inr msg
  | inl j =>
      match d zero j with
      | (v, None) => inl v
      | (_, Some msg) => inr msg
      end
  end.

(** ** The struct types of main.go *)

(** main.go 211-219. *)
Definition dec_PapagoResult : dec PapagoResult :=
  dec_struct "PapagoResponse.message.result" "struct"
    [("translatedText",
      on_field TranslatedText (fun s _ => mkPapagoResult s)
        (dec_string "PapagoResponse.message.result.translatedText"))].

Definition dec_PapagoMessage : dec PapagoMessage :=
  dec_struct "PapagoResponse.message" "struct"
    [("result", on_field Result (fun r _ => mkPapagoMessage r) dec_PapagoResult)].

(** The three fields of [PapagoResponse], by their tags. *)
Definition response_fields : list (string * dec PapagoResponse) :=
  [("message",
    on_field Message (fun m r => mkPapagoResponse m (ErrorMsg r) (ErrorCode r))
      dec_PapagoMessage);
   ("errorMessage",
    on_field ErrorMsg (fun s r => mkPapagoResponse (Message r) s (ErrorCode r))
      (dec_string "PapagoResponse.errorMessage"));
   ("errorCode",
    on_field ErrorCode (fun s r => mkPapagoResponse (Message r) (ErrorMsg r) s)
      (dec_string "PapagoResponse.errorCode"))].

Definition dec_PapagoResponse : dec PapagoResponse :=
  dec_struct "" "main.PapagoResponse" response_fields.

(** main.go 255-259. *)
Definition unmarshal_PapagoResponse (b : string) : PapagoResponse + string :=
  unmarshal dec_PapagoResponse zeroPapagoResponse b.

(** main.go 59-62. *)
Definition dec_Secret : dec Secret :=
  dec_struct "" "main.Secret"
    [("clientId",
      on_field ClientId (fun s r => mkSecret s (ClientSecret r)) (dec_string "Secret.clientId"));
     ("clientSecret",
      on_field ClientSecret (fun s r => mkSecret (ClientId r) s)
        (dec_string "Secret.clientSecret"))].

(** main.go 84 and 89-93: [secret] is a nil slice. *)
Definition unmarshal_Secrets (b : string) : list Secret + string :=
  unmarshal (dec_slice "" "[]main.Secret" (mkSecret "" "") dec_Secret) [] b.

(** A service whose answers are decoded as main.go decodes them. *)
Definition with_json (base : Remote) : Remote := {|
  new_request := @new_request base;
  round_trip := @round_trip base;
  json_unmarshal := unmarshal_PapagoResponse
|}.

End rules.

(** ** What json.Marshal would write *)

(** A member tagged [omitempty] is left out when the string is empty. *)
Definition omitempty (name s : string) : list (string * json) :=
  if decide (s = "") then [] else [(name, JString s)].

Definition marshal_PapagoResponse (r : PapagoResponse) : json :=
  JObject
    ([("message",
       JObject [("result",
                 JObject [("translatedText", JString (TranslatedText (Result (Message r))))])])]
     ++ omitempty "errorMessage" (ErrorMsg r) ++ omitempty "errorCode" (ErrorCode r)).

Definition marshal_Secret (s : Secret) : json :=
  JObject [("clientId", JString (ClientId s)); ("clientSecret", JString (ClientSecret s))].

(** The two shapes of an answer of the service. *)
Definition success_shape (translated : string) : json :=
  JObject [("message", JObject [("result", JObject [("translatedText", JString translated)])])].

Definition error_shape (msg code : string) : json :=
  JObject [("errorMessage", JString msg); ("errorCode", JString code)].

(** ** A syntax for the witnesses

    Keys are compared as ASCII texts; the texts "quota", "auth" and
    "other" stand for an error of each kind and for an object with none
    of the fields, "<html>" is no JSON, and any other text stands for its
    translation between brackets, as with [Demo.remote]. *)
Module Script.

Definition lower (c : ascii) : ascii :=
  let n := nat_of_ascii c in
  if (65 <=? n)%nat && (n <=? 90)%nat then ascii_of_nat (n + 32) else c.

Fixpoint fold_ascii (s : string) : string :=
  match s with
  | EmptyString => EmptyString
  | String c s' => String (lower c) (fold_ascii s')
  end.

#[export] Instance syntax : JsonSyntax := {
  json_parse b :=
    if decide (b = "quota") then inl (error_shape "Query limit exceeded." "010")
    else if decide (b = "auth") then inl (error_shape "Authentication failed." "024")
    else if decide (b = "other") then inl (JObject [("error", JString "not found")])
    else if decide (b = "<html>") then inr "invalid character '<'"
    else inl (success_shape ("[" +:+ b +:+ "]"));
  equal_fold name key := bool_decide (fold_ascii name = fold_ascii key)
}.

End Script.

(** ** Decoders *)

Section decoders.
Context {syntax : JsonSyntax}.
Implicit Types (j : json) (members : list (string * json)) (b : string).

Lemma first_error_None_r e : first_error e None = e.
Proof. by destruct e. Qed.

(** A member whose key matches no field is skipped. *)
Lemma dec_member_skip {A} (fields : list (string * dec A)) acc member :
  find_field fields member.1 = None -> dec_member fields acc member = acc.
Proof. unfold dec_member. by intros ->. Qed.

Lemma foldl_dec_member_skip {A} (fields : list (string * dec A)) acc members :
  Forall (fun member => find_field fields member.1 = None) members ->
  foldl (dec_member fields) acc members = acc.
Proof.
  intros H. revert acc. induction H as [|member members Hm _ IH]; intros acc; simpl; [done|].
  by rewrite dec_member_skip, IH.
Qed.

(** Once a type error is met it is the error of the call. *)
Lemma foldl_dec_member_error {A} (fields : list (string * dec A)) acc members :
  is_Some acc.2 -> (foldl (dec_member fields) acc members).2 = acc.2.
Proof.
  revert acc. induction members as [|member members IH]; intros acc Hacc; simpl; [done|].
  assert ((dec_member fields acc member).2 = acc.2) as E.
  { unfold dec_member. destruct (find_field _ _) as [d|]; [|done].
    destruct (d acc.1 member.2) as [a e]. destruct Hacc as [msg ->]. done. }
  rewrite IH; [done|]. by rewrite E.
Qed.

(** Members that match no field can be left out of an object. *)
Lemma dec_struct_skip {A} path ty (fields : list (string * dec A)) old members1 skipped members2 :
  Forall (fun member => find_field fields member.1 = None) skipped ->
  dec_struct path ty fields old (JObject (members1 ++ skipped ++ members2))
  = dec_struct path ty fields old (JObject (members1 ++ members2)).
Proof.
  intros H. unfold dec_struct. rewrite !foldl_app. by rewrite (foldl_dec_member_skip _ _ skipped).
Qed.

(** A type error anywhere is the result of the call. *)
Lemma unmarshal_inl {A} (d : dec A) zero b v :
  unmarshal d zero b = inl v <-> exists j, json_parse b = inl j /\ d zero j = (v, None).
Proof.
  unfold unmarshal. destruct (json_parse b) as [j|msg].
  - destruct (d zero j) as [v' [msg|]] eqn:E; split; try done.
    + intros (j' & [= <-] & ?). congruence.
    + intros [= <-]. by exists j.
    + intros (j' & [= <-] & ?). congruence.
  - split; [done | by intros (j & ? & _)].
Qed.

Lemma dec_marshal_Secret s old : dec_Secret old (marshal_Secret s) = (s, None).
Proof. by destruct s, old. Qed.

Lemma dec_marshal_PapagoResponse r :
  dec_PapagoResponse zeroPapagoResponse (marshal_PapagoResponse r) = (r, None).
Proof.
  destruct r as [[[translated]] msg code]. unfold marshal_PapagoResponse, omitempty. simpl.
  by repeat case_decide; subst.
Qed.

Lemma dec_marshal_Secrets l acc :
  foldl (dec_elem (mkSecret "" "") dec_Secret) (acc, None) (map marshal_Secret l)
  = (acc ++ l, None).
Proof.
  revert acc. induction l as [|s l IH]; intros acc; simpl; [by rewrite app_nil_r|].
  unfold dec_elem at 2. rewrite dec_marshal_Secret. simpl. by rewrite IH, <- app_assoc.
Qed.

(** The file of the credentials, written by json.Marshal, is read
    back. *)
Lemma unmarshal_Secrets_marshal b l :
  json_parse b = inl (JArray (map marshal_Secret l)) -> unmarshal_Secrets b = inl l.
Proof.
  intros H. unfold unmarshal_Secrets, unmarshal. rewrite H. simpl.
  by rewrite dec_marshal_Secrets.
Qed.

(** The two shapes, and an object with none of the fields. *)
Lemma dec_success_shape translated :
  dec_PapagoResponse zeroPapagoResponse (success_shape translated)
  = (mkPapagoResponse (mkPapagoMessage (mkPapagoResult translated)) "" "", None).
Proof. done. Qed.

Lemma dec_error_shape msg code :
  dec_PapagoResponse zeroPapagoResponse (error_shape msg code)
  = (mkPapagoResponse (mkPapagoMessage (mkPapagoResult "")) msg code, None).
Proof. done. Qed.

Lemma dec_no_fields members :
  Forall (fun member => find_field response_fields member.1 = None) members ->
  dec_PapagoResponse zeroPapagoResponse (JObject members) = (zeroPapagoResponse, None).
Proof. apply foldl_dec_member_skip. Qed.

End decoders.

(** ** What [classify] makes of a reply *)

Section replies.
Context {syntax : JsonSyntax} (base : Remote).
Implicit Types (j : json) (b : string).

(** [classify] under [with_json], by the value of the body. *)
Lemma classify_with_json b j r :
  json_parse b = inl j -> dec_PapagoResponse zeroPapagoResponse j = (r, None) ->
  classify (remote := with_json base) (Replied b)
  = if decide (ErrorMsg r <> "") then
      if Contains (ErrorMsg r) "exceeded" then Quota
      else Failure (PapagoError (ErrorMsg r))
    else Text (TranslatedText (Result (Message r))).
Proof.
  intros Hp Hd. unfold classify. cbn [json_unmarshal with_json].
  unfold unmarshal_PapagoResponse, unmarshal. by rewrite Hp, Hd.
Qed.

(** A field of the wrong type makes the call fail, whatever the other
    fields hold. *)
Lemma classify_mismatch b literal members :
  json_parse b = inl (JObject (("errorMessage", JNumber literal) :: members)) ->
  exists msg, classify (remote := with_json base) (Replied b)
              = Failure (Foreign JsonUnmarshal msg).
Proof.
  intros Hp. unfold classify. cbn [json_unmarshal with_json].
  unfold unmarshal_PapagoResponse, unmarshal. rewrite Hp.
  unfold dec_PapagoResponse, dec_struct. cbn [foldl].
  destruct (foldl _ _ members) as [r e] eqn:E.
  apply (f_equal snd) in E. rewrite foldl_dec_member_error in E by done.
  simpl in E. subst e. by eexists.
Qed.

(** C28 (functional: the two shapes).  An answer of the success shape is
    classified as its translation; an answer of the error shape as a
    refusal for quota when its message contains "exceeded", and as a
    provider error with that message otherwise. *)
Theorem classify_shapes b :
  (forall translated,
     json_parse b = inl (success_shape translated) ->
     classify (remote := with_json base) (Replied b) = Text translated) /\
  (forall msg code,
     json_parse b = inl (error_shape msg code) -> msg <> "" ->
     classify (remote := with_json base) (Replied b)
     = if Contains msg "exceeded" then Quota else Failure (PapagoError msg)).
Proof.
  split.
  - intros translated Hp. by rewrite (classify_with_json b _ _ Hp (dec_success_shape translated)).
  - intros msg code Hp Hne.
    rewrite (classify_with_json b _ _ Hp (dec_error_shape msg code)). simpl.
    by rewrite decide_True.
Qed.

(** C36 (functional: neither shape).  An answer that is a JSON object
    with none of the fields of [PapagoResponse] (or [null]) is no error:
    [translate] takes the empty string as the translation, stores it in
    the cache and returns it. *)
Theorem translate_no_fields cfg secrets st content secret b members :
  content <> "" -> cache_lookup content st = None ->
  @new_request base "POST" papagoAPIEndpoint (request_body cfg content) = None ->
  current secrets st = Some secret ->
  @round_trip base (sent st) (request_for cfg content secret) = Replied b ->
  json_parse b = inl (JObject members) ->
  Forall (fun member => find_field response_fields member.1 = None) members ->
  translate (remote := with_json base) cfg secrets st content
  = Returned (cache_store content "" (record_request (request_for cfg content secret) st))
             ("", None).
Proof.
  intros Hne Hmiss Hreq Hs Hrt Hp Hm. unfold translate.
  destruct (length secrets - secretIdx st) as [|n]; cbn [translate_fuel];
    rewrite decide_False, Hmiss by done; cbn [new_request with_json];
    rewrite Hreq, Hs; fold (request_for cfg content secret); cbn [round_trip with_json];
    rewrite Hrt, (classify_with_json b _ _ Hp (dec_no_fields members Hm)); done.
Qed.

End replies.

(** ** Witnesses *)

Lemma classify_shapes_witness :
  classify (remote := with_json (syntax := Script.syntax) Demo.remote) (Replied "hello")
  = Text "[hello]" /\
  classify (remote := with_json (syntax := Script.syntax) Demo.remote) (Replied "quota")
  = Quota.
Proof.
  split.
  - by apply (proj1 (classify_shapes (syntax := Script.syntax) Demo.remote "hello")).
  - by apply (proj2 (classify_shapes (syntax := Script.syntax) Demo.remote "quota")
                "Query limit exceeded." "010").
Defined.

Lemma translate_no_fields_witness :
  translate (remote := with_json (syntax := Script.syntax)
               {| new_request _ _ _ := None;
                  round_trip _ _ := Replied "other";
                  json_unmarshal _ := inr "" |})
    Demo.cfg [Demo.fresh] initState "Hello there."
  = Returned (cache_store "Hello there." ""
                (record_request (request_for Demo.cfg "Hello there." Demo.fresh) initState))
             ("", None).
Proof.
  eapply (translate_no_fields (syntax := Script.syntax)); try done.
  repeat constructor.
Defined.
