(* ===== verification/Pipeline.v ===== *)
(** * Pipeline: the main loop of main.go and the choice of the log file

    - [mostRecentLog] (main.go 100-119): the scan of the directory
      entries that keeps the most recently modified ".log" file.
    - [accept] (main.go 130-149): the three filters of the loop, parsing,
      the start time and the chat codes ([foundChatCode]).
    - [emit] (main.go 151-170): the translation of the actor name when it
      is configured ([translate_actor]) and of the content, and the line
      printed.
    - [main_loop_body] and [main_loop]: one iteration and the loop over
      the lines the tail delivers; a panic of [translate] ends the loop.

    The start time [now] (main.go 122), the configuration and the secrets
    are parameters: they are read once, before the loop. *)

From stdpp Require Import base list strings gmap.
From Stdlib Require Import Ascii Lia ZArith.
From S2P Require Import Prelude GoStrings GoTime Types ParseLine Translate.

(** ** The log file *)

(** An entry of [os.ReadDir]: [Info] is the modification time, or [None]
    when [f.Info()] fails. *)
Record DirEntry : Type := mkDirEntry {
  IsDir : bool;
  Name : string;
  Info : option Time
}.

(** Whether the loop of main.go 104-119 looks at the time of an entry. *)
Definition candidate (f : DirEntry) : bool :=
  negb (IsDir f) && HasSuffix (Name f) ".log" && bool_decide (is_Some (Info f)).

(** One iteration of the loop, on [(logFileName, logFileTime)]. *)
Definition pick (best : string * Time) (f : DirEntry) : string * Time :=
  if IsDir f then best
  else if negb (HasSuffix (Name f) ".log") then best
  else
    match Info f with
    | None => best
    | Some modTime => if After modTime best.2 then (Name f, modTime) else best
    end.

Definition mostRecentLog (logFiles : list DirEntry) : string * Time :=
  foldl pick ("", zeroTime) logFiles.

(** ** The loop *)

(** main.go 140-146. *)
Fixpoint foundChatCode (targets : list string) (code : string) : bool :=
  match targets with
  | [] => false
  | targetChatCode :: rest =>
      if decide (code = targetChatCode) then true else foundChatCode rest code
  end.

(** [fmt.Printf("%s: %s\n\n", actor, translated)]. *)
Definition format_output (actor translated : string) : string :=
  actor +:+ ": " +:+ translated +:+ nl +:+ nl.

Section pipeline.
Context {remote : Remote} (cfg : ConfigStruct) (secrets : list Secret) (now : Time).

Definition accept (line : string) : option Log :=
  match parseLine line with
  | (_, Some _) => None
  | (l, None) =>
      if Before (Timestamp l) now then None
      else if foundChatCode (TargetChatCodes cfg) (LogCode l) then Some l
      else None
  end.

(** main.go 152-165. *)
Definition translate_actor (st : State) (l : Log) : outcome State string :=
  if TranslateActorName cfg then
    call (st1, r) <- translate cfg secrets st (ActorName l);
    match r.2 with
    | Some err =>
        Returned (log (Errorf err "translate error when translating actor name") st1)
                 (ActorName l)
    | None => Returned st1 r.1
    end
  else Returned st (ActorName l).

(** main.go 151-170. *)
Definition emit (st : State) (l : Log) : outcome State unit :=
  call (st1, actor) <- translate_actor st l;
  call (st2, r) <- translate cfg secrets st1 (Content l);
  let st3 := match r.2 with
             | Some err => log (Errorf err "translate error") st2
             | None => st2
             end in
  Returned (print (format_output actor r.1) st3) tt.

(** main.go 129-171, one iteration. *)
Definition main_loop_body (st : State) (line : string) : outcome State unit :=
  match accept line with
  | None => Returned st tt
  | Some l => emit st l
  end.

(** The loop over the lines delivered so far. *)
Fixpoint main_loop (lines : list string) (st : State) : outcome State unit :=
  match lines with
  | [] => Returned st tt
  | line :: rest =>
      call (st', _u) <- main_loop_body st line;
      main_loop rest st'
  end.

End pipeline.

(** ** The filters *)

Lemma foundChatCode_elem targets code : foundChatCode targets code = true <-> code ∈ targets.
Proof.
  induction targets as [|t ts IH]; simpl.
  - split; [done | by intros ?%elem_of_nil].
  - case_decide as Hc; [subst|].
    + split; [intros _; by left | done].
    + rewrite IH, elem_of_cons. split; [by right | by intros [?|?]].
Qed.

Section pipeline_lemmas.
Context {remote : Remote} (cfg : ConfigStruct) (secrets : list Secret) (now : Time).
Implicit Types (st : State) (l : Log) (line : string) (lines : list string).

Lemma accept_inv line l :
  accept cfg now line = Some l ->
  parseLine line = (l, None) /\ Before (Timestamp l) now = false /\
  foundChatCode (TargetChatCodes cfg) (LogCode l) = true.
Proof.
  unfold accept. destruct (parseLine line) as [l' [e|]]; [done|].
  destruct (Before _ _) eqn:EB; [done|]. destruct (foundChatCode _ _) eqn:E; [|done].
  by intros [= <-].
Qed.

Lemma accept_intro line l :
  parseLine line = (l, None) -> Before (Timestamp l) now = false ->
  foundChatCode (TargetChatCodes cfg) (LogCode l) = true ->
  accept cfg now line = Some l.
Proof. unfold accept. by intros -> -> ->. Qed.

(** ** One line *)

Lemma translate_actor_final st st' l :
  final (translate_actor cfg secrets st l) = Some st' ->
  evolves secrets st st' /\ stdout st' = stdout st.
Proof.
  unfold translate_actor. destruct (TranslateActorName cfg); [|by intros [= <-]].
  destruct (translate cfg secrets st (ActorName l)) as [st1 [text [e|]]|st1 p|] eqn:E;
    simpl; intros [= <-];
    (assert (final (translate cfg secrets st (ActorName l)) = Some st1) as H
       by (by rewrite E));
    pose proof (translate_final_evolves cfg _ _ _ _ H);
    pose proof (translate_final_stdout cfg _ _ _ _ H); split; try done.
  etrans; [done | apply evolves_log].
Qed.

Lemma translate_actor_terminates st l :
  terminates (translate_actor cfg secrets st l) = true.
Proof.
  unfold translate_actor. destruct (TranslateActorName cfg); [|done].
  apply bind_terminates; [apply translate_total|].
  intros st1 [text [e|]]; done.
Qed.

(** How [emit] returns: both translations returned, and the line was
    printed after the error of the second, if any, was logged. *)
Lemma emit_Returned_inv st st' l :
  emit cfg secrets st l = Returned st' tt ->
  exists st1 actor st2 translated err,
    translate_actor cfg secrets st l = Returned st1 actor /\
    translate cfg secrets st1 (Content l) = Returned st2 (translated, err) /\
    st' = print (format_output actor translated)
            (match err with
             | Some e => log (Errorf e "translate error") st2
             | None => st2
             end).
Proof.
  unfold emit. intros (st1 & actor & Ha & H)%bind_Returned_inv.
  apply bind_Returned_inv in H as (st2 & [translated err] & Ht & [= <-]).
  by exists st1, actor, st2, translated, err.
Qed.

(** How [emit] panics: in one of the two translations, before anything
    is printed. *)
Lemma emit_Panicked_inv st st' l p :
  emit cfg secrets st l = Panicked st' p ->
  translate_actor cfg secrets st l = Panicked st' p \/
  exists st1 actor,
    translate_actor cfg secrets st l = Returned st1 actor /\
    translate cfg secrets st1 (Content l) = Panicked st' p.
Proof.
  unfold emit. intros [H|(st1 & actor & Ha & H)]%bind_Panicked_inv; [by left|right].
  apply bind_Panicked_inv in H as [H|(st2 & r & _ & H)]; [|done].
  by exists st1, actor.
Qed.

Lemma emit_terminates st l : terminates (emit cfg secrets st l) = true.
Proof.
  unfold emit. apply bind_terminates; [apply translate_actor_terminates|].
  intros st1 actor. apply bind_terminates; [apply translate_total | done].
Qed.

(** The state after [emit]: an extension, with one line more on the
    output when it returned and none when it panicked. *)
Lemma emit_final st st' l :
  final (emit cfg secrets st l) = Some st' ->
  evolves secrets st st' /\
  length (stdout st') = length (stdout st) + (if returned (emit cfg secrets st l) then 1 else 0).
Proof.
  destruct (emit cfg secrets st l) as [st0 []|st0 p|] eqn:E; simpl; intros [= <-].
  - apply emit_Returned_inv in E as (st1 & actor & st2 & translated & err & Ha & Ht & ->).
    assert (final (translate_actor cfg secrets st l) = Some st1) as Ha' by (by rewrite Ha).
    assert (final (translate cfg secrets st1 (Content l)) = Some st2) as Ht' by (by rewrite Ht).
    apply translate_actor_final in Ha' as [Ha1 Ha2].
    pose proof (translate_final_evolves cfg _ _ _ _ Ht') as Ht1.
    pose proof (translate_final_stdout cfg _ _ _ _ Ht') as Ht2.
    split.
    + etrans; [done|]. etrans; [done|]. etrans; [|apply evolves_print].
      destruct err; [apply evolves_log | done].
    + simpl. rewrite length_app. simpl. destruct err; simpl; rewrite Ht2, Ha2; lia.
  - apply emit_Panicked_inv in E as [Ha|(st1 & actor & Ha & Ht)].
    + assert (final (translate_actor cfg secrets st l) = Some st0) as Ha' by (by rewrite Ha).
      apply translate_actor_final in Ha' as [Ha1 Ha2]. split; [done|]. rewrite Ha2. lia.
    + assert (final (translate_actor cfg secrets st l) = Some st1) as Ha' by (by rewrite Ha).
      assert (final (translate cfg secrets st1 (Content l)) = Some st0) as Ht' by (by rewrite Ht).
      apply translate_actor_final in Ha' as [Ha1 Ha2].
      pose proof (translate_final_evolves cfg _ _ _ _ Ht') as Ht1.
      pose proof (translate_final_stdout cfg _ _ _ _ Ht') as Ht2.
      split; [by etrans|]. rewrite Ht2, Ha2. lia.
Qed.

(** [emit] panics only on the exhaustion of the credentials. *)
Lemma emit_Panicked_exhausted st st' l p :
  emit cfg secrets st l = Panicked st' p ->
  p = IndexOutOfRange (secretIdx st') (length secrets) /\ length secrets <= secretIdx st'.
Proof.
  intros [Ha|(st1 & actor & Ha & Ht)]%emit_Panicked_inv.
  - unfold translate_actor in Ha. destruct (TranslateActorName cfg); [|done].
    apply bind_Panicked_inv in Ha as [Ha|(st1 & [text [e|]] & _ & Ha)]; [|done..].
    by eapply translate_Panicked_inv.
  - by eapply translate_Panicked_inv.
Qed.

(** ** The loop *)

Lemma main_loop_body_final st st' line :
  final (main_loop_body cfg secrets now st line) = Some st' ->
  evolves secrets st st' /\
  length (stdout st') = length (stdout st) +
    (if returned (main_loop_body cfg secrets now st line)
     then length (option_list (accept cfg now line)) else 0).
Proof.
  unfold main_loop_body. destruct (accept cfg now line) as [l|]; simpl.
  - intros [? ->]%emit_final. split; [done|]. by destruct (returned _).
  - intros [= <-]. split; [done | lia].
Qed.

Lemma main_loop_app lines1 lines2 st :
  main_loop cfg secrets now (lines1 ++ lines2) st
  = bind (main_loop cfg secrets now lines1 st)
         (fun st' _ => main_loop cfg secrets now lines2 st').
Proof.
  revert st. induction lines1 as [|line lines1 IH]; intros st; simpl; [done|].
  rewrite bind_assoc. by destruct (main_loop_body _ _ _ _ _) as [st1 []| |]; simpl.
Qed.

Lemma main_loop_terminates lines st :
  terminates (main_loop cfg secrets now lines st) = true.
Proof.
  revert st. induction lines as [|line lines IH]; intros st; simpl; [done|].
  apply bind_terminates; [|auto]. unfold main_loop_body.
  destruct (accept _ _ _); [apply emit_terminates | done].
Qed.

Lemma main_loop_final lines st st' :
  final (main_loop cfg secrets now lines st) = Some st' ->
  evolves secrets st st' /\
  length (stdout st') <= length (stdout st) + length (omap (accept cfg now) lines) /\
  (returned (main_loop cfg secrets now lines st) = true ->
   length (stdout st') = length (stdout st) + length (omap (accept cfg now) lines)).
Proof.
  revert st. induction lines as [|line lines IH]; intros st.
  { simpl. intros [= <-]. split; [done|]. split; lia. }
  rewrite omap_cons_length. cbn [main_loop].
  destruct (main_loop_body cfg secrets now st line) as [st1 []|st1 p|] eqn:E;
    cbn [bind final returned]; [| |done];
    (assert (final (main_loop_body cfg secrets now st line) = Some st1)
       as [H1 H2]%main_loop_body_final by (by rewrite E));
    rewrite E in H2; cbn [returned] in H2.
  - intros (H3 & H4 & H5)%IH. split; [by etrans|]. split; [lia|]. intros ?%H5. lia.
  - intros [= <-]. split; [done|]. split; [lia | done].
Qed.

End pipeline_lemmas.

(** ** The choice of the log file *)

Section mostRecentLog.
Implicit Types (f : DirEntry) (best : string * Time) (logFiles : list DirEntry).

Lemma pick_candidate best f :
  pick best f =
    match Info f with
    | Some modTime =>
        if candidate f && After modTime best.2 then (Name f, modTime) else best
    | None => best
    end.
Proof.
  unfold pick, candidate. destruct (IsDir f), (HasSuffix _ _), (Info f) as [m|]; simpl;
    try done; by destruct (After _ _).
Qed.

(** The scan from [best]: the result is at least as recent as [best] and
    as every candidate, and it is [best] or a candidate that is strictly
    more recent than [best]. *)
Lemma foldl_pick logFiles best :
  let r := foldl pick best logFiles in
  (nanos best.2 <= nanos r.2)%Z /\
  (forall f m, f ∈ logFiles -> candidate f = true -> Info f = Some m ->
     (nanos m <= nanos r.2)%Z) /\
  (r = best \/
   exists f, f ∈ logFiles /\ candidate f = true /\ Name f = r.1 /\ Info f = Some r.2 /\
     (nanos best.2 < nanos r.2)%Z).
Proof.
  revert best. induction logFiles as [|f logFiles IH]; intros best; simpl.
  { split; [lia|]. split; [by intros f m ?%elem_of_nil | by left]. }
  specialize (IH (pick best f)). destruct IH as (IH1 & IH2 & IH3).
  rewrite pick_candidate in *.
  destruct (Info f) as [modTime|] eqn:Ei.
  - destruct (candidate f) eqn:Ec; simpl in *.
    + destruct (After modTime best.2) eqn:Ea; simpl in *.
      * apply After_true_iff in Ea. split; [lia|]. split.
        -- intros g m [->|Hg]%elem_of_cons Hc Hm; [|by eapply IH2].
           rewrite Ei in Hm. injection Hm as <-. lia.
        -- right. destruct IH3 as [->|(g & Hg & Hc & Hn & Hi & Hlt)].
           ++ exists f. simpl. rewrite elem_of_cons. auto.
           ++ exists g. rewrite elem_of_cons. repeat split; auto. lia.
      * apply After_false_iff in Ea. split; [done|]. split.
        -- intros g m [->|Hg]%elem_of_cons Hc Hm; [|by eapply IH2].
           rewrite Ei in Hm. injection Hm as <-. lia.
        -- destruct IH3 as [->|(g & Hg & Hc & Hn & Hi & Hlt)]; [by left|right].
           exists g. rewrite elem_of_cons. auto.
    + split; [done|]. split.
      * intros g m [->|Hg]%elem_of_cons Hc Hm; [congruence | by eapply IH2].
      * destruct IH3 as [->|(g & Hg & Hc & Hn & Hi & Hlt)]; [by left|right].
        exists g. rewrite elem_of_cons. auto.
  - split; [done|]. split.
    + intros g m [->|Hg]%elem_of_cons Hc Hm; [congruence | by eapply IH2].
    + destruct IH3 as [->|(g & Hg & Hc & Hn & Hi & Hlt)]; [by left|right].
      exists g. rewrite elem_of_cons. auto.
Qed.

End mostRecentLog.

(** ** Properties of the loop *)

Section pipeline_properties.
Context {remote : Remote} (cfg : ConfigStruct) (secrets : list Secret) (now : Time).
Implicit Types (st : State) (l : Log) (line : string) (lines : list string).

(** Ordering.  What the loop has printed and sent after some lines
    is a prefix of what it has printed and sent after more lines: later
    lines never change or overtake the output of earlier ones. *)
Theorem main_loop_order lines1 lines2 st st1 st2 :
  final (main_loop cfg secrets now lines1 st) = Some st1 ->
  final (main_loop cfg secrets now (lines1 ++ lines2) st) = Some st2 ->
  stdout st1 `prefix_of` stdout st2 /\ sent st1 `prefix_of` sent st2 /\
  secretIdx st1 <= secretIdx st2.
Proof.
  rewrite main_loop_app.
  destruct (main_loop cfg secrets now lines1 st) as [s []|s p|]; simpl; intros [= ->] H.
  - by apply main_loop_final in H as [[[] _] _].
  - by injection H as ->.
Qed.

(** C15 (functional: the filters).  A line is accepted exactly when it
    parses, its timestamp is not before the start of the process (a line
    stamped with the very instant of the start is accepted), and its chat
    code is one of the configured codes, compared as a whole. *)
Theorem accept_spec line l :
  accept cfg now line = Some l <->
  parseLine line = (l, None) /\ (nanos now <= nanos (Timestamp l))%Z /\
  LogCode l ∈ TargetChatCodes cfg.
Proof.
  rewrite <- Before_false_iff, <- foundChatCode_elem. split.
  - apply accept_inv.
  - intros (? & ? & ?). by apply accept_intro.
Qed.

(** Dropped lines.  A line that does not parse, is older
    than the start, or has another chat code is skipped: nothing is
    translated, sent, logged or printed. *)
Theorem main_loop_body_dropped st line :
  snd (parseLine line) <> None \/
  (nanos (Timestamp (fst (parseLine line))) < nanos now)%Z \/
  LogCode (fst (parseLine line)) ∉ TargetChatCodes cfg ->
  main_loop_body cfg secrets now st line = Returned st tt.
Proof.
  intros H. unfold main_loop_body.
  destruct (accept cfg now line) as [l|] eqn:E; [exfalso|done].
  apply accept_inv in E as (Hp & Hb & Hf). rewrite Hp in H. simpl in H.
  apply Before_false_iff in Hb. apply foundChatCode_elem in Hf.
  destruct H as [?|[?|?]]; [done | lia | done].
Qed.

(** C17 (functional: the line printed).  An accepted line whose iteration
    returns has printed exactly one text, "actor: translated" and an
    empty line; the actor is the name in the log unless names are
    translated, and the translated text is empty or the cached
    translation of the content. *)
Theorem main_loop_body_prints st st' line l :
  accept cfg now line = Some l ->
  main_loop_body cfg secrets now st line = Returned st' tt ->
  exists actor translated,
    stdout st' = stdout st ++ [format_output actor translated] /\
    (TranslateActorName cfg = false -> actor = ActorName l) /\
    (translated = "" \/ cache_lookup (Content l) st' = Some translated).
Proof.
  intros Ha. unfold main_loop_body. rewrite Ha.
  intros (st1 & actor & st2 & translated & err & Hact & Ht & ->)%emit_Returned_inv.
  exists actor, translated. split; [|split].
  - assert (final (translate_actor cfg secrets st l) = Some st1) as [_ H1]%translate_actor_final
      by (by rewrite Hact).
    assert (final (translate cfg secrets st1 (Content l)) = Some st2) as H2%translate_final_stdout
      by (by rewrite Ht).
    simpl. destruct err; simpl; by rewrite H2, H1.
  - intros Hcfg. unfold translate_actor in Hact. rewrite Hcfg in Hact. by injection Hact.
  - destruct err as [e|].
    + left. pose proof (translate_cache cfg secrets st1 (Content l)) as Hc.
      rewrite Ht in Hc. by destruct Hc.
    + destruct (decide (Content l = "")) as [Hempty|Hne].
      * left. pose proof (translate_cache cfg secrets st1 (Content l)) as Hc.
        rewrite Ht, decide_True in Hc by done. by destruct Hc.
      * right. eapply translate_cached; [done..|]. apply extends_print.
Qed.

(** The only crash.  Started with the cursor within the
    credentials, the loop panics only when they are exhausted: the panic
    is the index [len(secrets)] out of range, and the cursor is there. *)
Theorem main_loop_crash lines st st' p :
  secretIdx st <= length secrets ->
  main_loop cfg secrets now lines st = Panicked st' p ->
  p = IndexOutOfRange (length secrets) (length secrets) /\ secretIdx st' = length secrets.
Proof.
  revert st. induction lines as [|line lines IH]; intros st Hle; simpl; [done|].
  destruct (main_loop_body cfg secrets now st line) as [st1 []|st1 p1|] eqn:E; simpl; [| |done].
  - assert (final (main_loop_body cfg secrets now st line) = Some st1) as [[_ Hb] _]%main_loop_body_final
      by (by rewrite E).
    apply IH. auto.
  - intros [= <- <-].
    assert (final (main_loop_body cfg secrets now st line) = Some st1) as [[_ Hb] _]%main_loop_body_final
      by (by rewrite E).
    unfold main_loop_body in E. destruct (accept cfg now line); [|done].
    apply emit_Panicked_exhausted in E as [-> Hge].
    assert (secretIdx st1 = length secrets) as -> by (specialize (Hb Hle); lia). done.
Qed.

(** One output per accepted line.  When the loop has
    gone through the lines, it has printed one text for each line it
    accepted, and nothing for the others. *)
Theorem main_loop_output_count lines st st' :
  main_loop cfg secrets now lines st = Returned st' tt ->
  length (stdout st') = length (stdout st) + length (omap (accept cfg now) lines).
Proof.
  intros H.
  assert (final (main_loop cfg secrets now lines st) = Some st') as (_ & _ & Hc)%main_loop_final
    by (by rewrite H).
  apply Hc. by rewrite H.
Qed.

(** A panic ends the loop.  Once an iteration has panicked,
    no later line is read: the outcome and the state are those of the
    panic, whatever follows in the file. *)
Theorem main_loop_panic_stops lines1 lines2 st st' p :
  main_loop cfg secrets now lines1 st = Panicked st' p ->
  main_loop cfg secrets now (lines1 ++ lines2) st = Panicked st' p.
Proof. intros H. rewrite main_loop_app. by rewrite H. Qed.

(** The same content twice.  Two accepted lines with
    the same content cost the requests of one translation: the second
    line is answered from the cache and both lines print the same
    translation, each under its own actor. *)
Theorem main_loop_same_content st st1 line1 line2 l1 l2 text :
  TranslateActorName cfg = false ->
  accept cfg now line1 = Some l1 -> accept cfg now line2 = Some l2 ->
  Content l2 = Content l1 -> Content l1 <> "" ->
  translate cfg secrets st (Content l1) = Returned st1 (text, None) ->
  exists st2,
    main_loop cfg secrets now [line1; line2] st = Returned st2 tt /\
    sent st2 = sent st1 /\
    stdout st2 = stdout st ++ [format_output (ActorName l1) text;
                               format_output (ActorName l2) text].
Proof.
  intros Hcfg H1 H2 Hsame Hne Ht.
  assert (stdout st1 = stdout st) as Hout
    by (apply (translate_final_stdout cfg secrets _ _ (Content l1)); by rewrite Ht).
  unfold main_loop, main_loop_body. rewrite H1. unfold emit, translate_actor.
  rewrite Hcfg. simpl. rewrite Ht. simpl. rewrite H2, Hsame.
  rewrite (translate_hit cfg _ _ _ text); [|done|].
  - simpl. eexists. split; [done|]. split; [done|]. simpl.
    by rewrite Hout, <- app_assoc.
  - eapply translate_cached; [done..|]. apply extends_print.
Qed.

(** The actor name.  With the translation of names on, a
    name whose translation fails is printed untranslated: the error is
    logged and the content is translated as usual. *)
Theorem emit_actor_fallback st st1 st2 l text e translated :
  TranslateActorName cfg = true ->
  translate cfg secrets st (ActorName l) = Returned st1 (text, Some e) ->
  translate cfg secrets
    (log (Errorf e "translate error when translating actor name") st1) (Content l)
  = Returned st2 (translated, None) ->
  emit cfg secrets st l
  = Returned (print (format_output (ActorName l) translated) st2) tt.
Proof.
  intros Hcfg Ha Ht. unfold emit, translate_actor. rewrite Hcfg, Ha. simpl.
  by rewrite Ht.
Qed.

(** C23 (error: the content).  A content whose translation fails is still
    printed, with an empty text after the actor, after the error was
    logged; the loop goes on. *)
Theorem emit_content_error st st1 st2 l actor text e :
  translate_actor cfg secrets st l = Returned st1 actor ->
  translate cfg secrets st1 (Content l) = Returned st2 (text, Some e) ->
  emit cfg secrets st l
  = Returned (print (format_output actor "") (log (Errorf e "translate error") st2)) tt.
Proof.
  intros Ha Ht. unfold emit. rewrite Ha. simpl. rewrite Ht. simpl.
  pose proof (translate_cache cfg secrets st1 (Content l)) as Hc. rewrite Ht in Hc.
  by destruct Hc as [-> _].
Qed.

(** The start instant.  A line stamped with the very
    instant the process started is accepted: only lines strictly before
    the start are dropped. *)
Theorem accept_at_start line l :
  parseLine line = (l, None) -> Timestamp l = now ->
  LogCode l ∈ TargetChatCodes cfg ->
  accept cfg now line = Some l.
Proof.
  intros Hp Ht Hc. apply accept_intro; [done| |by apply foundChatCode_elem].
  rewrite Ht. apply Before_irrefl.
Qed.

End pipeline_properties.

(** ** Properties of the choice of the log file *)

(** The most recent file.  No ".log" file of the
    directory is more recent than the one chosen, and when such a file
    exists (modified after the zero time) the name and the time chosen
    are those of one of them. *)
Lemma mostRecentLog_max logFiles f m :
  f ∈ logFiles -> candidate f = true -> Info f = Some m ->
  (nanos m <= nanos (mostRecentLog logFiles).2)%Z /\
  ((nanos zeroTime < nanos m)%Z ->
   exists g, g ∈ logFiles /\ candidate g = true /\
     Name g = (mostRecentLog logFiles).1 /\ Info g = Some (mostRecentLog logFiles).2).
Proof.
  intros Hf Hc Hm. unfold mostRecentLog.
  destruct (foldl_pick logFiles ("", zeroTime)) as (_ & Hmax & Hr).
  specialize (Hmax f m Hf Hc Hm). split; [done|]. intros Hpos.
  destruct Hr as [Hr|(g & Hg & Hgc & Hn & Hi & _)]; [|by exists g].
  rewrite Hr in Hmax. simpl in *. lia.
Qed.

(** No log file.  When the directory holds no ".log" file
    whose time can be read, the name chosen is the empty string: the
    program goes on and tails the directory itself. *)
Lemma mostRecentLog_none logFiles :
  (forall f, f ∈ logFiles -> candidate f = false) ->
  mostRecentLog logFiles = ("", zeroTime).
Proof.
  intros Hnone. unfold mostRecentLog.
  destruct (foldl_pick logFiles ("", zeroTime)) as (_ & _ & [Hr|(g & Hg & Hgc & _)]); [done|].
  rewrite (Hnone g Hg) in Hgc. done.
Qed.

(** C24 (functional: the log file).  The choice of the log file, in its
    two cases.  No ".log" file of the directory is more recent than the
    one chosen, and when one was modified after the zero time the name
    and the time chosen are those of such a file.  When the directory
    holds no ".log" file whose time can be read, no error is raised: the
    name chosen is the empty string, and the program goes on to tail the
    directory itself. *)
Theorem mostRecentLog_spec logFiles :
  (forall f m,
     f ∈ logFiles -> candidate f = true -> Info f = Some m ->
     (nanos m <= nanos (mostRecentLog logFiles).2)%Z /\
     ((nanos zeroTime < nanos m)%Z ->
      exists g, g ∈ logFiles /\ candidate g = true /\
        Name g = (mostRecentLog logFiles).1 /\ Info g = Some (mostRecentLog logFiles).2)) /\
  ((forall f, f ∈ logFiles -> candidate f = false) ->
   mostRecentLog logFiles = ("", zeroTime)).
Proof.
  split.
  - intros f m. apply mostRecentLog_max.
  - apply mostRecentLog_none.
Qed.

(** ** Witnesses, on the scripted service

    The process started 22 seconds before the sample line of main.go was
    written; the chat codes 003D and 000A are configured. *)
Module Run.

Definition now : Time := mkTime 63802034000000000000.
Definition line1 : string := "00|2022-10-22T20:13:42.0000000+09:00|003D|Name|Hello there.|abc123".
Definition line2 : string := "00|2022-10-22T20:13:50.0000000+09:00|000A|Other|Hello there.|def456".
Definition old : string := "00|2022-10-22T20:00:00.0000000+09:00|003D|Name|Old news|0".
Definition battle : string := "00|2022-10-22T20:13:42.0000000+09:00|0044|Name|You use Cure.|0".
Definition garbage : string := "not a log line".
Definition asks : string := "00|2022-10-22T20:13:42.0000000+09:00|003D|Who?|Hello there.|0".
Definition asked : string := "00|2022-10-22T20:13:42.0000000+09:00|003D|Name|What?|0".

Definition log1 : Log := mkLog (mkTime 63802034022000000000) "003D" "Name" "Hello there.".
Definition log2 : Log := mkLog (mkTime 63802034030000000000) "000A" "Other" "Hello there.".

(** The configuration of [Demo.cfg] with the translation of names on. *)
Definition cfg_names : ConfigStruct := mkConfig "logs" ["003D"; "000A"] "secret.json" "ja" "ko" true.

(** The states after [line1], and after [line1] and [line2]. *)
Definition after1 : State :=
  print (format_output "Name" (Demo.reply "Hello there.")) (Demo.served "Hello there.").
Definition after2 : State :=
  print (format_output "Other" (Demo.reply "Hello there."))
    (log (Debugf "using translation cache: Hello there.") after1).

(** The state in which [line1] panics when both credentials are spent. *)
Definition crashed : State :=
  Spec.rotations Demo.cfg "Hello there." [Demo.spent1; Demo.spent2] initState.

Definition listing : list DirEntry :=
  [mkDirEntry true "archive.log" (Some (mkTime 90));
   mkDirEntry false "Network_1.log" (Some (mkTime 50));
   mkDirEntry false "notes.txt" (Some (mkTime 95));
   mkDirEntry false "Network_2.log" (Some (mkTime 70));
   mkDirEntry false "Network_3.log" None].

End Run.

Lemma main_loop_order_witness :
  stdout Run.after1 `prefix_of` stdout Run.after2 /\
  sent Run.after1 `prefix_of` sent Run.after2 /\
  secretIdx Run.after1 <= secretIdx Run.after2.
Proof.
  apply (main_loop_order (remote := Demo.remote) Demo.cfg Demo.secrets Run.now
           [Run.line1] [Run.line2] initState); vm_compute; reflexivity.
Defined.

Lemma main_loop_body_dropped_witness :
  main_loop_body (remote := Demo.remote) Demo.cfg Demo.secrets Run.now initState Run.old
  = Returned initState tt.
Proof. apply main_loop_body_dropped. right. left. vm_compute. reflexivity. Defined.

Lemma main_loop_body_prints_witness :
  exists actor translated,
    stdout Run.after1 = stdout initState ++ [format_output actor translated] /\
    (TranslateActorName Demo.cfg = false -> actor = ActorName Run.log1) /\
    (translated = "" \/ cache_lookup (Content Run.log1) Run.after1 = Some translated).
Proof.
  apply (main_loop_body_prints (remote := Demo.remote) Demo.cfg Demo.secrets Run.now
           initState Run.after1 Run.line1 Run.log1); vm_compute; reflexivity.
Defined.

Lemma main_loop_crash_witness :
  IndexOutOfRange 2 2
  = IndexOutOfRange (length [Demo.spent1; Demo.spent2]) (length [Demo.spent1; Demo.spent2]) /\
  secretIdx Run.crashed = length [Demo.spent1; Demo.spent2].
Proof.
  apply (main_loop_crash (remote := Demo.remote) Demo.cfg [Demo.spent1; Demo.spent2] Run.now
           [Run.garbage; Run.line1; Run.line2] initState Run.crashed (IndexOutOfRange 2 2)).
  - simpl. lia.
  - vm_compute. reflexivity.
Defined.

Lemma main_loop_output_count_witness :
  length (stdout Run.after2)
  = length (stdout initState)
    + length (omap (accept Demo.cfg Run.now)
                [Run.garbage; Run.old; Run.line1; Run.battle; Run.line2]).
Proof.
  apply (main_loop_output_count (remote := Demo.remote) Demo.cfg Demo.secrets Run.now).
  vm_compute. reflexivity.
Defined.

Lemma main_loop_panic_stops_witness :
  main_loop (remote := Demo.remote) Demo.cfg [Demo.spent1; Demo.spent2] Run.now
    ([Run.line1] ++ [Run.line2]) initState
  = Panicked Run.crashed (IndexOutOfRange 2 2).
Proof. apply main_loop_panic_stops. vm_compute. reflexivity. Defined.

Lemma main_loop_same_content_witness :
  exists st2,
    main_loop (remote := Demo.remote) Demo.cfg Demo.secrets Run.now [Run.line1; Run.line2] initState
    = Returned st2 tt /\
    sent st2 = sent (Demo.served "Hello there.") /\
    stdout st2 = stdout initState
                 ++ [format_output (ActorName Run.log1) (Demo.reply "Hello there.");
                     format_output (ActorName Run.log2) (Demo.reply "Hello there.")].
Proof.
  apply (main_loop_same_content (remote := Demo.remote) Demo.cfg Demo.secrets Run.now
           initState (Demo.served "Hello there.") Run.line1 Run.line2 Run.log1 Run.log2);
    try done; vm_compute; reflexivity.
Defined.

Lemma emit_actor_fallback_witness :
  exists st2,
    emit (remote := Demo.remote) Run.cfg_names [Demo.fresh] initState
      (mkLog Run.now "003D" "Who?" "Hello there.")
    = Returned (print (format_output "Who?" (Demo.reply "Hello there.")) st2) tt.
Proof.
  eexists.
  eapply (emit_actor_fallback (remote := Demo.remote) Run.cfg_names [Demo.fresh] initState);
    [done | vm_compute; reflexivity | vm_compute; reflexivity].
Defined.

Lemma emit_content_error_witness :
  exists st2 e,
    emit (remote := Demo.remote) Demo.cfg [Demo.fresh] initState
      (mkLog Run.now "003D" "Name" "What?")
    = Returned (print (format_output "Name" "") (log (Errorf e "translate error") st2)) tt.
Proof.
  eexists _, _.
  eapply (emit_content_error (remote := Demo.remote) Demo.cfg [Demo.fresh] initState);
    vm_compute; reflexivity.
Defined.

Lemma mostRecentLog_spec_witness :
  ((nanos (mkTime 50) <= nanos (mostRecentLog Run.listing).2)%Z /\
   ((nanos zeroTime < nanos (mkTime 50))%Z ->
    exists g, g ∈ Run.listing /\ candidate g = true /\
      Name g = (mostRecentLog Run.listing).1 /\ Info g = Some (mostRecentLog Run.listing).2)) /\
  mostRecentLog [mkDirEntry true "archive.log" (Some (mkTime 90));
                 mkDirEntry false "notes.txt" (Some (mkTime 95))]
  = ("", zeroTime).
Proof.
  split.
  - apply (proj1 (mostRecentLog_spec Run.listing)
             (mkDirEntry false "Network_1.log" (Some (mkTime 50)))); [| done..].
    apply list_elem_of_lookup. by exists 1.
  - apply (proj2 (mostRecentLog_spec _)). intros f Hf.
    repeat (apply elem_of_cons in Hf as [->|Hf]; [done|]). by apply elem_of_nil in Hf.
Defined.

Lemma accept_at_start_witness :
  accept Demo.cfg (mkTime 63802034022000000000) Run.line1 = Some Run.log1.
Proof. apply accept_at_start; [vm_compute; reflexivity | done |]. apply list_elem_of_lookup. by exists 0. Defined.
