(* ===== verification/Process.v ===== *)
(** * Process: the running program as a state machine, and what holds of
    every state it reaches

    - [step] and [crash]: one iteration of the loop of main (main.go
      129-171) as a relation between states, with a rule for each way
      through the body; [reachable] is its closure from [initState].
    - [Stable]: the predicates on states that every operation of the
      program keeps.  A predicate is shown stable once, on the five
      elementary transitions (a line logged, a line printed, and the three
      answers to a request); the lemmas of this file carry it through
      [translate], [emit], the loop and the relation [step].
    - [history]: how the requests sent and the cursor [secretIdx] are
      generated together, by rule: every request is made with the
      credential under the cursor, and the cursor moves exactly when the
      answer is a refusal for quota.
    - [inv]: the invariant of the process, the history, the soundness of
      the cache ([cache_sound]: every entry is an answer the service gave
      for that text), the log of the rotations ([rotations_logged]) and
      the size of the cache ([cache_counted]: one entry for each
      translation received).

    The relation and the executable loop reach the same states (lemmas
    [main_loop_rtc] and [rtc_main_loop]: the rules of [step] are the ways
    through [main_loop_body], so this is how the two are tied, not a
    property of the program).  Theorems: every reachable state satisfies
    the invariant; the cursor is the
    number of refusals received; each request carries the credential that
    the refusals before it select; a crash happens only after every
    credential was refused once. *)

From stdpp Require Import base list strings gmap relations pretty.
From Stdlib Require Import Ascii Lia.
From S2P Require Import Prelude GoStrings GoTime Types ParseLine Translate Pipeline.

(** ** Definitions *)

(** The line [rotate] logs when the cursor has moved to [idx]. *)
Definition rotation_message (idx : nat) : string :=
  "query limit exceeded. rotating secret... (idx " +:+ pretty idx +:+ ")".

(** The messages logged at level info, oldest first. *)
Definition infos (entries : list LogEntry) : list string :=
  omap (fun e => match e with Infof msg => Some msg | _ => None end) entries.

(** The number of refusals for quota among answers. *)
Fixpoint refusals (l : list answer) : nat :=
  match l with
  | [] => 0
  | Quota :: l' => S (refusals l')
  | _ :: l' => refusals l'
  end.

(** The number of translations among answers. *)
Fixpoint translations (l : list answer) : nat :=
  match l with
  | [] => 0
  | Text _ :: l' => S (translations l')
  | _ :: l' => translations l'
  end.

Section process.
Context {remote : Remote} (cfg : ConfigStruct) (secrets : list Secret) (now : Time).

(** An iteration of the loop that returns: the line is skipped by one of
    the three [continue] of main.go 130-149, or it is translated and
    printed. *)
Inductive step : State -> State -> Prop :=
| step_skip st line :
    accept cfg now line = None -> step st st
| step_emit st line l st' :
    accept cfg now line = Some l -> emit cfg secrets st l = Returned st' tt ->
    step st st'.

(** An iteration that ends the process: a panic under [emit]. *)
Inductive crash : State -> State -> panic -> Prop :=
| crash_emit st line l st' p :
    accept cfg now line = Some l -> emit cfg secrets st l = Panicked st' p ->
    crash st st' p.

(** The states of the process between two lines. *)
Definition reachable (st : State) : Prop := rtc step initState st.

(** The answers of the service to requests sent one after the other,
    after the requests [h]. *)
Fixpoint answers_from (h reqs : list Request) : list answer :=
  match reqs with
  | [] => []
  | req :: reqs' => classify (round_trip h req) :: answers_from (h ++ [req]) reqs'
  end.

Definition answers (reqs : list Request) : list answer := answers_from [] reqs.

(** The requests sent and the cursor, as [translate] produces them
    (main.go 240-263). *)
Inductive history : list Request -> nat -> Prop :=
| history_start : history [] 0
| history_served h idx content secret :
    history h idx -> secrets !! idx = Some secret ->
    classify (round_trip h (request_for cfg content secret)) <> Quota ->
    history (h ++ [request_for cfg content secret]) idx
| history_refused h idx content secret :
    history h idx -> secrets !! idx = Some secret ->
    classify (round_trip h (request_for cfg content secret)) = Quota ->
    history (h ++ [request_for cfg content secret]) (S idx).

(** Every entry of the cache is the translation the service gave to a
    request for that text. *)
Definition cache_sound (st : State) : Prop :=
  forall content text,
    cache_lookup content st = Some text ->
    content <> "" /\
    exists h secret,
      (h ++ [request_for cfg content secret]) `prefix_of` sent st /\
      secret ∈ secrets /\
      classify (round_trip h (request_for cfg content secret)) = Text text.

(** The rotations are logged one by one, with the index reached. *)
Definition rotations_logged (st : State) : Prop :=
  infos (logged st) = map rotation_message (seq 1 (secretIdx st)).

(** The requests and the cursor of a state form a history. *)
Definition history_ok (st : State) : Prop := history (sent st) (secretIdx st).

(** The cache holds one entry for each translation the service gave:
    every translation received is stored, under a key of its own. *)
Definition cache_counted (st : State) : Prop :=
  size (translateCache st) = translations (answers (sent st)).

Record inv (st : State) : Prop := mkInv {
  inv_history : history_ok st;
  inv_cache : cache_sound st;
  inv_logged : rotations_logged st;
  inv_counted : cache_counted st
}.

(** A predicate that the elementary transitions of the program keep. *)
Class Stable (P : State -> Prop) : Prop := {
  stable_debug msg st : P st -> P (log (Debugf msg) st);
  stable_error e msg st : P st -> P (log (Errorf e msg) st);
  stable_print text st : P st -> P (print text st);
  stable_failure content secret e st :
    P st -> content <> "" -> cache_lookup content st = None ->
    current secrets st = Some secret ->
    classify (round_trip (sent st) (request_for cfg content secret)) = Failure e ->
    P (record_request (request_for cfg content secret) st);
  stable_quota content secret st :
    P st -> content <> "" -> cache_lookup content st = None ->
    current secrets st = Some secret ->
    classify (round_trip (sent st) (request_for cfg content secret)) = Quota ->
    P (rotate (record_request (request_for cfg content secret) st));
  stable_text content secret result st :
    P st -> content <> "" -> cache_lookup content st = None ->
    current secrets st = Some secret ->
    classify (round_trip (sent st) (request_for cfg content secret)) = Text result ->
    P (cache_store content result (record_request (request_for cfg content secret) st))
}.

End process.

Arguments stable_debug {remote} cfg secrets {P _} msg st _.
Arguments stable_error {remote} cfg secrets {P _} e msg st _.
Arguments stable_print {remote} cfg secrets {P _} text st _.
Arguments stable_failure {remote} cfg secrets {P _} content secret e st _ _ _ _ _.
Arguments stable_quota {remote} cfg secrets {P _} content secret st _ _ _ _ _.
Arguments stable_text {remote} cfg secrets {P _} content secret result st _ _ _ _ _.

(** ** Stable predicates through the program *)

Section stable.
Context {remote : Remote} (cfg : ConfigStruct) (secrets : list Secret) (now : Time).
Context (P : State -> Prop) {HP : Stable cfg secrets P}.
Implicit Types (st : State) (l : Log) (line content : string).

Lemma translate_fuel_stable fuel st st' content :
  P st -> final (translate_fuel cfg fuel secrets st content) = Some st' -> P st'.
Proof.
  revert st. induction fuel as [|fuel IH]; intros st Hst; [done|].
  cbn [translate_fuel]. case_decide; [by intros [= <-]|].
  destruct (cache_lookup content st) eqn:Ec; [intros [= <-]; by apply (stable_debug cfg secrets)|].
  destruct (new_request _ _ _); [by intros [= <-]|].
  destruct (current secrets st) as [secret|] eqn:Es; [|by intros [= <-]].
  fold (request_for cfg content secret).
  destruct (classify _) eqn:E.
  - intros [= <-]. by eapply (stable_failure cfg secrets).
  - apply IH. by apply (stable_quota cfg secrets).
  - intros [= <-]. by apply (stable_text cfg secrets).
Qed.

Lemma translate_stable st st' content :
  P st -> final (translate cfg secrets st content) = Some st' -> P st'.
Proof. apply translate_fuel_stable. Qed.

Lemma translate_actor_stable st st' l :
  P st -> final (translate_actor cfg secrets st l) = Some st' -> P st'.
Proof.
  intros Hst. unfold translate_actor. destruct (TranslateActorName cfg); [|by intros [= <-]].
  destruct (translate cfg secrets st (ActorName l)) as [st1 [text [e|]]|st1 p|] eqn:E;
    simpl; intros [= <-];
    (assert (P st1) by (apply (translate_stable st st1 (ActorName l)); by rewrite ?E));
    [by apply (stable_error cfg secrets) | done..].
Qed.

Lemma emit_stable st st' l :
  P st -> final (emit cfg secrets st l) = Some st' -> P st'.
Proof.
  intros Hst. unfold emit.
  destruct (translate_actor cfg secrets st l) as [st1 actor|st1 p|] eqn:Ea; simpl; [| |done];
    (assert (P st1) as H1 by (apply (translate_actor_stable st st1 l); by rewrite ?Ea));
    [|by intros [= <-]].
  destruct (translate cfg secrets st1 (Content l)) as [st2 [text [e|]]|st2 p|] eqn:Et;
    simpl; intros [= <-];
    (assert (P st2) by (apply (translate_stable st1 st2 (Content l)); by rewrite ?Et));
    [apply (stable_print cfg secrets); by apply (stable_error cfg secrets)
    | by apply (stable_print cfg secrets) | done].
Qed.

Lemma main_loop_body_stable st st' line :
  P st -> final (main_loop_body cfg secrets now st line) = Some st' -> P st'.
Proof.
  intros Hst. unfold main_loop_body. destruct (accept cfg now line) as [l|].
  - by apply emit_stable.
  - by intros [= <-].
Qed.

Lemma main_loop_stable lines st st' :
  P st -> final (main_loop cfg secrets now lines st) = Some st' -> P st'.
Proof.
  revert st. induction lines as [|line lines IH]; intros st Hst; simpl; [by intros [= <-]|].
  destruct (main_loop_body cfg secrets now st line) as [st1 []|st1 p|] eqn:E; simpl; [| |done];
    (assert (P st1) by (apply (main_loop_body_stable st st1 line); by rewrite ?E));
    [by apply IH | by intros [= <-]].
Qed.

Lemma step_stable st st' : step cfg secrets now st st' -> P st -> P st'.
Proof.
  intros [st0 line Ha|st0 line l st1 Ha He] Hst; [done|].
  apply (emit_stable st0 st1 l); [done | by rewrite He].
Qed.

Lemma crash_stable st st' p : crash cfg secrets now st st' p -> P st -> P st'.
Proof.
  intros [st0 line l st1 p0 Ha He] Hst.
  apply (emit_stable st0 st1 l); [done | by rewrite He].
Qed.

Lemma reachable_stable st : P initState -> reachable cfg secrets now st -> P st.
Proof.
  intros Hinit. revert st. unfold reachable. apply rtc_ind_r; [done|].
  intros st1 st2 _ Hs IH. by apply (step_stable st1).
Qed.

End stable.

(** ** Answers, refusals and the log of the rotations *)

Lemma refusals_app l1 l2 : refusals (l1 ++ l2) = refusals l1 + refusals l2.
Proof. induction l1 as [|[] l1 IH]; simpl; lia. Qed.

Lemma translations_app l1 l2 : translations (l1 ++ l2) = translations l1 + translations l2.
Proof. induction l1 as [|[] l1 IH]; simpl; lia. Qed.

(** An answer is a refusal, a translation or neither. *)
Lemma refusals_length l : refusals l + translations l <= length l.
Proof. induction l as [|[] l IH]; simpl; lia. Qed.

Lemma infos_app l1 l2 : infos (l1 ++ l2) = infos l1 ++ infos l2.
Proof. apply omap_app. Qed.

Lemma infos_snoc l e :
  infos (l ++ [e]) = infos l ++ match e with Infof msg => [msg] | _ => [] end.
Proof. rewrite infos_app. by destruct e. Qed.

Section answers.
Context {remote : Remote}.
Implicit Types (h reqs : list Request) (req : Request).

Lemma answers_from_app h reqs1 reqs2 :
  answers_from h (reqs1 ++ reqs2)
  = answers_from h reqs1 ++ answers_from (h ++ reqs1) reqs2.
Proof.
  revert h. induction reqs1 as [|req reqs1 IH]; intros h; simpl.
  - by rewrite app_nil_r.
  - by rewrite IH, <- app_assoc.
Qed.

Lemma answers_snoc h req :
  answers (h ++ [req]) = answers h ++ [classify (round_trip h req)].
Proof. unfold answers. by rewrite answers_from_app. Qed.

Lemma answers_length h : length (answers h) = length h.
Proof.
  unfold answers. generalize (@nil Request) as h0.
  induction h as [|req h IH]; intros h0; simpl; [done|]. by rewrite IH.
Qed.

End answers.

(** ** The history of the requests *)

Section history.
Context {remote : Remote} (cfg : ConfigStruct) (secrets : list Secret).
Implicit Types (h : list Request) (idx : nat) (st : State).

(** The cursor is the number of refusals received. *)
Lemma history_cursor h idx : history cfg secrets h idx -> idx = refusals (answers h).
Proof.
  induction 1 as [|h idx content secret _ IH _ Hc|h idx content secret _ IH _ Hc];
    [done|..]; rewrite answers_snoc, refusals_app; simpl.
  - destruct (classify _); [lia | done | lia].
  - rewrite Hc. lia.
Qed.

(** The cursor never leaves [0, len(secrets)]. *)
Lemma history_bound h idx : history cfg secrets h idx -> idx <= length secrets.
Proof.
  induction 1 as [|h idx content secret _ IH Hs _|h idx content secret _ IH Hs _];
    [lia | done |]. apply lookup_lt_Some in Hs. lia.
Qed.

(** Every request was made with the credential that the refusals before
    it had brought under the cursor. *)
Lemma history_lookup h idx i req :
  history cfg secrets h idx -> h !! i = Some req ->
  exists content secret,
    secrets !! refusals (answers (take i h)) = Some secret /\
    req = request_for cfg content secret.
Proof.
  intros H. revert i req.
  induction H as [|h idx content secret H IH Hs _|h idx content secret H IH Hs _];
    intros i req Hi; [done|..];
    (apply lookup_app_Some in Hi as [Hi|[Hge Hi]];
     [ rewrite take_app_le by (apply lookup_lt_Some in Hi; lia); by apply IH
     | apply list_lookup_singleton_Some in Hi as [Hi <-];
       assert (i = length h) as -> by lia;
       rewrite take_app_length, <- (history_cursor h idx H); eauto ]).
Qed.

Lemma history_init : history_ok cfg secrets initState.
Proof. constructor. Qed.

#[global] Instance history_stable : Stable cfg secrets (history_ok cfg secrets).
Proof.
  split; unfold history_ok; simpl; try done.
  - intros content secret e st H _ _ Hs Hc. apply history_served; [done..|]. by rewrite Hc.
  - intros content secret st H _ _ Hs Hc. by apply history_refused.
  - intros content secret result st H _ _ Hs Hc. apply history_served; [done..|]. by rewrite Hc.
Qed.

End history.

(** ** The cache *)

Section cache.
Context {remote : Remote} (cfg : ConfigStruct) (secrets : list Secret).
Implicit Types (st : State).

(** Soundness survives whatever only sends more. *)
Lemma cache_sound_sent st st' :
  cache_sound cfg secrets st -> translateCache st' = translateCache st ->
  sent st `prefix_of` sent st' -> cache_sound cfg secrets st'.
Proof.
  intros H Hc Hp content text Hl. unfold cache_lookup in Hl. rewrite Hc in Hl.
  destruct (H content text Hl) as (Hne & h & secret & Hh & Hs & Ha).
  split; [done|]. exists h, secret. split; [by etrans | done].
Qed.

Lemma cache_sound_init : cache_sound cfg secrets initState.
Proof. intros content text. unfold cache_lookup. simpl. by rewrite lookup_empty. Qed.

#[global] Instance cache_sound_stable : Stable cfg secrets (cache_sound cfg secrets).
Proof.
  split.
  - intros msg st H. by apply (cache_sound_sent st).
  - intros e msg st H. by apply (cache_sound_sent st).
  - intros text st H. by apply (cache_sound_sent st).
  - intros content secret e st H _ _ _ _. apply (cache_sound_sent st); [done..|].
    by apply prefix_app_r.
  - intros content secret st H _ _ _ _. apply (cache_sound_sent st); [done..|].
    by apply prefix_app_r.
  - intros content secret result st H Hne _ Hs Hc k text. unfold cache_lookup. simpl.
    destruct (decide (k = content)) as [->|Hk].
    + rewrite lookup_insert_eq. intros [= <-]. split; [done|].
      exists (sent st), secret. split; [done|]. split; [|done].
      by eapply list_elem_of_lookup_2.
    + rewrite lookup_insert_ne by done. intros Hl.
      destruct (H k text Hl) as (Hk' & h & s & Hh & Hin & Ha).
      split; [done|]. exists h, s. split; [|done]. etrans; [done|]. by apply prefix_app_r.
Qed.

End cache.

(** ** The log of the rotations, and the invariant *)

Section invariant.
Context {remote : Remote} (cfg : ConfigStruct) (secrets : list Secret) (now : Time).
Implicit Types (st : State).

#[global] Instance rotations_logged_stable : Stable cfg secrets rotations_logged.
Proof.
  split; unfold rotations_logged; intros; try done;
    cbn [rotate log record_request logged secretIdx];
    rewrite infos_snoc, ?app_nil_r; [done..|].
  rewrite seq_S, map_app. simpl. by f_equal.
Qed.

(** A translation is stored under a key the cache did not hold. *)
#[global] Instance cache_counted_stable : Stable cfg secrets cache_counted.
Proof.
  split; unfold cache_counted; try done;
    intros content secret; intros; cbn [rotate log record_request cache_store sent translateCache];
    rewrite answers_snoc, translations_app; cbn [translations].
  - select (classify _ = _) (fun H => rewrite H). lia.
  - select (classify _ = _) (fun H => rewrite H). lia.
  - select (classify _ = _) (fun H => rewrite H). rewrite map_size_insert_None by done. lia.
Qed.

#[global] Instance inv_stable : Stable cfg secrets (inv cfg secrets).
Proof.
  split.
  - intros msg st []. split; by apply (stable_debug cfg secrets).
  - intros e msg st []. split; by apply (stable_error cfg secrets).
  - intros text st []. split; by apply (stable_print cfg secrets).
  - intros content secret e st []; split; by eapply (stable_failure cfg secrets).
  - intros content secret st []; split; by apply (stable_quota cfg secrets).
  - intros content secret result st []; split; by apply (stable_text cfg secrets).
Qed.

Lemma inv_init : inv cfg secrets initState.
Proof. split; [apply history_init | apply cache_sound_init | done | done]. Qed.

(** The relation [step] and the loop body. *)
Lemma step_main_loop_body st st' :
  step cfg secrets now st st' <->
  exists line, main_loop_body cfg secrets now st line = Returned st' tt.
Proof.
  unfold main_loop_body. split.
  - intros [st0 line Ha|st0 line l st1 Ha He]; exists line; by rewrite Ha.
  - intros [line H]. destruct (accept cfg now line) as [l|] eqn:Ha.
    + by eapply step_emit.
    + injection H as <-. by eapply step_skip.
Qed.

Lemma main_loop_rtc lines st st' :
  main_loop cfg secrets now lines st = Returned st' tt ->
  rtc (step cfg secrets now) st st'.
Proof.
  revert st. induction lines as [|line lines IH]; intros st; simpl.
  - by intros [= <-].
  - intros (st1 & [] & Hb & H)%bind_Returned_inv.
    eapply rtc_l; [|by apply IH]. apply step_main_loop_body. by exists line.
Qed.

Lemma rtc_main_loop st st' :
  rtc (step cfg secrets now) st st' ->
  exists lines, main_loop cfg secrets now lines st = Returned st' tt.
Proof.
  induction 1 as [st|st st1 st2 [line Hb]%step_main_loop_body _ [lines IH]].
  - by exists [].
  - exists (line :: lines). simpl. by rewrite Hb.
Qed.

(** The invariant holds between any two lines, and in the state of a
    crash. *)
Lemma reachable_inv_holds st : reachable cfg secrets now st -> inv cfg secrets st.
Proof. apply (reachable_stable cfg secrets now (inv cfg secrets)), inv_init. Qed.

Lemma crash_inv_holds st st' p :
  reachable cfg secrets now st -> crash cfg secrets now st st' p -> inv cfg secrets st'.
Proof.
  intros Hr Hc. apply (crash_stable cfg secrets now (inv cfg secrets) st st' p Hc).
  by apply reachable_inv_holds.
Qed.

End invariant.

(** ** Properties of the process *)

Section process_properties.
Context {remote : Remote} (cfg : ConfigStruct) (secrets : list Secret) (now : Time).
Implicit Types (st : State) (content text : string).

(** C31 (invariant).  Every state the process is in between two lines,
    and the state in which it crashes if it does, satisfies the
    invariant: the requests sent and the cursor form a history, every
    entry of the cache is an answer of the service to a request for that
    text, and the rotations are logged one by one. *)
Theorem reachable_inv st :
  reachable cfg secrets now st ->
  inv cfg secrets st /\
  forall st' p, crash cfg secrets now st st' p -> inv cfg secrets st'.
Proof.
  intros Hr. split.
  - by apply (reachable_inv_holds cfg secrets now).
  - intros st' p. by apply crash_inv_holds.
Qed.

(** C32 (invariant: the accounts of the state).  Between two lines the
    cursor is the number of refusals for quota the service has given so
    far, it is within [0, len(secrets)], the log holds one rotation
    message for each index from 1 to the cursor, in order, and the cache
    holds one entry for each translation the service has given: no
    translation is lost, and no text is asked for again once it is
    translated. *)
Theorem cursor_counts_refusals st :
  reachable cfg secrets now st ->
  secretIdx st = refusals (answers (sent st)) /\
  secretIdx st <= length secrets /\
  infos (logged st) = map rotation_message (seq 1 (secretIdx st)) /\
  size (translateCache st) = translations (answers (sent st)).
Proof.
  intros [Hh _ Hl Hn]%reachable_inv_holds. split; [|split; [|split]]; [| |done..].
  - by apply (history_cursor cfg secrets).
  - by apply (history_bound cfg secrets (sent st)).
Qed.

(** C33 (safety: the credential of each request).  Every request the
    process has sent was made for some text with the credential whose
    index is the number of refusals received before that request:
    credentials are used in the order of the list, and none is used again
    after it was refused. *)
Theorem requests_in_order st i req :
  reachable cfg secrets now st -> sent st !! i = Some req ->
  exists content secret,
    secrets !! refusals (answers (take i (sent st))) = Some secret /\
    req = request_for cfg content secret.
Proof.
  intros [Hh _ _]%reachable_inv_holds Hi.
  by apply (history_lookup cfg secrets (sent st) (secretIdx st)).
Qed.

(** C34 (error: the crash).  The process crashes only when every
    credential has been refused: in the state of the crash the cursor is
    [len(secrets)], the service has given exactly that many refusals, and
    the panic is the index [len(secrets)] out of range. *)
Theorem crash_all_refused st st' p :
  reachable cfg secrets now st -> crash cfg secrets now st st' p ->
  secretIdx st' = length secrets /\
  refusals (answers (sent st')) = length secrets /\
  p = IndexOutOfRange (length secrets) (length secrets).
Proof.
  intros Hr Hc. destruct (crash_inv_holds cfg secrets now st st' p Hr Hc) as [Hh _ _].
  destruct Hc as [st0 line l st1 p0 _ [-> Hge]%emit_Panicked_exhausted].
  pose proof (history_bound cfg secrets _ _ Hh) as Hle.
  pose proof (history_cursor cfg secrets _ _ Hh) as Hcur.
  assert (secretIdx st1 = length secrets) as E by lia.
  rewrite <- Hcur, E. done.
Qed.

(** C35 (functional: what the cache serves).  Between two lines, a text
    found in the cache is answered with a translation that the service
    gave to a request for this very text, made with one of the
    credentials. *)
Theorem cache_hit_sound st content text :
  reachable cfg secrets now st -> cache_lookup content st = Some text ->
  translate cfg secrets st content
  = Returned (log (Debugf ("using translation cache: " +:+ content)) st) (text, None) /\
  exists h secret,
    (h ++ [request_for cfg content secret]) `prefix_of` sent st /\ secret ∈ secrets /\
    classify (round_trip h (request_for cfg content secret)) = Text text.
Proof.
  intros [_ Hc _]%reachable_inv_holds Hl.
  destruct (Hc content text Hl) as [Hne Hsrc]. split; [|done].
  by apply translate_hit.
Qed.

End process_properties.

(** ** Witnesses, on the run of [Pipeline.Run] against [Demo.remote] *)

#[local] Existing Instance Demo.remote.

Lemma after2_reachable : reachable Demo.cfg Demo.secrets Run.now Run.after2.
Proof.
  apply (main_loop_rtc Demo.cfg Demo.secrets Run.now
           [Run.garbage; Run.line1; Run.old; Run.line2]).
  vm_compute. reflexivity.
Qed.

Lemma crashed_crash :
  crash Demo.cfg [Demo.spent1; Demo.spent2] Run.now initState Run.crashed (IndexOutOfRange 2 2).
Proof. apply (crash_emit _ _ _ _ Run.line1 Run.log1); vm_compute; reflexivity. Qed.

Lemma reachable_inv_witness :
  inv Demo.cfg Demo.secrets Run.after2 /\
  forall st' p, crash Demo.cfg Demo.secrets Run.now Run.after2 st' p ->
    inv Demo.cfg Demo.secrets st'.
Proof. apply (reachable_inv Demo.cfg Demo.secrets Run.now), after2_reachable. Defined.

Lemma cursor_counts_refusals_witness :
  secretIdx Run.after2 = refusals (answers (sent Run.after2)) /\
  secretIdx Run.after2 <= length Demo.secrets /\
  infos (logged Run.after2) = map rotation_message (seq 1 (secretIdx Run.after2)) /\
  size (translateCache Run.after2) = translations (answers (sent Run.after2)).
Proof. apply (cursor_counts_refusals Demo.cfg Demo.secrets Run.now), after2_reachable. Defined.

Lemma requests_in_order_witness :
  exists content secret,
    Demo.secrets !! refusals (answers (take 2 (sent Run.after2))) = Some secret /\
    request_for Demo.cfg "Hello there." Demo.fresh = request_for Demo.cfg content secret.
Proof.
  apply (requests_in_order Demo.cfg Demo.secrets Run.now Run.after2 2);
    [apply after2_reachable | reflexivity].
Defined.

Lemma crash_all_refused_witness :
  secretIdx Run.crashed = length [Demo.spent1; Demo.spent2] /\
  refusals (answers (sent Run.crashed)) = length [Demo.spent1; Demo.spent2] /\
  IndexOutOfRange 2 2
  = IndexOutOfRange (length [Demo.spent1; Demo.spent2]) (length [Demo.spent1; Demo.spent2]).
Proof.
  apply (crash_all_refused Demo.cfg [Demo.spent1; Demo.spent2] Run.now initState);
    [apply rtc_refl | apply crashed_crash].
Defined.

Lemma cache_hit_sound_witness :
  translate Demo.cfg Demo.secrets Run.after2 "Hello there."
  = Returned (log (Debugf ("using translation cache: " +:+ "Hello there.")) Run.after2)
             (Demo.reply "Hello there.", None) /\
  exists h secret,
    (h ++ [request_for Demo.cfg "Hello there." secret]) `prefix_of` sent Run.after2 /\
    secret ∈ Demo.secrets /\
    classify (round_trip h (request_for Demo.cfg "Hello there." secret))
    = Text (Demo.reply "Hello there.").
Proof.
  apply (cache_hit_sound Demo.cfg Demo.secrets Run.now);
    [apply after2_reachable | vm_compute; reflexivity].
Defined.
