(* ===== verification/Progress.v ===== *)
(** * Progress: how far the process gets, and how much it costs

    - Liveness.  As long as one credential of the list is never refused
      for quota, the loop never panics: every line is processed and every
      accepted line is printed ([good_credential_live]).  The cursor
      never passes such a credential ([below] is [Stable]).
    - Bounds on the traffic.  A call of [translate] sends at most one
      request that is not refused; so the loop sends at most one request
      for each translation it asks for ([per_line] for each accepted
      line) and one more for each credential ([requests_bound]).
    - Bounds on the cursor.  [secretIdx] is a Go [int]; [int_incr] is
      [*secretIdx++] at the width of the platform, with its wrap-around.
      The increment is only reached under [secrets[*secretIdx]], so it
      never wraps, and the natural number of the model is the machine
      integer in every reachable state ([cursor_fits]). *)

From stdpp Require Import base list strings gmap relations.
From Stdlib Require Import Ascii Lia ZArith.
From S2P Require Import Prelude GoStrings GoTime Types ParseLine Translate Pipeline Process.

(** ** Definitions *)

(** The largest [int] of a platform of width [w], and the value an
    integer operation leaves in an [int] of that width. *)
Definition max_int (w : Z) : Z := (2 ^ (w - 1) - 1)%Z.

Definition wrap (w z : Z) : Z := ((z + 2 ^ (w - 1)) mod 2 ^ w - 2 ^ (w - 1))%Z.

(** [*secretIdx++] (main.go 262). *)
Definition int_incr (w z : Z) : Z := wrap w (z + 1).

(** The translations one accepted line asks for (main.go 155 and 166). *)
Definition per_line (cfg : ConfigStruct) : nat :=
  if TranslateActorName cfg then 2 else 1.

(** The cursor has not passed the index [i]. *)
Definition below (i : nat) (st : State) : Prop := secretIdx st <= i.

(** The requests of [st'] that were sent since [st] and not refused are
    at most [n]. *)
Definition costs (n : nat) (st st' : State) : Prop :=
  length (sent st') + secretIdx st <= length (sent st) + secretIdx st' + n.

(** ** Machine integers *)

Section width.
Context (w : Z) (Hw : w = 32%Z \/ w = 64%Z).

Lemma wrap_small z : (- 2 ^ (w - 1) <= z <= max_int w)%Z -> wrap w z = z.
Proof.
  unfold wrap, max_int. intros Hz.
  rewrite Z.mod_small; [lia|]. destruct Hw as [-> | ->]; simpl in *; lia.
Qed.

Lemma int_incr_small z : (0 <= z < max_int w)%Z -> int_incr w z = (z + 1)%Z.
Proof.
  intros Hz. unfold int_incr. apply wrap_small. unfold max_int in *.
  destruct Hw as [-> | ->]; simpl in *; lia.
Qed.

(** At the largest value the increment wraps to the smallest. *)
Lemma int_incr_max : int_incr w (max_int w) = (- 2 ^ (w - 1))%Z.
Proof. unfold int_incr, wrap, max_int. destruct Hw as [-> | ->]; reflexivity. Qed.

End width.

(** ** The cost of a call *)

Section costs.
Context {remote : Remote} (cfg : ConfigStruct) (secrets : list Secret) (now : Time).
Implicit Types (st : State) (l : Log) (line content : string) (lines : list string).

Lemma costs_refl n st : costs n st st.
Proof. unfold costs. lia. Qed.

Lemma costs_trans n m st1 st2 st3 :
  costs n st1 st2 -> costs m st2 st3 -> costs (n + m) st1 st3.
Proof. unfold costs. lia. Qed.

Lemma costs_mono n m st st' : n <= m -> costs n st st' -> costs m st st'.
Proof. unfold costs. lia. Qed.

(** Logging and printing cost nothing. *)
Lemma costs_log n e st st' : costs n st st' -> costs n st (log e st').
Proof. done. Qed.

Lemma costs_print n text st st' : costs n st st' -> costs n st (print text st').
Proof. done. Qed.

(** A call of [translate] sends at most one request that is not
    refused. *)
Lemma translate_costs st st' content :
  final (translate cfg secrets st content) = Some st' -> costs 1 st st'.
Proof.
  destruct (translate_cases cfg secrets st content)
    as [[_ ->]|[(t & _ & _ & ->)|[(msg & _ & _ & ->)|(_ & _ & ->)]]]; simpl;
    try (intros [= <-]; unfold costs; simpl; lia).
  intros (k & Hk & Hs & _ & Hi)%scan_final. unfold costs.
  rewrite Hs, length_app, length_map, length_take.
  destruct (returned _); lia.
Qed.

Lemma translate_actor_costs st st' l :
  final (translate_actor cfg secrets st l) = Some st' -> costs (per_line cfg - 1) st st'.
Proof.
  unfold translate_actor, per_line. destruct (TranslateActorName cfg);
    [|intros [= <-]; apply costs_refl].
  destruct (translate cfg secrets st (ActorName l)) as [st1 [text [e|]]|st1 p|] eqn:E;
    simpl; intros [= <-]; try apply costs_log;
    apply (translate_costs st st1 (ActorName l)); by rewrite E.
Qed.

Lemma emit_costs st st' l :
  final (emit cfg secrets st l) = Some st' -> costs (per_line cfg) st st'.
Proof.
  assert (per_line cfg = (per_line cfg - 1) + 1) as -> by (unfold per_line; destruct (_ cfg); lia).
  unfold emit.
  destruct (translate_actor cfg secrets st l) as [st1 actor|st1 p|] eqn:Ea; simpl; [| |done];
    (assert (costs (per_line cfg - 1) st st1) as H1
       by (apply (translate_actor_costs st st1 l); by rewrite Ea));
    [|intros [= <-]; eapply costs_mono; [|done]; lia].
  destruct (translate cfg secrets st1 (Content l)) as [st2 [text [e|]]|st2 p|] eqn:Et;
    simpl; intros [= <-]; try apply costs_print; try apply costs_log;
    (apply (costs_trans _ _ st st1); [done|]);
    apply (translate_costs st1 st2 (Content l)); by rewrite Et.
Qed.

Lemma main_loop_costs lines st st' :
  final (main_loop cfg secrets now lines st) = Some st' ->
  costs (per_line cfg * length (omap (accept cfg now) lines)) st st'.
Proof.
  revert st. induction lines as [|line lines IH]; intros st.
  { simpl. intros [= <-]. apply costs_refl. }
  rewrite omap_cons_length. cbn [main_loop]. unfold main_loop_body.
  destruct (accept cfg now line) as [l|]; simpl.
  - destruct (emit cfg secrets st l) as [st1 []|st1 p|] eqn:E; simpl; [| |done];
      (assert (costs (per_line cfg) st st1) as H1
         by (apply (emit_costs st st1 l); by rewrite E)).
    + intros H%IH. eapply costs_mono; [|by eapply costs_trans]. lia.
    + intros [= <-]. eapply costs_mono; [|done]. lia.
  - intros H%IH. eapply costs_mono; [|done]. lia.
Qed.

(** The loop panics only with the cursor past the credentials. *)
Lemma main_loop_Panicked_exhausted lines st st' p :
  main_loop cfg secrets now lines st = Panicked st' p -> length secrets <= secretIdx st'.
Proof.
  revert st. induction lines as [|line lines IH]; intros st; simpl; [done|].
  intros [H|(st1 & [] & _ & H)]%bind_Panicked_inv; [|by eauto].
  unfold main_loop_body in H. destruct (accept cfg now line); [|done].
  by apply emit_Panicked_exhausted in H as [_ ?].
Qed.

End costs.

(** ** A credential that is never refused *)

Section liveness.
Context {remote : Remote} (cfg : ConfigStruct) (secrets : list Secret) (now : Time).
Variables (i : nat) (good : Secret).
Hypothesis Hgood : secrets !! i = Some good.
Hypothesis Hserved :
  forall h content, classify (round_trip h (request_for cfg content good)) <> Quota.

(** The cursor never passes the good credential. *)
Lemma below_stable : Stable cfg secrets (below i).
Proof.
  split; unfold below; simpl; try done.
  intros content secret st Hle _ _ Hs Hq. unfold current in Hs.
  destruct (decide (secretIdx st = i)) as [E|]; [|lia].
  rewrite E, Hgood in Hs. injection Hs as <-. by destruct (Hserved (sent st) content).
Qed.

Lemma main_loop_returns lines st :
  below i st ->
  exists st', main_loop cfg secrets now lines st = Returned st' tt /\ below i st'.
Proof.
  intros Hst.
  pose proof (main_loop_terminates cfg secrets now lines st) as Ht.
  destruct (main_loop cfg secrets now lines st) as [st' []|st' p|] eqn:E; [| |done];
    (assert (below i st') as Hst'
       by (apply (main_loop_stable cfg secrets now (below i) (HP := below_stable) lines st);
           [done | by rewrite E])).
  - by exists st'.
  - apply main_loop_Panicked_exhausted in E. apply lookup_lt_Some in Hgood.
    unfold below in Hst'. lia.
Qed.

(** One iteration returns, whatever the line. *)
Lemma main_loop_body_returns line st :
  below i st ->
  exists st', main_loop_body cfg secrets now st line = Returned st' tt /\ below i st'.
Proof.
  intros (st' & H & Hst')%(main_loop_returns [line]). exists st'. split; [|done].
  simpl in H. by destruct (main_loop_body cfg secrets now st line) as [? []| |]; simplify_eq.
Qed.

End liveness.

(** ** Properties *)

Section progress_properties.
Context {remote : Remote} (cfg : ConfigStruct) (secrets : list Secret) (now : Time).
Implicit Types (st : State) (lines : list string).

(** C18 (liveness).  If one credential of the list is never refused for
    quota, the process never crashes: whatever lines the log delivers,
    the loop goes through all of them, every accepted line is printed,
    and the cursor never passes that credential. *)
Theorem good_credential_live i good lines :
  secrets !! i = Some good ->
  (forall h content, classify (round_trip h (request_for cfg content good)) <> Quota) ->
  exists st',
    main_loop cfg secrets now lines initState = Returned st' tt /\
    length (stdout st') = length (omap (accept cfg now) lines) /\
    below i st'.
Proof.
  intros Hgood Hserved.
  destruct (main_loop_returns cfg secrets now i good Hgood Hserved lines initState)
    as (st' & Hrun & Hle); [unfold below; simpl; lia|].
  exists st'. split; [done|]. split; [|done].
  assert (final (main_loop cfg secrets now lines initState) = Some st')
    as (_ & _ & Hc)%main_loop_final by (by rewrite Hrun).
  rewrite Hc by (by rewrite Hrun). done.
Qed.

(** C20 (bounds: the traffic).  However the loop ends, it has sent at
    most one request for each translation it asked for (one for each
    accepted line, two when names are translated) and one more for each
    credential: refusals are the only requests that are repeated, and
    each credential is refused at most once. *)
Theorem requests_bound lines st' :
  final (main_loop cfg secrets now lines initState) = Some st' ->
  length (sent st') <= per_line cfg * length (omap (accept cfg now) lines) + length secrets.
Proof.
  intros H. pose proof (main_loop_costs cfg secrets now lines initState st' H) as Hc.
  apply main_loop_final in H as [[_ Hle] _].
  unfold costs in Hc. simpl in *. lia.
Qed.

(** C22 (bounds: the cursor as a Go int).  On a platform whose [int] has
    32 or 64 bits, the cursor of every reachable state is represented
    exactly, and wherever the program increments it (under
    [secrets[*secretIdx]]) the machine increment does not wrap: it is the
    successor that [rotate] computes. *)
Theorem cursor_fits w st :
  (w = 32 \/ w = 64)%Z -> (Z.of_nat (length secrets) <= max_int w)%Z ->
  (reachable cfg secrets now st ->
   wrap w (Z.of_nat (secretIdx st)) = Z.of_nat (secretIdx st)) /\
  (forall secret, current secrets st = Some secret ->
   int_incr w (Z.of_nat (secretIdx st)) = Z.of_nat (secretIdx (rotate st))).
Proof.
  intros Hw Hlen. split.
  - intros [Hh _ _]%reachable_inv_holds. apply history_bound in Hh.
    apply wrap_small; [done|]. unfold max_int in *. destruct Hw as [-> | ->]; simpl in *; lia.
  - intros secret Hs%lookup_lt_Some. rewrite int_incr_small by (done || lia).
    simpl. lia.
Qed.

End progress_properties.

(** ** Witnesses, on the run of [Pipeline.Run] against [Demo.remote] *)

#[local] Existing Instance Demo.remote.

(** The credential "fresh" of the scripted service is never refused. *)
Lemma fresh_never_refused h content :
  classify (round_trip h (request_for Demo.cfg content Demo.fresh)) <> Quota.
Proof.
  assert (exists rest, request_body Demo.cfg content = String "s" rest) as [rest E]
    by (by eexists).
  unfold classify. cbn [round_trip Demo.remote].
  repeat (rewrite decide_False by done).
  destruct (HasSuffix _ _); [done|].
  cbn [json_unmarshal Demo.remote Body request_for build_request]. rewrite E.
  repeat (rewrite decide_False by done). cbn [ErrorMsg]. by case_decide.
Qed.

Lemma good_credential_live_witness :
  exists st',
    main_loop Demo.cfg Demo.secrets Run.now [Run.line1; Run.asked; Run.line2] initState
    = Returned st' tt /\
    length (stdout st')
    = length (omap (accept Demo.cfg Run.now) [Run.line1; Run.asked; Run.line2]) /\
    below 2 st'.
Proof.
  apply (good_credential_live Demo.cfg Demo.secrets Run.now 2 Demo.fresh);
    [reflexivity | apply fresh_never_refused].
Defined.

Lemma requests_bound_witness :
  length (sent Run.after2)
  <= per_line Demo.cfg
     * length (omap (accept Demo.cfg Run.now) [Run.garbage; Run.line1; Run.old; Run.line2])
     + length Demo.secrets.
Proof.
  apply (requests_bound Demo.cfg Demo.secrets Run.now). vm_compute. reflexivity.
Defined.

Lemma cursor_fits_witness :
  (reachable Demo.cfg Demo.secrets Run.now Run.after2 ->
   wrap 64 (Z.of_nat (secretIdx Run.after2)) = Z.of_nat (secretIdx Run.after2)) /\
  (forall secret, current Demo.secrets Run.after2 = Some secret ->
   int_incr 64 (Z.of_nat (secretIdx Run.after2)) = Z.of_nat (secretIdx (rotate Run.after2))).
Proof. apply (cursor_fits Demo.cfg Demo.secrets Run.now 64); [by right | done]. Defined.
