(* ===== verification/Ideal.v ===== *)
(** * Ideal: what the program computes when the service behaves

    The program promises its user one thing: each chat line of the log
    comes out translated.  This file states the promise as a small
    machine that knows the translation of every text, and proves that
    the loop of main.go refines it when the service, asked for a text,
    either refuses for quota or translates, and one credential is never
    refused.

    - [Faithful]: the service.  No request fails to be built, and every
      answer to a request for a text is a refusal for quota or the
      translation [tr] of that text.
    - [Ideal], [ideal_line], [ideal_run]: the machine.  Its state is the
      texts known with their translations and the lines printed; an
      accepted line teaches it the texts of the line and prints the line
      rendered ([render]).
    - [abstract]: the state of the machine in a state of the program, its
      cache and its output.
    - [ideal_inv]: what the program keeps on the way, the cache agrees
      with [tr] ([agrees]), the cursor has not passed the credential that
      works ([below]), and every request was either refused or stored
      ([counted]).

    Theorems: one call of [translate], one line and the whole loop
    simulate the machine; the output and the cache of the program are
    those of the machine, and the service is asked once for every text
    known and once for every credential spent. *)

From stdpp Require Import base list strings gmap.
From Stdlib Require Import Ascii Lia.
From S2P Require Import Prelude GoStrings GoTime Types ParseLine Translate Pipeline Process Progress.

(** ** Definitions *)

(** A service that answers every request for a text with a refusal for
    quota or with the translation [tr] of the text. *)
Class Faithful {remote : Remote} (cfg : ConfigStruct) (secrets : list Secret)
    (tr : string -> string) : Prop := {
  faithful_request body : new_request "POST" papagoAPIEndpoint body = None;
  faithful_answer h content secret :
    content <> "" -> secret ∈ secrets ->
    classify (round_trip h (request_for cfg content secret)) = Quota \/
    classify (round_trip h (request_for cfg content secret)) = Text (tr content)
}.

Arguments faithful_request {remote} cfg secrets tr {_} body.
Arguments faithful_answer {remote} cfg secrets tr {_} h content secret _ _.

(** The state of the machine: the translations known and the lines
    printed. *)
Record Ideal : Type := mkIdeal {
  known : gmap string string;
  printed : list string
}.

Section ideal.
Context (cfg : ConfigStruct) (now : Time) (tr : string -> string).

(** What [translate] returns for a text (main.go 226-228 and 273). *)
Definition translated (content : string) : string :=
  if decide (content = "") then "" else tr content.

(** What the cache holds after a text was translated (main.go 271). *)
Definition learn (cache : gmap string string) (content : string) : gmap string string :=
  if decide (content = "") then cache else <[content := tr content]> cache.

(** The texts an accepted line asks for, in the order of main.go
    151-166. *)
Definition texts (l : Log) : list string :=
  if TranslateActorName cfg then [ActorName l; Content l] else [Content l].

(** The line printed for an accepted line (main.go 170). *)
Definition render (l : Log) : string :=
  format_output (if TranslateActorName cfg then translated (ActorName l) else ActorName l)
                (translated (Content l)).

(** One line of the log (main.go 129-171). *)
Definition ideal_line (s : Ideal) (line : string) : Ideal :=
  match accept cfg now line with
  | None => s
  | Some l => mkIdeal (foldl learn (known s) (texts l)) (printed s ++ [render l])
  end.

Definition ideal_run (s : Ideal) (lines : list string) : Ideal :=
  foldl ideal_line s lines.

(** The texts the lines ask for, oldest first. *)
Definition asked (lines : list string) : list string :=
  omap (accept cfg now) lines ≫= texts.

(** The cache agrees with the service. *)
Definition agrees (st : State) : Prop :=
  forall content text, cache_lookup content st = Some text -> text = tr content.

End ideal.

(** The state of the machine in a state of the program. *)
Definition abstract (st : State) : Ideal := mkIdeal (translateCache st) (stdout st).

(** Every request sent was refused, and moved the cursor, or was
    answered, and filled the cache. *)
Definition counted (st : State) : Prop :=
  length (sent st) = secretIdx st + size (translateCache st).

Record ideal_inv (tr : string -> string) (i : nat) (st : State) : Prop := mkIdealInv {
  ideal_agrees : agrees tr st;
  ideal_below : below i st;
  ideal_counted : counted st
}.

(** ** A faithful scripted service, for the witness

    The service of [Translate.Demo] without its timeouts: the client id
    "spent" is refused for quota, every other gets the body between
    brackets. *)
Module Echo.

#[export] Instance remote : Remote := {
  new_request _ _ _ := None;
  round_trip _ req :=
    if decide (Demo.client_id req = "spent") then Replied "quota" else Replied (Body req);
  json_unmarshal := @json_unmarshal Demo.remote
}.

End Echo.

(** ** The machine *)

Section machine.
Context (cfg : ConfigStruct) (now : Time) (tr : string -> string).
Implicit Types (s : Ideal) (lines : list string) (cache : gmap string string).

Lemma ideal_run_app s lines1 lines2 :
  ideal_run cfg now tr s (lines1 ++ lines2)
  = ideal_run cfg now tr (ideal_run cfg now tr s lines1) lines2.
Proof. apply foldl_app. Qed.

(** The machine prints the accepted lines, rendered, in order. *)
Lemma ideal_run_printed s lines :
  printed (ideal_run cfg now tr s lines)
  = printed s ++ (render cfg tr <$> omap (accept cfg now) lines).
Proof.
  revert s. induction lines as [|line lines IH]; intros s; simpl; [by rewrite app_nil_r|].
  rewrite IH. unfold ideal_line. destruct (accept cfg now line) as [l|]; simpl; [|done].
  by rewrite <- app_assoc.
Qed.

(** The machine learns the texts asked, in order. *)
Lemma ideal_run_known s lines :
  known (ideal_run cfg now tr s lines) = foldl (learn tr) (known s) (asked cfg now lines).
Proof.
  revert s. induction lines as [|line lines IH]; intros s; simpl; [done|].
  rewrite IH. unfold ideal_line, asked. simpl.
  destruct (accept cfg now line) as [l|]; simpl; [|done]. by rewrite foldl_app.
Qed.

(** What is known after texts were learnt: what was known before, and
    the translation of each text that is not empty. *)
Lemma foldl_learn_lookup cache l content :
  foldl (learn tr) cache l !! content
  = if decide (content <> "" /\ content ∈ l) then Some (tr content) else cache !! content.
Proof.
  revert cache. induction l as [|c l IH]; intros cache; simpl.
  { rewrite decide_False; [done|]. by intros [_ ?%elem_of_nil]. }
  rewrite IH. unfold learn. destruct (decide (content <> "" /\ content ∈ l)) as [[? ?]|Hn].
  { rewrite decide_True; [done|]. split; [done | by right]. }
  destruct (decide (c = "")) as [->|Hc].
  - destruct (decide (content <> "" /\ content ∈ "" :: l)) as [[? [?|?]%elem_of_cons]|]; tauto.
  - destruct (decide (content = c)) as [->|Hne].
    + rewrite lookup_insert_eq, decide_True; [done|]. split; [done | by left].
    + rewrite lookup_insert_ne by done. rewrite decide_False; [done|].
      intros [? [?|?]%elem_of_cons]; tauto.
Qed.

End machine.

(** ** The invariant *)

Section simulation.
Context {remote : Remote} (cfg : ConfigStruct) (secrets : list Secret) (now : Time).
Context (tr : string -> string) {Hf : Faithful cfg secrets tr}.
Variables (i : nat) (good : Secret).
Hypothesis Hgood : secrets !! i = Some good.
Hypothesis Hserved :
  forall h content, classify (round_trip h (request_for cfg content good)) <> Quota.
Implicit Types (st : State) (l : Log) (line content : string) (lines : list string).

(** What a faithful service answers to the credential under the
    cursor. *)
Lemma faithful_current st content secret :
  content <> "" -> current secrets st = Some secret ->
  classify (round_trip (sent st) (request_for cfg content secret)) = Quota \/
  classify (round_trip (sent st) (request_for cfg content secret)) = Text (tr content).
Proof.
  intros Hne Hs. apply (faithful_answer cfg secrets tr); [done|].
  by eapply list_elem_of_lookup_2.
Qed.

#[local] Instance agrees_stable : Stable cfg secrets (agrees tr).
Proof.
  split; unfold agrees, cache_lookup; simpl; try done.
  intros content secret result st H Hne _ Hs Hc k text.
  destruct (decide (k = content)) as [->|Hk].
  - rewrite lookup_insert_eq. intros [= <-].
    destruct (faithful_current st content secret) as [E|E]; congruence.
  - rewrite lookup_insert_ne by done. apply H.
Qed.

#[local] Instance counted_stable : Stable cfg secrets counted.
Proof.
  split; unfold counted; simpl; try done; intros content secret.
  - intros e st H Hne _ Hs Hc. destruct (faithful_current st content secret); congruence.
  - intros st H _ _ _ _. rewrite length_app. simpl. lia.
  - intros result st H _ Hmiss _ _. rewrite length_app, map_size_insert_None by done.
    simpl. lia.
Qed.

#[local] Instance ideal_below_stable : Stable cfg secrets (below i).
Proof. by apply (below_stable cfg secrets i good). Qed.

#[local] Instance ideal_inv_stable : Stable cfg secrets (ideal_inv tr i).
Proof.
  split.
  - intros msg st []. split; by apply (stable_debug cfg secrets).
  - intros e msg st []. split; by apply (stable_error cfg secrets).
  - intros text st []. split; by apply (stable_print cfg secrets).
  - intros content secret e st []; split; by eapply (stable_failure cfg secrets).
  - intros content secret st []; split; by apply (stable_quota cfg secrets).
  - intros content secret result st []; split; by apply (stable_text cfg secrets).
Qed.

Lemma ideal_inv_init : ideal_inv tr i initState.
Proof. split; [done | unfold below; simpl; lia | done]. Qed.

(** ** The simulation *)

(** The scan of credentials among which one works: it ends on a
    translation, stored in the cache. *)
Lemma scan_ideal content total remaining st :
  content <> "" -> remaining ⊆ secrets -> good ∈ remaining ->
  exists st',
    Spec.scan cfg content total remaining st = Returned st' (tr content, None) /\
    translateCache st' = <[content := tr content]> (translateCache st) /\
    stdout st' = stdout st.
Proof.
  intros Hne. revert st.
  induction remaining as [|secret remaining IH]; intros st Hsub Hin;
    [by apply elem_of_nil in Hin|].
  simpl. destruct (faithful_answer cfg secrets tr (sent st) content secret) as [E|E];
    [done | apply Hsub; by left | |]; rewrite E.
  - apply elem_of_cons in Hin as [<-|Hin]; [by destruct (Hserved (sent st) content)|].
    destruct (IH (rotate (record_request (request_for cfg content secret) st)))
      as (st' & -> & ? & ?); [|done|by exists st'].
    intros s Hs. apply Hsub. by right.
  - by eexists.
Qed.

(** One call of [translate] is one text learnt. *)
Lemma translate_ideal st content :
  ideal_inv tr i st ->
  exists st',
    translate cfg secrets st content = Returned st' (translated tr content, None) /\
    translateCache st' = learn tr (translateCache st) content /\
    stdout st' = stdout st /\ ideal_inv tr i st'.
Proof.
  intros Hst.
  assert (exists st', translate cfg secrets st content = Returned st' (translated tr content, None) /\
            translateCache st' = learn tr (translateCache st) content /\ stdout st' = stdout st)
    as (st' & E & Hc & Ho).
  { unfold translated, learn. destruct Hst as [Ha Hb _].
    destruct (decide (content = "")) as [->|Hne]; [rewrite translate_empty; by eexists|].
    destruct (cache_lookup content st) as [t|] eqn:Hhit.
    - rewrite (translate_hit cfg secrets st content t) by done.
      pose proof (Ha content t Hhit) as ->.
      eexists. split; [done|]. split; [|done]. simpl. symmetry. apply insert_id, Hhit.
    - rewrite translate_scan by (done || apply (faithful_request cfg secrets tr)).
      apply scan_ideal; [done|by apply subseteq_drop|].
      apply (list_elem_of_lookup_2 _ (i - secretIdx st)). rewrite lookup_drop.
      unfold below in Hb. by replace (secretIdx st + (i - secretIdx st)) with i by lia. }
  exists st'. repeat (split; [done|]).
  apply (translate_stable cfg secrets (ideal_inv tr i) st st' content Hst). by rewrite E.
Qed.

(** The name of the actor, as it is printed. *)
Lemma translate_actor_ideal st l :
  ideal_inv tr i st ->
  exists st',
    translate_actor cfg secrets st l
    = Returned st' (if TranslateActorName cfg then translated tr (ActorName l) else ActorName l) /\
    translateCache st'
    = (if TranslateActorName cfg then learn tr (translateCache st) (ActorName l)
       else translateCache st) /\
    stdout st' = stdout st /\ ideal_inv tr i st'.
Proof.
  intros Hst. unfold translate_actor. destruct (TranslateActorName cfg); [|by exists st].
  destruct (translate_ideal st (ActorName l) Hst) as (st' & -> & ? & ? & ?). by exists st'.
Qed.

(** One accepted line. *)
Lemma emit_ideal st l :
  ideal_inv tr i st ->
  exists st',
    emit cfg secrets st l = Returned st' tt /\
    abstract st'
    = mkIdeal (foldl (learn tr) (translateCache st) (texts cfg l))
              (stdout st ++ [render cfg tr l]) /\
    ideal_inv tr i st'.
Proof.
  intros Hst. unfold emit.
  destruct (translate_actor_ideal st l Hst) as (st1 & -> & Hc1 & Ho1 & Hst1).
  rewrite bind_Returned.
  destruct (translate_ideal st1 (Content l) Hst1) as (st2 & -> & Hc2 & Ho2 & Hst2).
  rewrite bind_Returned. eexists. split; [done|]. split; [|by apply (stable_print cfg secrets)].
  unfold abstract, texts, render. simpl. rewrite Hc2, Ho2, Hc1, Ho1.
  by destruct (TranslateActorName cfg).
Qed.

(** One line of the log. *)
Lemma main_loop_body_ideal st line :
  ideal_inv tr i st ->
  exists st',
    main_loop_body cfg secrets now st line = Returned st' tt /\
    abstract st' = ideal_line cfg now tr (abstract st) line /\
    ideal_inv tr i st'.
Proof.
  intros Hst. unfold main_loop_body, ideal_line.
  destruct (accept cfg now line) as [l|]; [by apply emit_ideal | by exists st].
Qed.

(** The loop simulates the machine, from every state of the
    invariant. *)
Lemma main_loop_simulates lines st :
  ideal_inv tr i st ->
  exists st',
    main_loop cfg secrets now lines st = Returned st' tt /\
    abstract st' = ideal_run cfg now tr (abstract st) lines /\
    ideal_inv tr i st'.
Proof.
  revert st. induction lines as [|line lines IH]; intros st Hst; [by exists st|].
  destruct (main_loop_body_ideal st line Hst) as (st1 & E & Ha & Hst1).
  destruct (IH st1 Hst1) as (st' & E' & Ha' & Hst').
  exists st'. simpl. rewrite E. simpl. by rewrite <- Ha.
Qed.

End simulation.

(** ** Properties *)

Section ideal_properties.
Context {remote : Remote} (cfg : ConfigStruct) (secrets : list Secret) (now : Time).
Context (tr : string -> string).
Implicit Types (st : State) (lines : list string).

(** C21 (refinement: the program against its purpose).  If every answer
    of the service to a request for a text is a refusal for quota or the
    translation of the text, and one credential is never refused, the
    program refines the machine that knows every translation: on every
    sequence of lines the loop returns, its cache and its output are the
    state of the machine after these lines, so it has printed the
    accepted lines, each with its translation, in order; it holds in its
    cache exactly the texts it was asked, each with its translation; and
    it has sent one request for each text it holds and one for each
    credential spent, whatever the order and the repetitions of the
    lines. *)
Theorem main_loop_refines_ideal i good lines :
  Faithful cfg secrets tr ->
  secrets !! i = Some good ->
  (forall h content, classify (round_trip h (request_for cfg content good)) <> Quota) ->
  exists st',
    main_loop cfg secrets now lines initState = Returned st' tt /\
    abstract st' = ideal_run cfg now tr (mkIdeal ∅ []) lines /\
    stdout st' = render cfg tr <$> omap (accept cfg now) lines /\
    (forall content,
       cache_lookup content st'
       = if decide (content <> "" /\ content ∈ asked cfg now lines)
         then Some (tr content) else None) /\
    length (sent st') = secretIdx st' + size (translateCache st') /\
    secretIdx st' <= i.
Proof.
  intros Hf Hgood Hserved.
  destruct (main_loop_simulates cfg secrets now tr i good Hgood Hserved lines initState)
    as (st' & E & Ha & [_ Hb Hc]); [apply ideal_inv_init|].
  exists st'. repeat (split; [done|]). split; [|split; [|done]].
  - change (stdout st') with (printed (abstract st')). by rewrite Ha, ideal_run_printed.
  - intros content. change (cache_lookup content st') with (known (abstract st') !! content).
    by rewrite Ha, ideal_run_known, foldl_learn_lookup.
Qed.

End ideal_properties.

(** ** Witness, on lines of [Pipeline.Run] against the service [Echo] *)

#[local] Existing Instance Echo.remote.

Lemma echo_fresh_translates h content :
  classify (round_trip h (request_for Demo.cfg content Demo.fresh)) = Text (Demo.reply content).
Proof.
  assert (exists rest, request_body Demo.cfg content = String "s" rest) as [rest E]
    by (by eexists).
  unfold classify, Demo.reply. cbn [round_trip Echo.remote].
  rewrite decide_False by done.
  cbn [json_unmarshal Echo.remote Demo.remote Body request_for build_request]. rewrite E.
  repeat (rewrite decide_False by done). cbn [ErrorMsg]. by case_decide.
Qed.

Lemma echo_faithful : Faithful (remote := Echo.remote) Demo.cfg Demo.secrets Demo.reply.
Proof.
  split; [done|]. intros h content secret _ Hin.
  repeat (apply elem_of_cons in Hin as [->|Hin]); [by left | by left | right |].
  - apply echo_fresh_translates.
  - by apply elem_of_nil in Hin.
Qed.

Lemma main_loop_refines_ideal_witness :
  exists st',
    main_loop (remote := Echo.remote) Demo.cfg Demo.secrets Run.now
      [Run.line1; Run.asked; Run.line1; Run.line2] initState = Returned st' tt /\
    abstract st'
    = ideal_run Demo.cfg Run.now Demo.reply (mkIdeal ∅ [])
        [Run.line1; Run.asked; Run.line1; Run.line2] /\
    stdout st'
    = render Demo.cfg Demo.reply
        <$> omap (accept Demo.cfg Run.now) [Run.line1; Run.asked; Run.line1; Run.line2] /\
    (forall content,
       cache_lookup content st'
       = if decide (content <> "" /\
                    content ∈ asked Demo.cfg Run.now
                                [Run.line1; Run.asked; Run.line1; Run.line2])
         then Some (Demo.reply content) else None) /\
    length (sent st') = secretIdx st' + size (translateCache st') /\
    secretIdx st' <= 2.
Proof.
  apply (main_loop_refines_ideal (remote := Echo.remote) Demo.cfg Demo.secrets Run.now
           Demo.reply 2 Demo.fresh);
    [apply echo_faithful | reflexivity | intros h content; by rewrite echo_fresh_translates].
Defined.
