(* ===== verification/Privacy.v ===== *)
(** * Privacy: what leaves the machine

    The log of the game holds every channel, the private ones included;
    the operator names the channels to translate in TARGET_CHATCODES.
    The program sends texts to the translation service, so the filter of
    main.go 135-149 is also what keeps the other lines on the machine.

    - [emit_all]: the loop on the lines that are accepted (main.go
      151-170 for each of them).
    - [carries]: a request of the program for one of a list of texts,
      under a credential of the file.
    - [sends]: from one state to a later one, only such requests were
      sent.

    Theorems: the loop on a log is [emit_all] on its accepted lines, so
    nothing the program does depends on the lines it drops; every
    request it sends carries a text of an accepted line (the content, or
    the name when names are translated) and a credential of the file. *)

From stdpp Require Import base list strings gmap.
From Stdlib Require Import Ascii Lia.
From S2P Require Import Prelude GoStrings GoTime Types ParseLine Translate Pipeline Process Progress Ideal.

(** ** Definitions *)

Section privacy.
Context {remote : Remote} (cfg : ConfigStruct) (secrets : list Secret).

(** main.go 151-170, on each of the accepted lines. *)
Fixpoint emit_all (ls : list Log) (st : State) : outcome State unit :=
  match ls with
  | [] => Returned st tt
  | l :: rest =>
      call (st', _u) <- emit cfg secrets st l;
      emit_all rest st'
  end.

Definition carries (allowed : list string) (req : Request) : Prop :=
  exists content secret,
    content ∈ allowed /\ content <> "" /\ secret ∈ secrets /\
    req = request_for cfg content secret.

Definition sends (allowed : list string) (st st' : State) : Prop :=
  exists reqs, sent st' = sent st ++ reqs /\ Forall (carries allowed) reqs.

End privacy.

(** ** Requests and the texts they carry *)

Section sends.
Context {remote : Remote} (cfg : ConfigStruct) (secrets : list Secret) (now : Time).
Implicit Types (st : State) (l : Log) (allowed : list string) (lines : list string).

Lemma carries_mono allowed allowed' req :
  allowed ⊆ allowed' -> carries cfg secrets allowed req -> carries cfg secrets allowed' req.
Proof. intros Hsub (content & secret & ? & ? & ? & ->). exists content, secret. auto. Qed.

Lemma sends_refl allowed st : sends cfg secrets allowed st st.
Proof. exists []. by rewrite app_nil_r. Qed.

Lemma sends_trans allowed st1 st2 st3 :
  sends cfg secrets allowed st1 st2 -> sends cfg secrets allowed st2 st3 ->
  sends cfg secrets allowed st1 st3.
Proof.
  intros (r1 & E1 & H1) (r2 & E2 & H2). exists (r1 ++ r2).
  rewrite E2, E1, app_assoc. split; [done | by apply Forall_app].
Qed.

Lemma sends_mono allowed allowed' st st' :
  allowed ⊆ allowed' -> sends cfg secrets allowed st st' -> sends cfg secrets allowed' st st'.
Proof.
  intros Hsub (reqs & E & H). exists reqs. split; [done|].
  eapply Forall_impl; [done|]. intros req. by apply carries_mono.
Qed.

(** Logging and printing send nothing. *)
Lemma sends_log allowed e st st' :
  sends cfg secrets allowed st st' -> sends cfg secrets allowed st (log e st').
Proof. done. Qed.

Lemma sends_print allowed text st st' :
  sends cfg secrets allowed st st' -> sends cfg secrets allowed st (print text st').
Proof. done. Qed.

(** A call of [translate] sends requests for its text only. *)
Lemma translate_sends st st' content :
  final (translate cfg secrets st content) = Some st' ->
  sends cfg secrets [content] st st'.
Proof.
  destruct (translate_cases cfg secrets st content)
    as [[_ ->]|[(t & _ & _ & ->)|[(msg & _ & _ & ->)|(Hne & _ & ->)]]]; simpl;
    try (intros [= <-]; try apply sends_log; apply sends_refl).
  intros (k & _ & Hs & _)%scan_final. eexists. split; [done|].
  apply Forall_fmap, Forall_forall. intros secret Hin. exists content, secret.
  repeat split; [apply list_elem_of_here | done |].
  by apply (subseteq_drop (secretIdx st)), (subseteq_take k).
Qed.

Lemma translate_actor_sends st st' l :
  final (translate_actor cfg secrets st l) = Some st' ->
  sends cfg secrets (texts cfg l) st st'.
Proof.
  unfold translate_actor, texts. destruct (TranslateActorName cfg);
    [|intros [= <-]; apply sends_refl].
  destruct (translate cfg secrets st (ActorName l)) as [st1 [text [e|]]|st1 p|] eqn:E;
    simpl; intros [= <-]; try apply sends_log;
    (apply (sends_mono [ActorName l]); [apply list_subseteq_skip, list_subseteq_nil|]);
    apply translate_sends; by rewrite E.
Qed.

Lemma emit_sends st st' l :
  final (emit cfg secrets st l) = Some st' -> sends cfg secrets (texts cfg l) st st'.
Proof.
  assert ([Content l] ⊆ texts cfg l) as Hc
    by (unfold texts; destruct (_ cfg); [by apply list_subseteq_cons | done]).
  unfold emit.
  destruct (translate_actor cfg secrets st l) as [st1 actor|st1 p|] eqn:Ea; simpl; [| |done];
    (assert (sends cfg secrets (texts cfg l) st st1) as H1
       by (apply translate_actor_sends; by rewrite Ea)); [|by intros [= <-]].
  destruct (translate cfg secrets st1 (Content l)) as [st2 [text [e|]]|st2 p|] eqn:Et;
    simpl; intros [= <-]; try apply sends_print; try apply sends_log;
    (apply (sends_trans _ st st1); [done|]); apply (sends_mono [Content l]); [done| |done| |done|];
    apply translate_sends; by rewrite Et.
Qed.

Lemma emit_all_sends ls st st' :
  final (emit_all cfg secrets ls st) = Some st' -> sends cfg secrets (ls ≫= texts cfg) st st'.
Proof.
  revert st. induction ls as [|l ls IH]; intros st; cbn [emit_all].
  { intros [= <-]. apply sends_refl. }
  change ((l :: ls) ≫= texts cfg) with (texts cfg l ++ (ls ≫= texts cfg)).
  destruct (emit cfg secrets st l) as [st1 []|st1 p|] eqn:E; simpl; [| |done];
    (assert (sends cfg secrets (texts cfg l) st st1) as H1
       by (apply emit_sends; by rewrite E)).
  - intros H%IH. eapply sends_trans; (eapply sends_mono; [|done]);
      [by apply list_subseteq_app_l | by apply list_subseteq_app_r].
  - intros [= <-]. eapply sends_mono; [|done]. by apply list_subseteq_app_l.
Qed.

(** The loop on a log is the loop on its accepted lines. *)
Lemma main_loop_emit_all lines st :
  main_loop cfg secrets now lines st = emit_all cfg secrets (omap (accept cfg now) lines) st.
Proof.
  revert st. induction lines as [|line lines IH]; intros st; [done|].
  cbn [main_loop]. unfold main_loop_body.
  destruct (accept cfg now line) as [l|] eqn:E; simpl; rewrite E; [|apply IH].
  cbn [emit_all]. destruct (emit cfg secrets st l) as [st1 []|st1 p|]; simpl; [apply IH|done..].
Qed.

End sends.

(** ** Properties *)

Section privacy_properties.
Context {remote : Remote} (cfg : ConfigStruct) (secrets : list Secret) (now : Time).

(** C7 (safety: what leaves the machine).  However the loop ends, every
    request it has sent is a POST to the endpoint of the service that
    carries a text of an accepted line, its content or, when names are
    translated, its actor name, under a credential of the file; and
    nothing the program does depends on the lines it drops: two logs
    with the same accepted lines give the same requests, the same output
    and the same state. *)
Theorem dropped_lines_stay lines st' :
  final (main_loop cfg secrets now lines initState) = Some st' ->
  Forall (carries cfg secrets (asked cfg now lines)) (sent st') /\
  (forall req, req ∈ sent st' -> Method req = "POST" /\ URL req = papagoAPIEndpoint) /\
  forall lines',
    omap (accept cfg now) lines' = omap (accept cfg now) lines ->
    main_loop cfg secrets now lines' initState = main_loop cfg secrets now lines initState.
Proof.
  intros H. split; [|split].
  - rewrite main_loop_emit_all in H. apply emit_all_sends in H as (reqs & -> & H). done.
  - rewrite main_loop_emit_all in H. apply emit_all_sends in H as (reqs & -> & H).
    intros req Hreq. simpl in Hreq. rewrite Forall_forall in H.
    by destruct (H req Hreq) as (content & secret & _ & _ & _ & ->).
  - intros lines' E. by rewrite !main_loop_emit_all, E.
Qed.

End privacy_properties.

(** ** Witnesses *)

Lemma dropped_lines_stay_witness :
  exists st',
    final (main_loop (remote := Demo.remote) Demo.cfg Demo.secrets Run.now
             [Run.line1; Run.line2] initState) = Some st' /\
    Forall (carries Demo.cfg Demo.secrets (asked Demo.cfg Run.now [Run.line1; Run.line2]))
      (sent st').
Proof.
  eexists. split; [vm_compute; reflexivity|].
  apply (dropped_lines_stay (remote := Demo.remote) Demo.cfg Demo.secrets Run.now
           [Run.line1; Run.line2]).
  vm_compute. reflexivity.
Defined.
