(* ===== verification/Timing.v ===== *)
(** * Timing: the timeout of httpClient, and how long the program waits

    main.go 205-209 gives the HTTP client a timeout of ten seconds, which
    covers the connection, the answer and the reading of the body.  In
    the other files the timeout is one of the failures a [Remote] may
    answer with; here it is computed.

    - [Client], [httpClient]: the client and its timeout.
    - [Service], [Exchange]: a service that says, for each request, when
      its answer begins, when its body has been read, and what it is.
    - [Do]: what the client makes of an exchange, and after how long:
      the answer if it is complete in time, the error of the deadline
      otherwise.
    - [timed]: the [Remote] of a client in front of a service.
    - [waited]: the time a state of the process has spent waiting for the
      service, the sum over the requests it has sent.

    Theorems: no request holds the program longer than the timeout; an
    answer that is late is a failure that is returned at once, without
    rotation (although its text speaks of a deadline "exceeded"); an
    answer in time is not touched; the loop has waited at most ten
    seconds for each request it is allowed to send. *)

From stdpp Require Import base list strings gmap.
From Stdlib Require Import Ascii Lia ZArith.
From S2P Require Import Prelude GoStrings GoTime Types ParseLine Translate Pipeline Process Progress.

(** ** Definitions *)

(** [time.Second], a [Duration] in nanoseconds. *)
Definition Second : Z := 1000000000.

(** main.go 205-209. *)
Record Client : Type := mkClient { Timeout : Z }.

Definition httpClient : Client := mkClient (10 * Second).

(** One request as the service sees it: the time at which the answer
    begins (or the connection fails), the time at which the body has
    been sent, and the outcome if nobody gives up. *)
Record Exchange : Type := mkExchange {
  answered : Z;
  completed : Z;
  result : RoundTrip
}.

Class Service : Type := {
  service_request : string -> string -> string -> option string;
  exchange : list Request -> Request -> Exchange;
  service_unmarshal : string -> PapagoResponse + string;
  exchange_order h req : (0 <= answered (exchange h req) <= completed (exchange h req))%Z
}.

(** The errors of net/http when the timeout of the client fires. *)
Definition deadline_Do : string :=
  "context deadline exceeded (Client.Timeout exceeded while awaiting headers)".

Definition deadline_Read : string :=
  "context deadline exceeded (Client.Timeout or context cancellation while reading body)".

(** [httpClient.Do(req)] and [io.ReadAll(resp.Body)] (main.go 245-254)
    under the timeout: the time they take and what they return.  A
    timeout of zero is no timeout. *)
Definition Do (c : Client) (x : Exchange) : Z * RoundTrip :=
  if (Timeout c =? 0)%Z then (completed x, result x)
  else if (Timeout c <? answered x)%Z then (Timeout c, DoFailed deadline_Do)
  else
    match result x with
    | DoFailed msg => (answered x, DoFailed msg)
    | r =>
        if (Timeout c <? completed x)%Z then (Timeout c, ReadFailed deadline_Read)
        else (completed x, r)
    end.

(** The outside world of [translate]: the client in front of the
    service. *)
Definition timed (c : Client) (svc : Service) : Remote := {|
  new_request := service_request;
  round_trip h req := (Do c (exchange h req)).2;
  json_unmarshal := service_unmarshal
|}.

(** The time spent on requests sent one after the other, after the
    requests [h]. *)
Fixpoint waited_from {svc : Service} (c : Client) (h reqs : list Request) : Z :=
  match reqs with
  | [] => 0
  | req :: reqs' => ((Do c (exchange h req)).1 + waited_from c (h ++ [req]) reqs')%Z
  end.

Definition waited {svc : Service} (c : Client) (st : State) : Z := waited_from c [] (sent st).

(** ** A scripted service, for the witnesses

    The service of [Translate.Demo], which answers after one second and
    has sent the body half a second later; a request whose body ends
    with a question mark is answered after thirty seconds. *)
Module Slow.

#[export, refine] Instance service : Service := {
  service_request _ _ _ := None;
  exchange h req :=
    if HasSuffix (Body req) "?" then mkExchange (30 * Second) (31 * Second) (Replied (Body req))
    else mkExchange Second (Second + Second / 2)
           (if decide (Demo.client_id req = "spent") then Replied "quota" else Replied (Body req));
  service_unmarshal := @json_unmarshal Demo.remote
}.
Proof. intros h req. by destruct (HasSuffix _ _). Defined.

End Slow.

Local Open Scope Z_scope.

(** ** One request *)

Section request.
Context (c : Client) (x : Exchange).
Hypothesis Hx : 0 <= answered x <= completed x.

(** No request takes longer than the timeout. *)
Lemma Do_within : 0 < Timeout c -> 0 <= (Do c x).1 <= Timeout c.
Proof.
  intros Hc. unfold Do. rewrite (proj2 (Z.eqb_neq _ _)) by lia.
  destruct (Timeout c <? answered x) eqn:E1; [simpl; lia|].
  destruct (result x), (Timeout c <? completed x) eqn:E2; simpl; lia.
Qed.

(** An answer that is complete in time is what the service gave. *)
Lemma Do_in_time :
  completed x <= Timeout c ->
  Do c x = (if result x is DoFailed _ then answered x else completed x, result x).
Proof.
  intros Hc. unfold Do. destruct (Z.eqb_spec (Timeout c) 0) as [E|_].
  { assert (answered x = completed x) as -> by lia. by destruct (result x). }
  rewrite (proj2 (Z.ltb_ge _ _)) by lia.
  destruct (result x); [done|..]; by rewrite (proj2 (Z.ltb_ge _ _)) by lia.
Qed.

(** An answer that begins after the timeout is the error of the
    deadline. *)
Lemma Do_late :
  0 < Timeout c < answered x -> Do c x = (Timeout c, DoFailed deadline_Do).
Proof.
  intros Hc. unfold Do. rewrite (proj2 (Z.eqb_neq _ _)) by lia.
  by rewrite (proj2 (Z.ltb_lt _ _)) by lia.
Qed.

End request.

(** ** The requests of a run *)

Section waiting.
Context {svc : Service} (cfg : ConfigStruct) (secrets : list Secret) (now : Time).
Implicit Types (st : State) (h reqs : list Request) (content : string).

Lemma waited_from_app c h reqs1 reqs2 :
  waited_from c h (reqs1 ++ reqs2)
  = waited_from c h reqs1 + waited_from c (h ++ reqs1) reqs2.
Proof.
  revert h. induction reqs1 as [|req reqs1 IH]; intros h; simpl.
  - by rewrite app_nil_r.
  - rewrite IH, <- app_assoc. simpl. lia.
Qed.

(** Requests cost at most the timeout each. *)
Lemma waited_from_bound c h reqs :
  0 < Timeout c -> 0 <= waited_from c h reqs <= Timeout c * Z.of_nat (length reqs).
Proof.
  intros Hc. revert h. induction reqs as [|req reqs IH]; intros h; cbn [waited_from length].
  - lia.
  - pose proof (Do_within c (exchange h req) (exchange_order h req) Hc).
    specialize (IH (h ++ [req])). rewrite Nat2Z.inj_succ, Z.mul_succ_r. lia.
Qed.

(** A request whose answer is late ends the call with the error of the
    deadline, after this one request: the credential is not changed,
    although the text of the error contains "exceeded". *)
Lemma translate_late st content secret :
  content <> "" -> cache_lookup content st = None ->
  service_request "POST" papagoAPIEndpoint (request_body cfg content) = None ->
  current secrets st = Some secret ->
  10 * Second < answered (exchange (sent st) (request_for cfg content secret)) ->
  translate (remote := timed httpClient svc) cfg secrets st content
  = Returned (record_request (request_for cfg content secret) st)
             ("", Some (Foreign ClientDo deadline_Do)) /\
  Contains deadline_Do "exceeded" = true.
Proof.
  intros Hne Hmiss Hreq Hs Hlate. split; [|done].
  rewrite (translate_scan (remote := timed httpClient svc)) by done.
  rewrite (drop_S _ _ _ Hs). cbn [Spec.scan round_trip timed].
  rewrite Do_late; [done|]. split; [done | apply Hlate].
Qed.

End waiting.

(** ** Properties *)

Section timing_properties.
Context {svc : Service} (cfg : ConfigStruct) (secrets : list Secret) (now : Time).

(** C10 (bounds: the time spent waiting).  Behind the client of main.go
    no request holds the program for more than ten seconds, so however
    the loop ends, the time it has spent waiting for the service is at
    most ten seconds for each request it may send: one for each
    translation asked for and one more for each credential. *)
Theorem main_loop_waits lines st' :
  final (main_loop (remote := timed httpClient svc) cfg secrets now lines initState) = Some st' ->
  0 <= waited httpClient st'
    <= 10 * Second
       * Z.of_nat (per_line cfg * length (omap (accept cfg now) lines) + length secrets).
Proof.
  intros H.
  pose proof (main_loop_costs (remote := timed httpClient svc) cfg secrets now lines _ _ H) as Hc.
  apply (main_loop_final (remote := timed httpClient svc)) in H as [[_ Hle] _].
  pose proof (waited_from_bound httpClient [] (sent st') eq_refl) as Hw.
  unfold costs in Hc. unfold waited. cbn [Timeout httpClient] in Hw. simpl in Hc, Hle.
  split; [lia|]. etrans; [apply Hw|]. apply Z.mul_le_mono_nonneg_l; [done | lia].
Qed.

End timing_properties.

(** ** Witnesses, on lines of [Pipeline.Run] *)

#[local] Existing Instance Slow.service.

Lemma translate_late_witness :
  translate (remote := timed httpClient Slow.service) Demo.cfg [Demo.fresh] initState "Why?"
  = Returned (record_request (request_for Demo.cfg "Why?" Demo.fresh) initState)
             ("", Some (Foreign ClientDo deadline_Do)) /\
  Contains deadline_Do "exceeded" = true.
Proof. apply (translate_late (svc := Slow.service)); by vm_compute. Qed.

Lemma main_loop_waits_witness :
  exists st',
    final (main_loop (remote := timed httpClient Slow.service) Demo.cfg Demo.secrets Run.now
             [Run.line1; Run.asked; Run.line2] initState) = Some st' /\
    0 <= waited httpClient st'
      <= 10 * Second
         * Z.of_nat (per_line Demo.cfg
                     * length (omap (accept Demo.cfg Run.now) [Run.line1; Run.asked; Run.line2])
                     + length Demo.secrets).
Proof.
  eexists. split; [vm_compute; reflexivity|].
  apply (main_loop_waits (svc := Slow.service) Demo.cfg Demo.secrets Run.now
           [Run.line1; Run.asked; Run.line2]).
  vm_compute. reflexivity.
Defined.
