(* ===== verification/Effects.v ===== *)
(** * Effects: the effects of the program in the order they happen

    [State] keeps the requests, the log and the output as three traces,
    which says nothing of how they interleave, and nothing of the
    response bodies: [translate] opens one with every request that is
    answered and closes it with [defer resp.Body.Close()] (main.go 249),
    that is, when the call returns or panics, after the recursive call
    for the next credential if there is one.  Here the program is given
    once more, producing the one sequence of its effects.

    - [Event]: a request handed to [httpClient.Do], a body opened, a
      body closed, a line logged, a text printed.  A body is named by the
      index of its request.
    - [traced]: the events of a computation, with its outcome;
      [and_then], [after] and [defer_close] compose them.
    - [translate_events], [emit_events], [main_loop_events]: the
      functions of [Translate] and [Pipeline], with their events.
    - [requests], [logs], [prints]: the three traces of [State], as
      projections of the events.
    - [bodies]: the stack of the bodies open after some events, if they
      were closed in the reverse order of their opening; [peak]: the
      largest number of bodies open at once.

    Theorems ([sound]): the functions with events compute the outcomes
    of the functions without; the traces of the state they end in are the
    projections of their events; every body opened is closed, also when
    the call panics, and the last opened first; a call holds at most one
    body for each credential left. *)

From stdpp Require Import base list strings gmap pretty.
From Stdlib Require Import Ascii Lia.
From S2P Require Import Prelude GoStrings GoTime Types ParseLine Translate Pipeline Process.

(** ** Definitions *)

Inductive Event : Type :=
| Requested (req : Request)
| Opened (n : nat)
| Closed (n : nat)
| Logged (e : LogEntry)
| Printed (text : string).

Definition traced (A : Type) : Type := list Event * outcome State A.

(** Sequencing: the events of the continuation follow, if the first
    computation returns. *)
Definition and_then {A B} (m : traced A) (k : State -> A -> traced B) : traced B :=
  match m.2 with
  | Returned s a => (m.1 ++ (k s a).1, (k s a).2)
  | Panicked s p => (m.1, Panicked s p)
  | OutOfFuel => (m.1, OutOfFuel)
  end.

(** Events that come before a computation. *)
Definition after {A} (evs : list Event) (m : traced A) : traced A := (evs ++ m.1, m.2).

(** [defer resp.Body.Close()]: the body is closed when the computation
    is over, whether it returns or panics. *)
Definition defer_close {A} (n : nat) (m : traced A) : traced A := (m.1 ++ [Closed n], m.2).

Definition requests (evs : list Event) : list Request :=
  omap (fun ev => if ev is Requested req then Some req else None) evs.

Definition logs (evs : list Event) : list LogEntry :=
  omap (fun ev => if ev is Logged e then Some e else None) evs.

Definition prints (evs : list Event) : list string :=
  omap (fun ev => if ev is Printed text then Some text else None) evs.

(** The bodies open after [evs], the last opened first, when [open] were
    open before; [None] when a body is closed that is not the last one
    opened. *)
Fixpoint bodies (open : list nat) (evs : list Event) : option (list nat) :=
  match evs with
  | [] => Some open
  | Opened n :: evs' => bodies (n :: open) evs'
  | Closed n :: evs' =>
      match open with
      | m :: open' => if decide (m = n) then bodies open' evs' else None
      | [] => None
      end
  | _ :: evs' => bodies open evs'
  end.

(** The number of bodies open after [evs], when [open] were open
    before. *)
Fixpoint level (open : nat) (evs : list Event) : nat :=
  match evs with
  | [] => open
  | Opened _ :: evs' => level (S open) evs'
  | Closed _ :: evs' => level (pred open) evs'
  | _ :: evs' => level open evs'
  end.

(** The largest number of bodies open at once during [evs], when [open]
    were open before. *)
Fixpoint peak (open : nat) (evs : list Event) : nat :=
  match evs with
  | [] => open
  | Opened _ :: evs' => peak (S open) evs'
  | Closed _ :: evs' => open `max` peak (pred open) evs'
  | _ :: evs' => peak open evs'
  end.

Section effects.
Context {remote : Remote} (cfg : ConfigStruct) (secrets : list Secret) (now : Time).

(** main.go 225-274. *)
Fixpoint translate_events (fuel : nat) (st : State) (content : string)
    : traced (string * option error) :=
  match fuel with
  | O => ([], OutOfFuel)
  | S fuel' =>
      if decide (content = "") then ([], Returned st ("", None))
      else
        match cache_lookup content st with
        | Some translated =>
            let e := Debugf ("using translation cache: " +:+ content) in
            ([Logged e], Returned (log e st) (translated, None))
        | None =>
            let data := request_body cfg content in
            match new_request "POST" papagoAPIEndpoint data with
            | Some msg => ([], Returned st ("", Some (Foreign NewRequest msg)))
            | None =>
                match current secrets st with
                | None => ([], Panicked st (IndexOutOfRange (secretIdx st) (length secrets)))
                | Some secret =>
                    let req := build_request data secret in
                    let n := length (sent st) in
                    let st1 := record_request req st in
                    match round_trip (sent st) req with
                    | DoFailed msg =>
                        ([Requested req], Returned st1 ("", Some (Foreign ClientDo msg)))
                    | rt =>
                        after [Requested req; Opened n] (defer_close n
                          match classify rt with
                          | Failure e => ([], Returned st1 ("", Some e))
                          | Quota =>
                              after [Logged (Infof (rotation_message (S (secretIdx st))))]
                                (translate_events fuel' (rotate st1) content)
                          | Text result =>
                              ([], Returned (cache_store content result st1) (result, None))
                          end)
                    end
                end
            end
        end
  end.

Definition translate_traced (st : State) (content : string) : traced (string * option error) :=
  translate_events (S (length secrets - secretIdx st)) st content.

(** main.go 152-165. *)
Definition translate_actor_events (st : State) (l : Log) : traced string :=
  if TranslateActorName cfg then
    and_then (translate_traced st (ActorName l)) (fun st1 r =>
      match r.2 with
      | Some err =>
          let e := Errorf err "translate error when translating actor name" in
          ([Logged e], Returned (log e st1) (ActorName l))
      | None => ([], Returned st1 r.1)
      end)
  else ([], Returned st (ActorName l)).

(** main.go 151-170. *)
Definition emit_events (st : State) (l : Log) : traced unit :=
  and_then (translate_actor_events st l) (fun st1 actor =>
  and_then (translate_traced st1 (Content l)) (fun st2 r =>
    let text := format_output actor r.1 in
    match r.2 with
    | Some err =>
        let e := Errorf err "translate error" in
        ([Logged e; Printed text], Returned (print text (log e st2)) tt)
    | None => ([Printed text], Returned (print text st2) tt)
    end)).

(** main.go 129-171. *)
Definition main_loop_body_events (st : State) (line : string) : traced unit :=
  match accept cfg now line with
  | None => ([], Returned st tt)
  | Some l => emit_events st l
  end.

Fixpoint main_loop_events (lines : list string) (st : State) : traced unit :=
  match lines with
  | [] => ([], Returned st tt)
  | line :: rest =>
      and_then (main_loop_body_events st line) (fun st' _ => main_loop_events rest st')
  end.

End effects.

(** The traces of [st'] are those of [st] and the projections of
    [evs]. *)
Record grows (st : State) (evs : list Event) (st' : State) : Prop := mkGrows {
  grows_sent : sent st' = sent st ++ requests evs;
  grows_logged : logged st' = logged st ++ logs evs;
  grows_stdout : stdout st' = stdout st ++ prints evs
}.

(** Every body opened in [evs] is closed in [evs], the last opened
    first. *)
Definition balanced (evs : list Event) : Prop :=
  forall open, bodies open evs = Some open.

(** A computation with events describes the computation [ref] from
    [st]. *)
Record sound {A} (st : State) (m : traced A) (ref : outcome State A) : Prop := mkSound {
  sound_outcome : m.2 = ref;
  sound_grows : forall st', final ref = Some st' -> grows st m.1 st';
  sound_balanced : balanced m.1
}.

(** Computations that hold at most [limit] bodies more than were open
    before. *)
Definition within {A} (limit : nat) (m : traced A) : Prop :=
  forall c, peak c m.1 <= c + limit.

(** ** Events and their projections *)

Section events.
Implicit Types (st : State) (evs : list Event) (open : list nat) (n : nat).

Lemma requests_app evs1 evs2 : requests (evs1 ++ evs2) = requests evs1 ++ requests evs2.
Proof. apply omap_app. Qed.

Lemma logs_app evs1 evs2 : logs (evs1 ++ evs2) = logs evs1 ++ logs evs2.
Proof. apply omap_app. Qed.

Lemma prints_app evs1 evs2 : prints (evs1 ++ evs2) = prints evs1 ++ prints evs2.
Proof. apply omap_app. Qed.

Lemma grows_nil st : grows st [] st.
Proof. split; simpl; by rewrite app_nil_r. Qed.

Lemma grows_app st evs1 st1 evs2 st2 :
  grows st evs1 st1 -> grows st1 evs2 st2 -> grows st (evs1 ++ evs2) st2.
Proof.
  intros [H1 H2 H3] [H4 H5 H6].
  split; rewrite ?requests_app, ?logs_app, ?prints_app, app_assoc; congruence.
Qed.

(** The elementary transitions, with their event. *)
Lemma grows_log e st : grows st [Logged e] (log e st).
Proof. split; simpl; by rewrite ?app_nil_r. Qed.

Lemma grows_print text st : grows st [Printed text] (print text st).
Proof. split; simpl; by rewrite ?app_nil_r. Qed.

Lemma grows_request req st : grows st [Requested req] (record_request req st).
Proof. split; simpl; by rewrite ?app_nil_r. Qed.

Lemma grows_rotate st :
  grows st [Logged (Infof (rotation_message (S (secretIdx st))))] (rotate st).
Proof. split; simpl; by rewrite ?app_nil_r. Qed.

Lemma grows_store content result st : grows st [] (cache_store content result st).
Proof. split; simpl; by rewrite app_nil_r. Qed.

(** Bodies do not show in the traces of the state. *)
Lemma grows_open n st evs st' :
  grows st evs st' -> grows st (Opened n :: evs ++ [Closed n]) st'.
Proof.
  intros [H1 H2 H3].
  change (Opened n :: evs ++ [Closed n]) with ([Opened n] ++ evs ++ [Closed n]).
  split; rewrite ?requests_app, ?logs_app, ?prints_app; simpl; by rewrite app_nil_r.
Qed.

Lemma bodies_app open evs1 evs2 :
  bodies open (evs1 ++ evs2) = bodies open evs1 ≫= fun open' => bodies open' evs2.
Proof.
  revert open. induction evs1 as [|[] evs1 IH]; intros open; simpl; try done.
  destruct open as [|m open]; [done|]. by case_decide.
Qed.

Lemma balanced_nil : balanced [].
Proof. by intros open. Qed.

Lemma balanced_app evs1 evs2 : balanced evs1 -> balanced evs2 -> balanced (evs1 ++ evs2).
Proof. intros H1 H2 open. rewrite bodies_app, H1. apply H2. Qed.

(** An event that is not about a body. *)
Lemma balanced_cons ev evs :
  (forall n, ev <> Opened n /\ ev <> Closed n) -> balanced evs -> balanced (ev :: evs).
Proof. intros Hev H open. destruct ev; simpl; try done; by destruct (Hev n). Qed.

(** A body opened before events that are balanced and closed after
    them. *)
Lemma balanced_open n evs : balanced evs -> balanced (Opened n :: evs ++ [Closed n]).
Proof. intros H open. simpl. rewrite bodies_app, H. simpl. by rewrite decide_True. Qed.

End events.

#[export] Hint Resolve grows_nil grows_log grows_print grows_request grows_rotate grows_store
  balanced_nil : go.

(** ** Computations with events *)

Section sound.
Context {A B : Type}.
Implicit Types (st : State) (evs : list Event) (m : traced A) (ref : outcome State A).

Lemma sound_Returned st evs st' (a : A) :
  grows st evs st' -> balanced evs -> sound st (evs, Returned st' a) (Returned st' a).
Proof. intros Hg Hb. split; [done| |done]. by intros ? [= <-]. Qed.

Lemma sound_Panicked st evs st' p :
  grows st evs st' -> balanced evs -> sound st (evs, @Panicked State A st' p) (Panicked st' p).
Proof. intros Hg Hb. split; [done| |done]. by intros ? [= <-]. Qed.

Lemma sound_OutOfFuel st : sound st ([], @OutOfFuel State A) OutOfFuel.
Proof. split; [done..|apply balanced_nil]. Qed.

(** Events that lead from [st] to [st1], before a computation from
    [st1]. *)
Lemma sound_after st evs st1 m ref :
  grows st evs st1 -> balanced evs -> sound st1 m ref -> sound st (after evs m) ref.
Proof.
  intros Hg Hb [Ho Hm Hbm]. split; [done| |by apply balanced_app].
  intros st' Hf. by eapply grows_app; [|apply Hm].
Qed.

(** A request that is answered: the body is open during the rest of the
    call. *)
Lemma sound_exchange st req n st1 m ref :
  grows st [Requested req] st1 -> sound st1 m ref ->
  sound st (after [Requested req; Opened n] (defer_close n m)) ref.
Proof.
  intros Hg [Ho Hm Hbm]. split; [done|..].
  - intros st' Hf. apply (grows_app st [Requested req] st1); [done|].
    by apply grows_open, Hm.
  - apply (balanced_app [Requested req]); [by apply balanced_cons|by apply balanced_open].
Qed.

Lemma sound_and_then st m ref (k : State -> A -> traced B) (kref : State -> A -> outcome State B) :
  sound st m ref ->
  (forall st1 a, ref = Returned st1 a -> sound st1 (k st1 a) (kref st1 a)) ->
  sound st (and_then m k) (bind ref kref).
Proof.
  intros [Ho Hm Hbm] Hk. unfold and_then. rewrite Ho.
  destruct ref as [st1 a|st1 p|]; simpl; [|by split..].
  destruct (Hk st1 a eq_refl) as [Hko Hkm Hkb]. split; [done| |by apply balanced_app].
  intros st' Hf. eapply grows_app; [by apply Hm | by apply Hkm].
Qed.

End sound.

(** Events that open and close nothing are balanced. *)
Ltac quiet := repeat first [apply balanced_nil | apply balanced_cons; [by intros|]].

(** ** The number of bodies open *)

Section peak.
Implicit Types (evs : list Event) (open : list nat) (c n limit : nat).

Lemma peak_ge c evs : c <= peak c evs.
Proof.
  revert c. induction evs as [|[] evs IH]; intros c; simpl; try done; [|lia].
  specialize (IH (S c)). lia.
Qed.

Lemma bodies_level open evs open' :
  bodies open evs = Some open' -> level (length open) evs = length open'.
Proof.
  revert open. induction evs as [|ev evs IH]; intros open; [by intros [= ->]|].
  destruct ev; simpl; try apply IH.
  destruct open as [|m open]; [by intros|]. case_decide; [apply IH | by intros].
Qed.

(** Balanced events leave open what was open. *)
Lemma balanced_level c evs : balanced evs -> level c evs = c.
Proof.
  intros H. specialize (H (replicate c 0)). apply bodies_level in H.
  by rewrite length_replicate in H.
Qed.

Lemma peak_app c evs1 evs2 :
  peak c (evs1 ++ evs2) = peak c evs1 `max` peak (level c evs1) evs2.
Proof.
  revert c. induction evs1 as [|[] evs1 IH]; intros c; simpl; rewrite ?IH; try done; [|lia].
  pose proof (peak_ge c evs2). lia.
Qed.

Lemma peak_balanced c evs1 evs2 :
  balanced evs1 -> peak c (evs1 ++ evs2) = peak c evs1 `max` peak c evs2.
Proof. intros H. by rewrite peak_app, balanced_level. Qed.

(** A body held during balanced events is one body more. *)
Lemma peak_open c n evs :
  balanced evs -> peak c (Opened n :: evs ++ [Closed n]) = peak (S c) evs.
Proof.
  intros H. simpl. rewrite peak_balanced by done. simpl. pose proof (peak_ge (S c) evs). lia.
Qed.

End peak.

Section within.
Context {A B : Type}.
Implicit Types (m : traced A) (limit : nat).

Lemma within_mono limit limit' m : limit <= limit' -> within limit m -> within limit' m.
Proof. intros Hle H c. specialize (H c). lia. Qed.

(** Events that open nothing. *)
Lemma within_quiet limit evs (out : outcome State A) :
  (forall c, peak c evs = c) -> within limit (evs, out).
Proof. intros H c. simpl. rewrite H. lia. Qed.

Lemma within_logged limit e m : within limit m -> within limit (after [Logged e] m).
Proof. intros H c. apply H. Qed.

(** A request that is answered holds one body more, for the rest of the
    call. *)
Lemma within_exchange limit req n m :
  balanced m.1 -> within limit m ->
  within (S limit) (after [Requested req; Opened n] (defer_close n m)).
Proof.
  intros Hb Hm c. unfold after, defer_close. cbn [fst app peak].
  rewrite peak_balanced by done. specialize (Hm (S c)). simpl. lia.
Qed.

Lemma within_and_then limit m (k : State -> A -> traced B) :
  balanced m.1 -> within limit m -> (forall s a, within limit (k s a)) ->
  within limit (and_then m k).
Proof.
  intros Hb Hm Hk c. unfold and_then. destruct m.2 as [s a| |]; simpl; [|apply Hm..].
  rewrite peak_balanced by done. specialize (Hm c). specialize (Hk s a c). lia.
Qed.

End within.

(** ** The program with its events *)

Section program.
Context {remote : Remote} (cfg : ConfigStruct) (secrets : list Secret) (now : Time).
Implicit Types (st : State) (l : Log) (line content : string) (lines : list string).

Lemma translate_events_sound fuel st content :
  sound st (translate_events cfg secrets fuel st content)
           (translate_fuel cfg fuel secrets st content).
Proof.
  revert st. induction fuel as [|fuel IH]; intros st; [apply sound_OutOfFuel|].
  cbn [translate_events translate_fuel]. case_decide; [apply sound_Returned; auto with go|].
  destruct (cache_lookup content st); [apply sound_Returned; [apply grows_log | quiet]|].
  destruct (new_request _ _ _); [apply sound_Returned; auto with go|].
  destruct (current secrets st) as [secret|]; [|apply sound_Panicked; auto with go].
  destruct (round_trip _ _) as [msg|msg|b] eqn:Ert.
  - apply sound_Returned; [apply grows_request | quiet].
  - eapply sound_exchange; [apply grows_request|]. apply sound_Returned; auto with go.
  - eapply sound_exchange; [apply grows_request|].
    destruct (classify (Replied b)) as [e| |result].
    + apply sound_Returned; auto with go.
    + eapply sound_after; [apply (grows_rotate (record_request _ st)) | quiet | apply IH].
    + apply sound_Returned; auto with go.
Qed.

Lemma translate_traced_sound st content :
  sound st (translate_traced cfg secrets st content) (translate cfg secrets st content).
Proof. apply translate_events_sound. Qed.

Lemma translate_actor_events_sound st l :
  sound st (translate_actor_events cfg secrets st l) (translate_actor cfg secrets st l).
Proof.
  unfold translate_actor_events, translate_actor.
  destruct (TranslateActorName cfg); [|apply sound_Returned; auto with go].
  apply sound_and_then; [apply translate_traced_sound|].
  intros st1 [text [err|]] _; apply sound_Returned; auto with go.
Qed.

Lemma emit_events_sound st l :
  sound st (emit_events cfg secrets st l) (emit cfg secrets st l).
Proof.
  unfold emit_events, emit.
  apply sound_and_then; [apply translate_actor_events_sound|]. intros st1 actor _.
  apply sound_and_then; [apply translate_traced_sound|].
  intros st2 [text [err|]] _; simpl; apply sound_Returned; try quiet.
  - eapply (grows_app _ [_] _ [_]); [apply grows_log | apply grows_print].
  - apply grows_print.
Qed.

Lemma main_loop_body_events_sound st line :
  sound st (main_loop_body_events cfg secrets now st line)
           (main_loop_body cfg secrets now st line).
Proof.
  unfold main_loop_body_events, main_loop_body.
  destruct (accept cfg now line); [apply emit_events_sound | apply sound_Returned; auto with go].
Qed.

Lemma main_loop_events_sound lines st :
  sound st (main_loop_events cfg secrets now lines st) (main_loop cfg secrets now lines st).
Proof.
  revert st. induction lines as [|line lines IH]; intros st;
    [apply sound_Returned; auto with go|].
  cbn [main_loop_events main_loop].
  apply sound_and_then; [apply main_loop_body_events_sound|]. intros st1 [] _. apply IH.
Qed.

(** The events of more lines are the events of the first lines, followed
    by those of the others from the state reached. *)
Lemma main_loop_events_app lines1 lines2 st :
  main_loop_events cfg secrets now (lines1 ++ lines2) st
  = and_then (main_loop_events cfg secrets now lines1 st)
             (fun st' _ => main_loop_events cfg secrets now lines2 st').
Proof.
  revert st. induction lines1 as [|line lines1 IH]; intros st; cbn [main_loop_events app].
  { unfold and_then. simpl. by destruct (main_loop_events _ _ _ _ _). }
  unfold and_then at 1 3. destruct (main_loop_body_events _ _ _ _ _) as [evs [st1 []|st1 p|]];
    simpl; [|done..].
  rewrite IH. unfold and_then. simpl.
  destruct (main_loop_events cfg secrets now lines1 st1) as [evs1 [st2 []|st2 p|]]; simpl;
    by rewrite ?app_assoc.
Qed.

(** A call holds one body for each credential it tries. *)
Lemma translate_events_within fuel st content :
  within (length secrets - secretIdx st) (translate_events cfg secrets fuel st content).
Proof.
  revert st. induction fuel as [|fuel IH]; intros st; [by apply within_quiet|].
  cbn [translate_events]. case_decide; [by apply within_quiet|].
  destruct (cache_lookup content st); [by apply within_quiet|].
  destruct (new_request _ _ _); [by apply within_quiet|].
  destruct (current secrets st) as [secret|] eqn:Hs; [|by apply within_quiet].
  unfold current in Hs. apply lookup_lt_Some in Hs.
  replace (length secrets - secretIdx st) with (S (length secrets - S (secretIdx st))) by lia.
  destruct (round_trip _ _) as [msg|msg|b]; [by apply within_quiet|..];
    apply within_exchange; try (by apply within_quiet); try quiet.
  - destruct (classify (Replied b)); [quiet| |quiet].
    apply balanced_cons; [by intros|]. apply translate_events_sound.
  - destruct (classify (Replied b)); [by apply within_quiet| |by apply within_quiet].
    apply within_logged, IH.
Qed.

Lemma translate_traced_within st content :
  within (length secrets) (translate_traced cfg secrets st content).
Proof. eapply within_mono; [|apply translate_events_within]. lia. Qed.

Lemma emit_events_within st l : within (length secrets) (emit_events cfg secrets st l).
Proof.
  unfold emit_events. apply within_and_then.
  - apply translate_actor_events_sound.
  - unfold translate_actor_events. destruct (TranslateActorName cfg); [|intros c; simpl; lia].
    apply within_and_then; [apply translate_traced_sound | apply translate_traced_within|].
    intros s [text [err|]] c; simpl; lia.
  - intros st1 actor. apply within_and_then;
      [apply translate_traced_sound | apply translate_traced_within|].
    intros s [text [err|]] c; simpl; lia.
Qed.

Lemma main_loop_events_within lines st :
  within (length secrets) (main_loop_events cfg secrets now lines st).
Proof.
  revert st. induction lines as [|line lines IH]; intros st; [intros c; simpl; lia|].
  cbn [main_loop_events]. apply within_and_then; [apply main_loop_body_events_sound| |by intros].
  unfold main_loop_body_events.
  destruct (accept cfg now line); [apply emit_events_within | intros c; simpl; lia].
Qed.

End program.

(** ** Properties *)

Section effects_properties.
Context {remote : Remote} (cfg : ConfigStruct) (secrets : list Secret) (now : Time).

(** C14 (ordering and resources: the effects of a run).  The loop with
    its events computes the outcome of the loop; the requests, the log
    and the output of the state it ends in are the events of each kind,
    in their order; every response body that was opened has been closed,
    the last opened first, also when the run ends in a panic; at no time
    are more bodies open than there are credentials; and the events of
    more lines begin with the events of the first lines: later lines
    never change or overtake the effects of earlier ones. *)
Theorem main_loop_effects lines st :
  let m := main_loop_events cfg secrets now lines st in
  m.2 = main_loop cfg secrets now lines st /\
  (forall st', final m.2 = Some st' -> grows st m.1 st') /\
  bodies [] m.1 = Some [] /\
  peak 0 m.1 <= length secrets /\
  forall more, m.1 `prefix_of` (main_loop_events cfg secrets now (lines ++ more) st).1.
Proof.
  destruct (main_loop_events_sound cfg secrets now lines st) as [Ho Hg Hb].
  simpl. split; [done|]. split; [|split; [apply Hb|split]].
  - intros st' Hf. apply Hg. by rewrite <- Ho.
  - apply (main_loop_events_within cfg secrets now lines st 0).
  - intros more. rewrite main_loop_events_app. unfold and_then.
    destruct (main_loop_events cfg secrets now lines st).2; simpl; [by apply prefix_app_r|done..].
Qed.

End effects_properties.

(** ** The events of a call that rotates twice

    Against [Demo.secrets] the first two requests are refused: their
    bodies stay open while the next credential is tried, and are closed
    in reverse order when the third request has been answered. *)
Example translate_traced_rotation :
  (translate_traced (remote := Demo.remote) Demo.cfg Demo.secrets initState "hello").1
  = [Requested (request_for Demo.cfg "hello" Demo.spent1); Opened 0;
     Logged (Infof (rotation_message 1));
     Requested (request_for Demo.cfg "hello" Demo.spent2); Opened 1;
     Logged (Infof (rotation_message 2));
     Requested (request_for Demo.cfg "hello" Demo.fresh); Opened 2;
     Closed 2; Closed 1; Closed 0].
Proof. vm_compute. reflexivity. Qed.

(** With both credentials spent the call panics, and the two bodies are
    closed on the way out. *)
Example translate_traced_panic :
  translate_traced (remote := Demo.remote) Demo.cfg [Demo.spent1; Demo.spent2] initState "hello"
  = ([Requested (request_for Demo.cfg "hello" Demo.spent1); Opened 0;
      Logged (Infof (rotation_message 1));
      Requested (request_for Demo.cfg "hello" Demo.spent2); Opened 1;
      Logged (Infof (rotation_message 2));
      Closed 1; Closed 0],
     Panicked (Spec.rotations Demo.cfg "hello" [Demo.spent1; Demo.spent2] initState)
       (IndexOutOfRange 2 2)).
Proof. vm_compute. reflexivity. Qed.
