(* ===== verification/Follow.v ===== *)
(** * Follow: the lines of a file that grows

    The tail (main.go 124, [tail.Config{Follow: true}]) reads the log
    while another process writes it, and hands the program whole lines:
    what is written after the last newline waits until its newline is
    written.  Library code, modelled from the contract spec.md gives for
    the Tail Source.

    - [scan_lines]: the whole lines of a text, and what follows the last
      newline.
    - [Followed], [opened], [grow]: what the tail holds, at the start
      and after bytes were appended to the file.
    - [follow]: the tail after a sequence of writes; [contents] is what
      these writes have put in the file.

    Theorems: the lines delivered are the whole lines of the contents,
    however the writes cut them ([follow_contents]); they hold no
    newline and, with what is pending, they are the contents
    ([scan_lines_Split]); more writes only add lines, so the effects of
    the program on what was delivered are the beginning of its effects
    later on ([follow_loop_prefix]). *)

From stdpp Require Import base list strings.
From Stdlib Require Import Ascii Lia.
From S2P Require Import Prelude GoStrings GoTime Types Translate Pipeline Effects.

(** ** Definitions *)

Definition newline : ascii := ascii_of_nat 10.

Fixpoint scan_lines (s : string) : list string * string :=
  match s with
  | "" => ([], "")
  | String c s' =>
      let (lines, rest) := scan_lines s' in
      if decide (c = newline) then ("" :: lines, rest)
      else match lines with
           | line :: lines' => (String c line :: lines', rest)
           | [] => ([], String c rest)
           end
  end.

Record Followed : Type := mkFollowed {
  delivered : list string;
  pending : string
}.

Definition opened : Followed := mkFollowed [] "".

(** The file has grown by [chunk]. *)
Definition grow (f : Followed) (chunk : string) : Followed :=
  let (lines, rest) := scan_lines (pending f +:+ chunk) in
  mkFollowed (delivered f ++ lines) rest.

Definition follow (chunks : list string) : Followed := foldl grow opened chunks.

Definition contents (chunks : list string) : string :=
  foldr (fun chunk s => chunk +:+ s) "" chunks.

(** ** Whole lines *)

Section scan.
Implicit Types (s t : string) (f : Followed) (chunks : list string).

Lemma scan_lines_sep_free s : sep_free newline s -> scan_lines s = ([], s).
Proof.
  unfold sep_free. induction s as [|c s IH]; [done|]. cbn [Count scan_lines].
  case_decide; [lia|]. intros ?. by rewrite IH.
Qed.

(** The lines and what is pending are the pieces of the text. *)
Lemma scan_lines_Split s :
  Split s newline = (scan_lines s).1 ++ [(scan_lines s).2].
Proof.
  induction s as [|c s IH]; [done|]. cbn [Split scan_lines].
  destruct (scan_lines s) as [[|l ls] r]; rewrite IH; by case_decide.
Qed.

Lemma scan_lines_pending s : sep_free newline (scan_lines s).2.
Proof.
  pose proof (Split_all_sep_free newline s) as H. rewrite scan_lines_Split in H.
  apply Forall_app in H as [_ H]. by inversion H.
Qed.

Lemma scan_lines_delivered s : Forall (sep_free newline) (scan_lines s).1.
Proof.
  pose proof (Split_all_sep_free newline s) as H. rewrite scan_lines_Split in H.
  by apply Forall_app in H as [H _].
Qed.

(** Nothing is lost: the lines, each with its newline, and what is
    pending are the text. *)
Lemma scan_lines_Join s :
  Join ((scan_lines s).1 ++ [(scan_lines s).2]) (String newline "") = s.
Proof. rewrite <- scan_lines_Split. apply Join_Split. Qed.

(** A text in two parts: the second part goes on where the first one
    stopped. *)
Lemma scan_lines_app s t :
  scan_lines (s +:+ t)
  = ((scan_lines s).1 ++ (scan_lines ((scan_lines s).2 +:+ t)).1,
     (scan_lines ((scan_lines s).2 +:+ t)).2).
Proof.
  induction s as [|c s IH].
  { rewrite string_app_nil_l. cbn [scan_lines fst snd app]. rewrite string_app_nil_l.
    by destruct (scan_lines t). }
  rewrite string_app_cons. cbn [scan_lines]. rewrite IH.
  destruct (scan_lines s) as [[|l ls] r]; case_decide; cbn [fst snd app]; try done.
  rewrite string_app_cons. cbn [scan_lines].
  destruct (scan_lines (r +:+ t)) as [[|l ls] r']; by rewrite decide_False.
Qed.

Lemma grow_pending f chunk : sep_free newline (pending (grow f chunk)).
Proof.
  unfold grow. pose proof (scan_lines_pending (pending f +:+ chunk)).
  by destruct (scan_lines _).
Qed.

Lemma foldl_grow f chunks :
  sep_free newline (pending f) ->
  foldl grow f chunks
  = mkFollowed (delivered f ++ (scan_lines (pending f +:+ contents chunks)).1)
               (scan_lines (pending f +:+ contents chunks)).2.
Proof.
  revert f. induction chunks as [|chunk chunks IH]; intros f Hf; cbn [foldl contents foldr].
  - rewrite string_app_nil_r, scan_lines_sep_free, app_nil_r by done. by destruct f.
  - rewrite IH by apply grow_pending. unfold grow.
    rewrite <- string_app_assoc, (scan_lines_app (pending f +:+ chunk)).
    destruct (scan_lines (pending f +:+ chunk)) as [ls r]. cbn [delivered pending fst snd].
    by rewrite app_assoc.
Qed.

(** However the writes cut the contents, the lines delivered are its
    whole lines. *)
Lemma follow_contents chunks :
  follow chunks
  = mkFollowed (scan_lines (contents chunks)).1 (scan_lines (contents chunks)).2.
Proof. unfold follow. by rewrite foldl_grow. Qed.

Lemma contents_app chunks more : contents (chunks ++ more) = contents chunks +:+ contents more.
Proof.
  induction chunks as [|chunk chunks IH]; cbn [app contents foldr]; [done|].
  fold (contents (chunks ++ more)). fold (contents chunks). by rewrite IH, string_app_assoc.
Qed.

(** More writes add lines and take none back. *)
Lemma follow_app chunks more :
  delivered (follow chunks) `prefix_of` delivered (follow (chunks ++ more)).
Proof.
  rewrite !follow_contents, contents_app, scan_lines_app. cbn [delivered fst].
  by apply prefix_app_r.
Qed.

End scan.

(** ** The program on a file that grows *)

Section follow_loop.
Context {remote : Remote} (cfg : ConfigStruct) (secrets : list Secret) (now : Time).

(** What the program has done with the lines delivered so far is the
    beginning of what it has done after more writes. *)
Lemma follow_loop_prefix chunks more st :
  (main_loop_events cfg secrets now (delivered (follow chunks)) st).1
  `prefix_of`
  (main_loop_events cfg secrets now (delivered (follow (chunks ++ more))) st).1.
Proof.
  destruct (follow_app chunks more) as [lines ->].
  rewrite main_loop_events_app. unfold and_then.
  destruct (main_loop_events _ _ _ _ _) as [evs [st' []|st' p|]]; cbn [fst];
    [by apply prefix_app_r | done..].
Qed.

End follow_loop.

(** ** Examples *)

(** Two lines written in three pieces that cut them anywhere: the first
    line is delivered with the second write, the second with the third,
    and the bytes after it wait. *)
Example follow_three_writes :
  follow ["00|2022-"; "10-22|a" +:+ String newline "01|20"; "22|b" +:+ String newline "02"]
  = mkFollowed ["00|2022-10-22|a"; "01|2022|b"] "02".
Proof. vm_compute. reflexivity. Qed.
