(* ===== verification/Observe.v ===== *)
(** * Observe: what the behaviour of the program depends on

    The process never reads its log or its output: what it does next is
    decided by the cursor, the cache and the requests it has sent (on
    which the answers of the service may depend).  Two states that agree
    on these three are equivalent, and every function of the program
    respects the equivalence.

    - [alike], the equivalence [≡] on [State]: same cursor, same cache,
      same requests.
    - [agree], the equivalence [≡] on outcomes: the same way of ending,
      with the same value, in equivalent states.
    - [same_effects], the equivalence [≡] on computations with events:
      the same events and equivalent outcomes.

    The functions of the program are [Proper] for these relations, so
    that equivalent states can be rewritten one for the other under
    [translate], [emit] and the loop ([main_loop_events_proper],
    [main_loop_proper]).  These are lemmas for rewriting, a consequence
    of the fact that log and output are only written; no property of the
    program is claimed from them. *)

From stdpp Require Import base list strings gmap.
From Stdlib Require Import Ascii Lia.
From S2P Require Import Prelude GoStrings GoTime Types ParseLine Translate Pipeline Process Effects.

(** ** Definitions *)

Record alike (st st' : State) : Prop := mkAlike {
  alike_idx : secretIdx st = secretIdx st';
  alike_cache : translateCache st = translateCache st';
  alike_sent : sent st = sent st'
}.

#[global] Instance state_equiv : Equiv State := alike.

Inductive agree {A : Type} : Equiv (outcome State A) :=
| agree_Returned st st' a : st ≡ st' -> agree (Returned st a) (Returned st' a)
| agree_Panicked st st' p : st ≡ st' -> agree (Panicked st p) (Panicked st' p)
| agree_OutOfFuel : agree OutOfFuel OutOfFuel.

#[global] Existing Instance agree.

Definition same_effects {A : Type} : Equiv (traced A) :=
  fun m m' => m.1 = m'.1 /\ m.2 ≡ m'.2.

#[global] Existing Instance same_effects.

(** ** The equivalences *)

#[global] Instance alike_equivalence : Equivalence (≡@{State}).
Proof.
  split.
  - by intros st.
  - by intros st st' [].
  - intros st1 st2 st3 [] []. split; congruence.
Qed.

#[global] Instance agree_equivalence {A} : Equivalence (≡@{outcome State A}).
Proof.
  split.
  - intros [st a|st p|]; by constructor.
  - intros m m' []; by constructor.
  - intros m1 m2 m3 H1 H2. destruct H1; inversion_clear H2; constructor; by etrans.
Qed.

#[global] Instance same_effects_equivalence {A} : Equivalence (≡@{traced A}).
Proof.
  split.
  - by intros m.
  - by intros m m' [].
  - intros m1 m2 m3 [] []. split; [congruence | by etrans].
Qed.

(** ** The operations on states *)

Section state.
Implicit Types (st : State) (e : LogEntry) (req : Request) (content text : string).

#[global] Instance secretIdx_proper : Proper ((≡) ==> (=)) secretIdx.
Proof. by intros st st' []. Qed.

#[global] Instance sent_proper : Proper ((≡) ==> (=)) sent.
Proof. by intros st st' []. Qed.

#[global] Instance cache_lookup_proper content : Proper ((≡) ==> (=)) (cache_lookup content).
Proof. intros st st' []. unfold cache_lookup. congruence. Qed.

#[global] Instance current_proper secrets : Proper ((≡) ==> (=)) (current secrets).
Proof. intros st st' []. unfold current. congruence. Qed.

(** Logging and printing change nothing that matters. *)
Lemma log_alike e st : log e st ≡ st.
Proof. by split. Qed.

Lemma print_alike text st : print text st ≡ st.
Proof. by split. Qed.

#[global] Instance log_proper e : Proper ((≡) ==> (≡)) (log e).
Proof. intros st st' H. by rewrite !log_alike. Qed.

#[global] Instance print_proper text : Proper ((≡) ==> (≡)) (print text).
Proof. intros st st' H. by rewrite !print_alike. Qed.

#[global] Instance record_request_proper req : Proper ((≡) ==> (≡)) (record_request req).
Proof. intros st st' []. split; simpl; congruence. Qed.

#[global] Instance cache_store_proper content text :
  Proper ((≡) ==> (≡)) (cache_store content text).
Proof. intros st st' []. split; simpl; congruence. Qed.

#[global] Instance rotate_proper : Proper ((≡) ==> (≡)) rotate.
Proof. intros st st' []. split; simpl; congruence. Qed.

End state.

(** ** Computations with events *)

Section computations.
Context {A B : Type}.
Implicit Types (m : traced A) (evs : list Event) (n : nat).

(** A computation that ends at once. *)
Lemma same_effects_Returned evs st st' (a : A) :
  st ≡ st' -> (evs, Returned st a) ≡ (evs, Returned st' a).
Proof. intros H. split; [done | by constructor]. Qed.

#[global] Instance after_proper evs : Proper ((≡) ==> (≡)) (@after A evs).
Proof. intros m m' [He Ho]. split; simpl; [by rewrite He | done]. Qed.

#[global] Instance defer_close_proper n : Proper ((≡) ==> (≡)) (@defer_close A n).
Proof. intros m m' [He Ho]. split; simpl; [by rewrite He | done]. Qed.

Lemma and_then_proper m m' (k k' : State -> A -> traced B) :
  m ≡ m' -> (forall st st' a, st ≡ st' -> k st a ≡ k' st' a) ->
  and_then m k ≡ and_then m' k'.
Proof.
  destruct m as [evs out], m' as [evs' out']. intros [He Ho] Hk. simpl in He, Ho. subst evs'.
  unfold and_then. destruct Ho as [st st' a H|st st' p H|]; simpl;
    [|split; [done | by constructor]..].
  destruct (Hk st st' a H) as [Hke Hko]. split; simpl; [by rewrite Hke | done].
Qed.

End computations.

(** ** The program *)

Section program.
Context {remote : Remote} (cfg : ConfigStruct) (secrets : list Secret) (now : Time).
Implicit Types (st : State) (l : Log) (line content : string) (lines : list string).

#[global] Instance translate_events_proper fuel :
  Proper ((≡) ==> (=) ==> (≡)) (translate_events cfg secrets fuel).
Proof.
  induction fuel as [|fuel IH]; intros st st' H content ? <-; [by split; [|constructor]|].
  cbn [translate_events].
  rewrite <- (cache_lookup_proper content _ _ H), <- (current_proper secrets _ _ H),
    <- (sent_proper _ _ H), <- (secretIdx_proper _ _ H).
  case_decide; [by apply same_effects_Returned|].
  destruct (cache_lookup content st); [apply same_effects_Returned; by rewrite H|].
  destruct (new_request _ _ _); [by apply same_effects_Returned|].
  destruct (current secrets st) as [secret|]; [|split; [done | by constructor]].
  destruct (round_trip _ _) as [msg|msg|b]; [apply same_effects_Returned; by rewrite H|..];
    apply after_proper, defer_close_proper.
  - apply same_effects_Returned. by rewrite H.
  - destruct (classify (Replied b)); [apply same_effects_Returned; by rewrite H| |].
    + apply after_proper, IH; [by rewrite H | done].
    + apply same_effects_Returned. by rewrite H.
Qed.

#[global] Instance translate_traced_proper :
  Proper ((≡) ==> (=) ==> (≡)) (translate_traced cfg secrets).
Proof.
  intros st st' H content ? <-. unfold translate_traced.
  rewrite <- (secretIdx_proper _ _ H). by apply translate_events_proper.
Qed.

#[global] Instance translate_actor_events_proper :
  Proper ((≡) ==> (=) ==> (≡)) (translate_actor_events cfg secrets).
Proof.
  intros st st' H l ? <-. unfold translate_actor_events.
  destruct (TranslateActorName cfg); [|by apply same_effects_Returned].
  apply and_then_proper; [by apply translate_traced_proper|].
  intros st1 st1' [text [err|]] H1; simpl; apply same_effects_Returned; by rewrite ?H1.
Qed.

#[global] Instance emit_events_proper : Proper ((≡) ==> (=) ==> (≡)) (emit_events cfg secrets).
Proof.
  intros st st' H l ? <-. unfold emit_events.
  apply and_then_proper; [by apply translate_actor_events_proper|]. intros st1 st1' actor H1.
  apply and_then_proper; [by apply translate_traced_proper|].
  intros st2 st2' [text [err|]] H2; simpl; apply same_effects_Returned; by rewrite H2.
Qed.

#[global] Instance main_loop_events_proper lines :
  Proper ((≡) ==> (≡)) (main_loop_events cfg secrets now lines).
Proof.
  induction lines as [|line lines IH]; intros st st' H; [by apply same_effects_Returned|].
  cbn [main_loop_events]. apply and_then_proper; [|intros st1 st1' [] H1; by apply IH].
  unfold main_loop_body_events.
  destruct (accept cfg now line); [by apply emit_events_proper | by apply same_effects_Returned].
Qed.

(** The functions without events, through [sound]. *)
#[global] Instance translate_proper : Proper ((≡) ==> (=) ==> (≡)) (translate cfg secrets).
Proof.
  intros st st' H content ? <-.
  rewrite <- (sound_outcome _ _ _ (translate_traced_sound cfg secrets st content)),
    <- (sound_outcome _ _ _ (translate_traced_sound cfg secrets st' content)).
  by apply translate_traced_proper.
Qed.

#[global] Instance main_loop_proper lines : Proper ((≡) ==> (≡)) (main_loop cfg secrets now lines).
Proof.
  intros st st' H.
  rewrite <- (sound_outcome _ _ _ (main_loop_events_sound cfg secrets now lines st)),
    <- (sound_outcome _ _ _ (main_loop_events_sound cfg secrets now lines st')).
  by apply main_loop_events_proper.
Qed.

(** What was logged before a run changes nothing of the run. *)
Lemma main_loop_log e lines st :
  main_loop cfg secrets now lines (log e st) ≡ main_loop cfg secrets now lines st.
Proof. by rewrite log_alike. Qed.

End program.
