(* ===== verification/Startup.v ===== *)
(** * Startup: from the start of main to the loop

    main.go 64-127 reads its surroundings once, in this order: the
    environment ([parseEnv], the tags of [ConfigStruct]), the file of the
    credentials, the log directory (from which [mostRecentLog] picks the
    file), the clock, and the file to tail.  Each of the five reads can
    end the process through logrus's [Fatal]; on the way the
    configuration and the chosen file are logged.

    - [World]: the surroundings, as the answers of those reads;
      [startE] names the reads, and [respond] is the answer of a world
      to each.
    - [getOr], [ParseBool], [parseEnv]: env.Parse on [ConfigStruct].
      Whether a variable that is set to the empty string takes the
      default of its tag differs between versions of the library: it is
      the parameter [empty_default], and the theorems hold for both.
    - [fatal], [Started], [startup]: the five exits and the values the
      loop is entered with.
    - [main]: [startup], then [main_loop] from [initState].

    Theorems: the only configuration error; without chat codes the
    program starts, runs and prints nothing; without credentials it
    starts and panics on the first text it has to translate. *)

From stdpp Require Import base list strings gmap.
From Stdlib Require Import Ascii Lia.
From S2P Require Import Prelude GoStrings GoTime Types ParseLine Translate Json Pipeline.

(** ** The surroundings *)

Record World : Type := mkWorld {
  (** the variables of the environment *)
  environ : gmap string string;
  (** [os.ReadFile]: the contents, or the message of the error *)
  ReadFile : string -> string + string;
  (** [os.ReadDir]: the entries, or the message of the error *)
  ReadDir : string -> list DirEntry + string;
  (** [time.Now()] at main.go 122 *)
  Now : Time;
  (** [tail.TailFile(path.Join(dir, name), ...)]: the message of its
      error, if any *)
  TailFile : string -> string -> option string
}.

(** The five reads of main, by the type of their answer: [env.Parse]
    (main.go 69), [os.ReadFile] (87), [os.ReadDir] (96), [time.Now]
    (122) and [tail.TailFile] (124). *)
Variant startE : Type -> Type :=
| GetEnviron : startE (gmap string string)
| OsReadFile (name : string) : startE (string + string)
| OsReadDir (name : string) : startE (list DirEntry + string)
| TimeNow : startE Time
| TailTailFile (dir name : string) : startE (option string).

(** What a world answers. *)
Definition respond (w : World) {A : Type} (q : startE A) : A :=
  match q with
  | GetEnviron => environ w
  | OsReadFile name => ReadFile w name
  | OsReadDir name => ReadDir w name
  | TimeNow => Now w
  | TailTailFile dir name => TailFile w dir name
  end.

(** ** The environment *)

(** strconv.ParseBool. *)
Definition ParseBool (s : string) : option bool :=
  if bool_decide (s ∈ ["1"; "t"; "T"; "TRUE"; "true"; "True"]) then Some true
  else if bool_decide (s ∈ ["0"; "f"; "F"; "FALSE"; "false"; "False"]) then Some false
  else None.

Section env.
Context (empty_default : bool).

(** The text env.Parse works with for a field: the value of the
    variable, or the [envDefault] of the tag. *)
Definition getOr (env : gmap string string) (key : string) (defaultValue : option string)
    : string :=
  match env !! key, defaultValue with
  | Some value, Some d => if empty_default && bool_decide (value = "") then d else value
  | Some value, None => value
  | None, Some d => d
  | None, None => ""
  end.

(** main.go 49-57 and 68-73.  An empty text leaves the field at its zero
    value; a list is split at the commas; the only text that can be
    refused is the one of the boolean.  The error is the name of the
    field and the text. *)
Definition parseEnv (env : gmap string string) : ConfigStruct + (string * string) :=
  let codes := getOr env "TARGET_CHATCODES" None in
  let toggle := getOr env "TRANSLATE_ACTOR_NAME" (Some "false") in
  match (if decide (toggle = "") then Some false else ParseBool toggle) with
  | None => inr ("TranslateActorName", toggle)
  | Some translateActorName =>
      inl (mkConfig
             (getOr env "LOG_DIRECTORY" None)
             (if decide (codes = "") then [] else Split codes ",")
             (getOr env "SECRET_FILE_NAME" (Some "secret.json"))
             (getOr env "SOURCE_LANGUAGE" (Some "ja"))
             (getOr env "TARGET_LANGUAGE" (Some "ko"))
             translateActorName)
  end.

End env.

(** ** The start of main *)

(** The five calls of [Fatal] (main.go 79-81, 86-88, 89-91, 97-99 and
    125-127). *)
Inductive fatal : Type :=
| FailedToParseEnv (field value : string)
| ReadSecretFailed (msg : string)
| UnmarshalSecretFailed (msg : string)
| FailedToReadLogDirectory (msg : string)
| TailFileError (msg : string).

(** What the loop is entered with. *)
Record Started : Type := mkStarted {
  Config : ConfigStruct;
  secret : list Secret;
  logFileName : string;
  now : Time
}.

(** [%+v] of a [ConfigStruct] (main.go 83). *)
Definition show_config (cfg : ConfigStruct) : string :=
  "{LogDirectory:" +:+ LogDirectory cfg
  +:+ " TargetChatCodes:[" +:+ Join (TargetChatCodes cfg) " "
  +:+ "] SecretFileName:" +:+ SecretFileName cfg
  +:+ " SourceLanguage:" +:+ SourceLanguage cfg
  +:+ " TargetLanguage:" +:+ TargetLanguage cfg
  +:+ " TranslateActorName:" +:+ (if TranslateActorName cfg then "true" else "false")
  +:+ "}".

Section startup.
Context {syntax : JsonSyntax} (empty_default : bool).

(** main.go 77-127: the lines logged, and the exit or the values of the
    loop. *)
Definition startup (w : World) : list LogEntry * (fatal + Started) :=
  match parseEnv empty_default (environ w) with
  | inr (field, value) => ([], inl (FailedToParseEnv field value))
  | inl cfg =>
      let logged1 := [Infof ("using config: " +:+ show_config cfg)] in
      match ReadFile w (SecretFileName cfg) with
      | inr msg => (logged1, inl (ReadSecretFailed msg))
      | inl b =>
          match unmarshal_Secrets b with
          | inr msg => (logged1, inl (UnmarshalSecretFailed msg))
          | inl secrets =>
              match ReadDir w (LogDirectory cfg) with
              | inr msg => (logged1, inl (FailedToReadLogDirectory msg))
              | inl logFiles =>
                  let name := (mostRecentLog logFiles).1 in
                  let logged2 :=
                    logged1 ++ [Infof ("using most recent log file: " +:+ name)] in
                  match TailFile w (LogDirectory cfg) name with
                  | Some msg => (logged2, inl (TailFileError msg))
                  | None => (logged2, inr (mkStarted cfg secrets name (Now w)))
                  end
              end
          end
      end
  end.

(** main.go 77-172 on the lines the tail delivers. *)
Definition main {remote : Remote} (w : World) (lines : list string)
    : list LogEntry * (fatal + outcome State unit) :=
  match startup w with
  | (logged, inl f) => (logged, inl f)
  | (logged, inr s) =>
      (logged, inr (main_loop (Config s) (secret s) (now s) lines initState))
  end.

End startup.

(** ** A world for the witnesses

    The directory "logs" holds the listing of [Pipeline.Run]; the file
    "secret.json" holds the three credentials of [Demo], "none.json" an
    empty array. *)
Module Boot.

#[export] Instance syntax : JsonSyntax := {
  json_parse b :=
    if decide (b = "three") then inl (JArray (map marshal_Secret Demo.secrets))
    else if decide (b = "[]") then inl (JArray [])
    else inr "invalid character";
  equal_fold := @equal_fold Script.syntax
}.

Definition world (env : gmap string string) : World := {|
  environ := env;
  ReadFile name :=
    if decide (name = "secret.json") then inl "three"
    else if decide (name = "none.json") then inl "[]"
    else inr "open: no such file or directory";
  ReadDir name :=
    if decide (name = "logs") then inl Run.listing
    else inr "open: no such file or directory";
  Now := Run.now;
  TailFile _ _ := None
|}.

Definition configured : gmap string string :=
  {[ "LOG_DIRECTORY" := "logs"; "TARGET_CHATCODES" := "003D,000A" ]}.

Definition no_codes : gmap string string := {[ "LOG_DIRECTORY" := "logs" ]}.

Definition no_secrets : gmap string string :=
  {[ "LOG_DIRECTORY" := "logs"; "TARGET_CHATCODES" := "003D,000A";
     "SECRET_FILE_NAME" := "none.json" ]}.

End Boot.

(** ** The environment *)

Section env_lemmas.
Context (empty_default : bool).
Implicit Types (env : gmap string string) (cfg : ConfigStruct).

Lemma ParseBool_None s :
  ParseBool s = None <->
  s ∉ ["1"; "t"; "T"; "TRUE"; "true"; "True"; "0"; "f"; "F"; "FALSE"; "false"; "False"].
Proof.
  unfold ParseBool. change [ "1"; "t"; "T"; "TRUE"; "true"; "True"; "0"; "f"; "F"; "FALSE"; "false"; "False"]
    with (["1"; "t"; "T"; "TRUE"; "true"; "True"] ++ ["0"; "f"; "F"; "FALSE"; "false"; "False"]).
  rewrite elem_of_app. repeat case_bool_decide; intuition congruence.
Qed.

(** A variable that is not set leaves the default of the tag. *)
Lemma getOr_unset env key defaultValue :
  env !! key = None -> getOr empty_default env key defaultValue = default "" defaultValue.
Proof. unfold getOr. intros ->. by destruct defaultValue. Qed.

(** A variable that is set to a text that is not empty gives that
    text. *)
Lemma getOr_set env key defaultValue value :
  env !! key = Some value -> value <> "" ->
  getOr empty_default env key defaultValue = value.
Proof.
  unfold getOr. intros -> Hne. destruct defaultValue; [|done].
  by rewrite bool_decide_false, andb_false_r.
Qed.

(** Without a default, the text is the value, set or not. *)
Lemma getOr_no_default env key :
  getOr empty_default env key None = default "" (env !! key).
Proof. unfold getOr. by destruct (env !! key). Qed.

(** In an empty environment every field has the default of its tag. *)
Lemma parseEnv_empty : parseEnv empty_default ∅ = inl defaultConfig.
Proof. unfold parseEnv, getOr. by rewrite !lookup_empty. Qed.

(** The configuration, when the boolean is accepted. *)
Lemma parseEnv_inl env cfg :
  parseEnv empty_default env = inl cfg ->
  TargetChatCodes cfg
  = (let codes := getOr empty_default env "TARGET_CHATCODES" None in
     if decide (codes = "") then [] else Split codes ",") /\
  LogDirectory cfg = getOr empty_default env "LOG_DIRECTORY" None /\
  SecretFileName cfg = getOr empty_default env "SECRET_FILE_NAME" (Some "secret.json").
Proof.
  unfold parseEnv. destruct (if decide _ then _ else _); [|done]. by intros [= <-].
Qed.

End env_lemmas.

(** ** The start *)

Section startup_lemmas.
Context {syntax : JsonSyntax} {remote : Remote} (empty_default : bool).
Implicit Types (w : World) (s : Started) (cfg : ConfigStruct) (lines : list string).

(** How [startup] reaches the loop: all five reads succeeded. *)
Lemma startup_inr w logged s :
  startup empty_default w = (logged, inr s) <->
  exists b logFiles,
    parseEnv empty_default (environ w) = inl (Config s) /\
    ReadFile w (SecretFileName (Config s)) = inl b /\
    unmarshal_Secrets b = inl (secret s) /\
    ReadDir w (LogDirectory (Config s)) = inl logFiles /\
    logFileName s = (mostRecentLog logFiles).1 /\
    TailFile w (LogDirectory (Config s)) (logFileName s) = None /\
    now s = Now w /\
    logged = [Infof ("using config: " +:+ show_config (Config s));
              Infof ("using most recent log file: " +:+ logFileName s)].
Proof.
  unfold startup. split.
  - destruct (parseEnv _ _) as [cfg|[]] eqn:Ep; [|done].
    destruct (ReadFile w _) as [b|] eqn:Er; [|done].
    destruct (unmarshal_Secrets b) as [secrets|] eqn:Es; [|done].
    destruct (ReadDir w _) as [logFiles|] eqn:Ed; [|done].
    destruct (TailFile w _ _) eqn:Et; [done|]. intros [= <- <-]. by exists b, logFiles.
  - intros (b & logFiles & -> & -> & -> & -> & Hn & Ht & Hnow & ->).
    rewrite <- Hn, Ht, <- Hnow. by destruct s.
Qed.

(** Decoding an empty array, or [null], gives no credentials and no
    error. *)
Lemma unmarshal_Secrets_empty b :
  json_parse b = inl (JArray []) \/ json_parse b = inl JNull -> unmarshal_Secrets b = inl [].
Proof. unfold unmarshal_Secrets, unmarshal. by intros [-> | ->]. Qed.

(** Without chat codes no line is accepted, and the loop does nothing. *)
Lemma main_loop_no_codes cfg secrets start lines st :
  TargetChatCodes cfg = [] -> main_loop cfg secrets start lines st = Returned st tt.
Proof.
  intros Hc. induction lines as [|line lines IH]; simpl; [done|].
  unfold main_loop_body, accept. rewrite Hc.
  destruct (parseLine line) as [l [e|]]; simpl; [done|].
  by destruct (Before _ _).
Qed.

(** Without credentials the first translation panics. *)
Lemma translate_no_credentials cfg st content :
  content <> "" -> cache_lookup content st = None ->
  new_request "POST" papagoAPIEndpoint (request_body cfg content) = None ->
  translate cfg [] st content = Panicked st (IndexOutOfRange (secretIdx st) 0).
Proof. intros Hne Hmiss Hreq. rewrite translate_scan by done. by rewrite drop_nil. Qed.

End startup_lemmas.

(** ** Properties of the start *)

Section startup_properties.
Context {syntax : JsonSyntax} {remote : Remote} (empty_default : bool).
Implicit Types (w : World) (s : Started) (cfg : ConfigStruct) (lines : list string).

(** C16 (error: the configuration).  The only text of the environment
    that [parseEnv] refuses is the one of TRANSLATE_ACTOR_NAME, when it
    is not empty and not one of the twelve spellings of a boolean; every
    other variable is taken as it is. *)
Theorem parseEnv_error_iff env field value :
  parseEnv empty_default env = inr (field, value) <->
  field = "TranslateActorName" /\
  value = getOr empty_default env "TRANSLATE_ACTOR_NAME" (Some "false") /\
  value <> "" /\
  value ∉ ["1"; "t"; "T"; "TRUE"; "true"; "True"; "0"; "f"; "F"; "FALSE"; "false"; "False"].
Proof.
  unfold parseEnv. rewrite <- ParseBool_None.
  destruct (decide (getOr _ _ _ _ = "")) as [E|E].
  - split; [done|]. intros (_ & -> & ? & _). done.
  - destruct (ParseBool _) eqn:Eb.
    + split; [done|]. intros (_ & -> & _ & ?). congruence.
    + split; [by intros [= <- <-] | by intros (-> & -> & _)].
Qed.

(** C37 (functional: no chat codes).  When TARGET_CHATCODES is not set,
    or set to the empty text, and the start succeeds, the program tails
    the log and never prints, sends or logs anything more, whatever the
    log contains. *)
Theorem unconfigured_prints_nothing w logged s lines :
  default "" (environ w !! "TARGET_CHATCODES") = "" ->
  startup empty_default w = (logged, inr s) ->
  main empty_default w lines = (logged, inr (Returned initState tt)).
Proof.
  intros Hc Hs. unfold main. rewrite Hs.
  apply startup_inr in Hs as (b & logFiles & (Hcodes & _)%parseEnv_inl & _).
  rewrite getOr_no_default, Hc in Hcodes. simpl in Hcodes.
  by rewrite main_loop_no_codes.
Qed.

(** C38 (error: no credentials).  A file of credentials that holds an
    empty array, or [null], passes the start: the program runs until the
    first accepted line whose content has to be translated, and panics
    there on [secrets[*secretIdx]] with index 0 and length 0. *)
Theorem no_credentials_crash w logged s line l lines :
  startup empty_default w = (logged, inr s) -> secret s = [] ->
  accept (Config s) (now s) line = Some l ->
  TranslateActorName (Config s) = false -> Content l <> "" ->
  new_request "POST" papagoAPIEndpoint (request_body (Config s) (Content l)) = None ->
  main empty_default w (line :: lines)
  = (logged, inr (Panicked initState (IndexOutOfRange 0 0))).
Proof.
  intros Hs Hsec Ha Hcfg Hne Hreq. unfold main. rewrite Hs, Hsec.
  cbn [main_loop]. unfold main_loop_body. rewrite Ha. unfold emit, translate_actor.
  rewrite Hcfg. cbn [bind]. by rewrite translate_no_credentials.
Qed.

End startup_properties.

(** ** Witnesses *)

#[local] Existing Instance Demo.remote.
#[local] Existing Instance Boot.syntax.

(** The start in the world of [Boot], with everything configured. *)
Lemma startup_configured :
  (startup false (Boot.world Boot.configured)).2
  = inr (mkStarted Demo.cfg Demo.secrets "Network_2.log" Run.now).
Proof. vm_compute. reflexivity. Qed.

Lemma unconfigured_prints_nothing_witness :
  exists logged,
    main false (Boot.world Boot.no_codes) [Run.line1; Run.line2]
    = (logged, inr (Returned initState tt)).
Proof.
  eexists.
  eapply (unconfigured_prints_nothing false (Boot.world Boot.no_codes)); reflexivity.
Defined.

Lemma no_credentials_crash_witness :
  exists logged,
    main false (Boot.world Boot.no_secrets) [Run.line1; Run.line2]
    = (logged, inr (Panicked initState (IndexOutOfRange 0 0))).
Proof.
  eexists.
  eapply (no_credentials_crash false (Boot.world Boot.no_secrets) _ _ Run.line1 Run.log1);
    [reflexivity | reflexivity | vm_compute; reflexivity | reflexivity | done | reflexivity].
Defined.
