(* ===== verification/Channels.v ===== *)
(** * Channels: the chat codes of the game, and the line of the example

    main.go opens with two comments: a line of a log as ACT writes it
    (lines 3-6), and the codes of the chat channels a user may put into
    TARGET_CHATCODES (lines 8-32).  Here they are data.

    - [Channel], [chat_code]: the channels of the table and their codes;
      [channel_of] reads a code back.
    - [target_chatcodes]: the text of the variable TARGET_CHATCODES that
      selects a list of channels, the codes joined by commas.
    - [example_line]: the line of the example, byte for byte.

    Theorems: the table gives each channel a code of its own, four bytes
    without a comma or a "|"; the configuration read from the text of a
    list of channels holds exactly their codes; with it, a line of a
    channel is accepted exactly when the channel is in the list; the
    line of the example parses, and its code is none of the table. *)

From stdpp Require Import base list strings gmap.
From Stdlib Require Import Ascii Lia ZArith.
From S2P Require Import Prelude GoStrings GoTime Types ParseLine Translate Json Pipeline Startup.

(** ** Definitions *)

(** main.go 9-31. *)
Inductive Channel : Type :=
| SAY
| SHOUT
| PARTY
| ALLIANCE
| LINKSHELL1
| LINKSHELL2
| LINKSHELL3
| LINKSHELL4
| LINKSHELL5
| LINKSHELL6
| LINKSHELL7
| LINKSHELL8
| FREE_COMPANY
| CUSTOM_EMOTE
| EMOTE
| YELL
| WHISPER
| CROSSWORLD_LINKSHELL1
| CROSSWORLD_LINKSHELL2
| CROSSWORLD_LINKSHELL3
| CROSSWORLD_LINKSHELL4
| CROSSWORLD_LINKSHELL5.

Definition chat_code (ch : Channel) : string :=
  match ch with
  | SAY => "000A"
  | SHOUT => "000B"
  | PARTY => "000E"
  | ALLIANCE => "000F"
  | LINKSHELL1 => "0010"
  | LINKSHELL2 => "0011"
  | LINKSHELL3 => "0012"
  | LINKSHELL4 => "0013"
  | LINKSHELL5 => "0014"
  | LINKSHELL6 => "0015"
  | LINKSHELL7 => "0016"
  | LINKSHELL8 => "0017"
  | FREE_COMPANY => "0018"
  | CUSTOM_EMOTE => "001C"
  | EMOTE => "001D"
  | YELL => "001E"
  | WHISPER => "000C"
  | CROSSWORLD_LINKSHELL1 => "0025"
  | CROSSWORLD_LINKSHELL2 => "0065"
  | CROSSWORLD_LINKSHELL3 => "0066"
  | CROSSWORLD_LINKSHELL4 => "0067"
  | CROSSWORLD_LINKSHELL5 => "0068"
  end.

#[global] Instance Channel_eq_dec : EqDecision Channel.
Proof. solve_decision. Defined.

(** The channels of the table, in its order. *)
Definition channels : list Channel :=
  [SAY; SHOUT; PARTY; ALLIANCE; LINKSHELL1; LINKSHELL2; LINKSHELL3; LINKSHELL4;
   LINKSHELL5; LINKSHELL6; LINKSHELL7; LINKSHELL8; FREE_COMPANY; CUSTOM_EMOTE; EMOTE;
   YELL; WHISPER; CROSSWORLD_LINKSHELL1; CROSSWORLD_LINKSHELL2; CROSSWORLD_LINKSHELL3;
   CROSSWORLD_LINKSHELL4; CROSSWORLD_LINKSHELL5].

(** The channel of a code, if the table has it. *)
Definition channel_of (code : string) : option Channel :=
  snd <$> list_find (fun ch => chat_code ch = code) channels.

(** The text of TARGET_CHATCODES (main.go 51) for a list of channels. *)
Definition target_chatcodes (chans : list Channel) : string :=
  Join (chat_code <$> chans) ",".

(** main.go 5. *)
Definition example_line : string :=
  "00|2022-10-22T20:13:42.0000000+09:00|003D|ナブシェーラ|今でもときどき、あの化け物に襲われる夢を見てしまうの。|c83d39a60fdda387".

(** ** The table *)

Section table.
Implicit Types (ch : Channel) (chans : list Channel) (code : string).

Lemma channel_of_chat_code ch : channel_of (chat_code ch) = Some ch.
Proof. by destruct ch. Qed.

#[global] Instance chat_code_inj : Inj (=) (=) chat_code.
Proof. intros ch1 ch2 H. apply (inj Some). by rewrite <- !channel_of_chat_code, H. Qed.

Lemma channel_of_Some code ch : channel_of code = Some ch <-> code = chat_code ch.
Proof.
  split; [|intros ->; apply channel_of_chat_code].
  unfold channel_of. by intros ([i ch'] & (_ & <- & _)%list_find_Some & ->)%fmap_Some.
Qed.

(** The table is complete, and no channel is listed twice. *)
Lemma channels_all ch : ch ∈ channels.
Proof. destruct ch; unfold channels; set_solver. Qed.

Lemma channels_NoDup : NoDup channels.
Proof. apply (bool_decide_unpack _). by vm_compute. Qed.

(** A code is four bytes, without a comma and without a "|". *)
Lemma chat_code_shape ch :
  String.length (chat_code ch) = 4 /\ sep_free "," (chat_code ch) /\ sep_free pipe (chat_code ch).
Proof. by destruct ch. Qed.

Lemma target_chatcodes_empty chans : target_chatcodes chans = "" <-> chans = [].
Proof.
  split; [|by intros ->]. unfold target_chatcodes.
  destruct chans as [|ch [|ch' chans]]; [done|by destruct ch..].
Qed.

(** The list read from the text of a list of channels is the list of
    their codes. *)
Lemma Split_target_chatcodes chans :
  chans <> [] -> Split (target_chatcodes chans) "," = chat_code <$> chans.
Proof.
  intros Hne. apply Split_Join; [by destruct chans|].
  apply Forall_fmap, Forall_forall. intros ch _. apply chat_code_shape.
Qed.

End table.

(** ** The configuration of a list of channels *)

Section selection.
Context (empty_default : bool).
Implicit Types (ch : Channel) (chans : list Channel) (env : gmap string string).
Implicit Types (cfg : ConfigStruct) (c : civil) (now : Time).

Lemma parseEnv_target_chatcodes env cfg chans :
  env !! "TARGET_CHATCODES" = Some (target_chatcodes chans) ->
  parseEnv empty_default env = inl cfg ->
  TargetChatCodes cfg = chat_code <$> chans.
Proof.
  intros He [-> _]%parseEnv_inl. rewrite getOr_no_default, He. simpl.
  destruct (decide (chans = [])) as [->|Hne]; [done|].
  rewrite decide_False by (by rewrite target_chatcodes_empty).
  by apply Split_target_chatcodes.
Qed.

(** C19 (functional: the channels selected).  With TARGET_CHATCODES set
    to the codes of a list of channels, joined by commas, a line that ACT
    writes for a channel of the table, at or after the start of the
    process, is accepted exactly when its channel is in the list, and
    then with the fields it was written from. *)
Theorem channel_selected env cfg chans ch now seq c actor content rest :
  env !! "TARGET_CHATCODES" = Some (target_chatcodes chans) ->
  parseEnv empty_default env = inl cfg ->
  Forall (sep_free pipe) (seq :: actor :: content :: rest) ->
  civil_printable c = true -> civil_valid c = true ->
  Before (civil_instant c) now = false ->
  accept cfg now (print_line seq (print_civil c) (chat_code ch) actor content rest)
  = if decide (ch ∈ chans) then Some (mkLog (civil_instant c) (chat_code ch) actor content)
    else None.
Proof.
  intros He Hcfg [Hs Hfree]%Forall_cons Hp Hv Hb. unfold accept.
  rewrite (parseLine_print_line_ts _ _ _ _ _ _ (civil_instant c)); [|..|by apply Parse_print].
  - cbn [Timestamp LogCode]. rewrite Hb, (parseEnv_target_chatcodes env cfg chans) by done.
    destruct (foundChatCode _ _) eqn:E.
    + apply foundChatCode_elem, list_elem_of_fmap_inj in E; [|apply _]. by rewrite decide_True.
    + rewrite decide_False; [done|]. intros Hin%(list_elem_of_fmap_2 chat_code).
      apply foundChatCode_elem in Hin. congruence.
  - apply Forall_cons in Hfree as [Ha [Hc Hr]%Forall_cons].
    repeat (apply Forall_cons; split);
      [done | apply print_civil_sep_free | apply chat_code_shape | done..].
Qed.

End selection.

(** The line of the example is a line the parser reads; its code, 003D,
    is none of the table. *)
Example example_line_parses :
  exists l,
    parseLine example_line = (l, None) /\ LogCode l = "003D" /\
    channel_of (LogCode l) = None /\
    Timestamp l = civil_instant (mkCivil 2022 10 22 20 13 42 0 1 9 0)%Z.
Proof. eexists. split; [vm_compute; reflexivity|]. by vm_compute. Qed.

(** ** Witness *)

Lemma channel_selected_witness :
  accept (mkConfig "" ["000A"; "000E"] "secret.json" "ja" "ko" false) Run.now
    (print_line "00" (print_civil (mkCivil 2022 10 22 20 13 42 0 1 9 0)) (chat_code PARTY)
       "Name" "Hello there." ["abc123"])
  = if decide (PARTY ∈ [SAY; PARTY])
    then Some (mkLog (civil_instant (mkCivil 2022 10 22 20 13 42 0 1 9 0)) (chat_code PARTY)
                 "Name" "Hello there.")
    else None.
Proof.
  apply (channel_selected true {[ "TARGET_CHATCODES" := "000A,000E" ]} _ [SAY; PARTY]);
    try (vm_compute; reflexivity).
  repeat constructor; vm_compute; reflexivity.
Defined.
