(* ===== verification/Tail.v ===== *)
(** * Tail: the program on the tail, as an interaction tree

    [for line := range t.Lines] (main.go 129) reads a channel that the
    tail library feeds for as long as the log file grows: the loop has
    no end of its own.  Here the program is an interaction tree: it asks
    for the next line, performs the effects of the line one after the
    other, and asks again.

    - [tailE]: the events of the tree, [NextLine], answered by the next
      line or by [None] when the channel has been closed,
      [Perform ev] for each effect [ev] of [Effects], and [Ask q] for
      the reads of the start, which the loop never does ([Program] does).
    - [iteration], [tail_loop]: one turn of the loop (the body
      [main_loop_body_events] of [Effects] on the line read) and its
      iteration; the tree ends when the channel is closed or the body
      panics.
    - [serve]: a world that delivers the lines of a list, then closes
      the channel, with an observer that notes what it sees ([Seen]) in
      the order it sees it.
    - [seen]: what is to be seen on a list of lines.
    - [alive]: the trees that, as long as they are given lines, go on
      asking for the next one (a greatest fixed point).

    Theorems: served a list of lines, the tree computes what [main_loop]
    computes on that list, leaves unread the lines after a panic, and
    shows the lines and the effects in their order: all the effects of a
    line come after the line is read and before the next one is; with a
    credential that is never refused the tree is [alive]: the program
    never stops by itself. *)

From ITree Require Import ITree ITreeFacts Events.State Events.StateFacts.
From Paco Require Import paco.
From stdpp Require Import base list strings.
From S2P Require Import Prelude GoStrings GoTime Types ParseLine Translate Pipeline Process Progress Effects Startup.

(** ** Definitions *)

(** The receive on [t.Lines], the effects of the program, and the reads
    of its start. *)
Variant tailE : Type -> Type :=
| NextLine : tailE (option string)
| Perform (ev : Event) : tailE unit
| Ask {A : Type} (q : startE A) : tailE A.

(** The effects [evs], one after the other, before the tree [t]. *)
Fixpoint perform_then {R : Type} (evs : list Event) (t : itree tailE R) : itree tailE R :=
  match evs with
  | [] => t
  | ev :: evs' => Vis (Perform ev) (fun _ => perform_then evs' t)
  end.

(** The state to go on with, or the outcome of the loop. *)
Definition next (out : outcome State unit) : State + outcome State unit :=
  match out with
  | Returned st' _ => inl st'
  | _ => inr out
  end.

Section tail.
Context {remote : Remote} (cfg : ConfigStruct) (secrets : list Secret) (now : Time).

(** main.go 129-171. *)
Definition iteration (st : State) : itree tailE (State + outcome State unit) :=
  Vis NextLine (fun line =>
    match line with
    | None => Ret (inr (Returned st tt))
    | Some text =>
        let m := main_loop_body_events cfg secrets now st text in
        perform_then m.1 (Ret (next m.2))
    end).

Definition tail_loop : State -> itree tailE (outcome State unit) :=
  ITree.iter iteration.

End tail.

(** What an observer of the program sees. *)
Inductive Seen : Type :=
| Read (line : string)
| EndOfLines
| Did (ev : Event)
| Asked {A : Type} (q : startE A).

(** The effects among what was seen. *)
Definition effects (sn : list Seen) : list Event :=
  omap (fun s => if s is Did ev then Some ev else None) sn.

(** A world whose log holds the lines of a list and is closed after
    them, and an observer that notes what happens. *)
Definition serve (w : World)
    : tailE ~> Monads.stateT (list string * list Seen) (itree void1) :=
  fun _ e s =>
    match e with
    | NextLine =>
        match s.1 with
        | [] => Ret (([], s.2 ++ [EndOfLines]), None)
        | line :: rest => Ret ((rest, s.2 ++ [Read line]), Some line)
        end
    | Perform ev => Ret ((s.1, s.2 ++ [Did ev]), tt)
    | Ask q => Ret ((s.1, s.2 ++ [Asked q]), respond w q)
    end.

Section run.
Context {remote : Remote} (cfg : ConfigStruct) (secrets : list Secret) (now : Time).

(** The lines [main_loop] does not reach: those after a panic. *)
Fixpoint unread (lines : list string) (st : State) : list string :=
  match lines with
  | [] => []
  | line :: rest =>
      match main_loop_body cfg secrets now st line with
      | Returned st' _ => unread rest st'
      | _ => rest
      end
  end.

(** What is to be seen on a list of lines: each line read, followed by
    its effects; the end of the lines, unless a line panics. *)
Fixpoint seen (lines : list string) (st : State) : list Seen :=
  match lines with
  | [] => [EndOfLines]
  | line :: rest =>
      let m := main_loop_body_events cfg secrets now st line in
      Read line :: (Did <$> m.1) ++
      match m.2 with
      | Returned st' _ => seen rest st'
      | _ => []
      end
  end.

End run.

(** A tree that, in the world [w], goes on reading as long as it is
    given lines. *)
Inductive aliveF {R : Type} (w : World) (r : itree tailE R -> Prop)
    : itree' tailE R -> Prop :=
| alive_tau t : r t -> aliveF w r (TauF t)
| alive_read k : (forall text, r (k (Some text))) -> aliveF w r (VisF NextLine k)
| alive_perform ev k : r (k tt) -> aliveF w r (VisF (Perform ev) k)
| alive_ask {A : Type} (q : startE A) k : r (k (respond w q)) -> aliveF w r (VisF (Ask q) k).

Definition alive_gen {R : Type} (w : World) (r : itree tailE R -> Prop) (t : itree tailE R)
    : Prop :=
  aliveF w r (observe t).

Definition alive {R : Type} (w : World) (t : itree tailE R) : Prop :=
  paco1 (alive_gen w) bot1 t.

(** ** Trees that are alive *)

Lemma alive_gen_mon {R : Type} w : monotone1 (@alive_gen R w).
Proof. intros t r r' H LE. unfold alive_gen in *. destruct H; constructor; auto. Qed.

#[export] Hint Resolve alive_gen_mon : paco.

Section alive.
Context {R : Type} (w : World).
Implicit Types (t : itree tailE R) (r : itree tailE R -> Prop).

(** A tree that has returned is not alive. *)
Lemma alive_Ret (x : R) : ~ alive w (Ret x : itree tailE R).
Proof. intros H. punfold H. inversion H. Qed.

(** Being alive is a property of what a tree does first. *)
Lemma alive_observe r t t' :
  observe t = observe t' -> paco1 (alive_gen w) r t -> paco1 (alive_gen w) r t'.
Proof. intros E H. pfold. punfold H. unfold alive_gen in *. by rewrite <- E. Qed.

(** Effects before a tree that is alive. *)
Lemma alive_perform_then {S : Type} r evs (v : S) (k : S -> itree tailE R) :
  paco1 (alive_gen w) r (k v) ->
  paco1 (alive_gen w) r (ITree.bind (perform_then evs (Ret v)) k).
Proof.
  intros H. induction evs as [|ev evs IH].
  - by apply (alive_observe r (k v)).
  - pfold. unfold alive_gen. simpl. constructor. by left.
Qed.

(** A tree that is alive stays so whatever is done with its result. *)
Lemma alive_map {S : Type} (f : S -> R) (t : itree tailE S) :
  alive w t -> alive w (ITree.map f t).
Proof.
  revert t. pcofix CIH. intros t H. punfold H. pfold. unfold alive_gen in *.
  change (observe (ITree.map f t))
    with (observe (match observe t with
                   | RetF x => Ret (f x)
                   | TauF t' => Tau (ITree.map f t')
                   | VisF e k => Vis e (fun x => ITree.map f (k x))
                   end)).
  destruct H as [t' []|k H|ev k []|A q k []]; simpl; constructor; try done;
    try (right; by apply CIH).
  intros text. destruct (H text); [|done]. right. by apply CIH.
Qed.

End alive.

(** ** The tree on a list of lines *)

Lemma effects_app sn1 sn2 : effects (sn1 ++ sn2) = effects sn1 ++ effects sn2.
Proof. apply omap_app. Qed.

Lemma effects_Read line sn : effects (Read line :: sn) = effects sn.
Proof. done. Qed.

Lemma effects_Did evs : effects (Did <$> evs) = evs.
Proof. induction evs as [|ev evs IH]; [done|]. simpl. f_equal. apply IH. Qed.

(** What the observer has seen after effects. *)
Lemma perform_then_serve {R : Type} w evs (t : itree tailE R) lines sn :
  eutt eq (interp_state (serve w) (perform_then evs t) (lines, sn))
          (interp_state (serve w) t (lines, sn ++ (Did <$> evs))).
Proof.
  revert sn. induction evs as [|ev evs IH]; intros sn; simpl.
  - rewrite app_nil_r. reflexivity.
  - rewrite interp_state_vis. cbn. rewrite bind_ret_l. cbn. rewrite tau_eutt, IH.
    rewrite <- app_assoc. reflexivity.
Qed.

(** What the observer has seen after a read of the start. *)
Lemma ask_serve {A R : Type} w (q : startE A) (k : A -> itree tailE R) lines sn :
  eutt eq (interp_state (serve w) (Vis (Ask q) k) (lines, sn))
          (interp_state (serve w) (k (respond w q)) (lines, sn ++ [Asked q])).
Proof. rewrite interp_state_vis. cbn. rewrite bind_ret_l. cbn. apply tau_eutt. Qed.

Section tail_lemmas.
Context {remote : Remote} (cfg : ConfigStruct) (secrets : list Secret) (now : Time).
Implicit Types (st : State) (lines : list string) (sn : list Seen).

(** What is left unread is the end of the list, and nothing when the
    loop returned. *)
Lemma unread_suffix lines st : unread cfg secrets now lines st `suffix_of` lines.
Proof.
  revert st. induction lines as [|line lines IH]; intros st; simpl; [done|].
  destruct (main_loop_body cfg secrets now st line) as [st' []|st' p|];
    [by apply suffix_cons_r | by apply suffix_cons_r..].
Qed.

Lemma unread_returned lines st :
  returned (main_loop cfg secrets now lines st) = true -> unread cfg secrets now lines st = [].
Proof.
  revert st. induction lines as [|line lines IH]; intros st; simpl; [done|].
  destruct (main_loop_body cfg secrets now st line) as [st' []|st' p|]; simpl; [|done..].
  apply IH.
Qed.

(** What is seen is the lines read and the events of the loop, in their
    order. *)
Lemma seen_events lines st :
  effects (seen cfg secrets now lines st) = (main_loop_events cfg secrets now lines st).1.
Proof.
  revert st. induction lines as [|line lines IH]; intros st; [done|].
  cbn [seen main_loop_events]. unfold and_then.
  destruct (main_loop_body_events cfg secrets now st line) as [evs out]. cbn [fst snd].
  rewrite effects_Read, effects_app, effects_Did.
  destruct out as [st' []|st' p|]; simpl; [by rewrite IH | by rewrite app_nil_r..].
Qed.

(** The tree, served the lines of a list. *)
Lemma tail_loop_serve w lines st sn :
  eutt eq (interp_state (serve w) (tail_loop cfg secrets now st) (lines, sn))
          (Ret ((unread cfg secrets now lines st, sn ++ seen cfg secrets now lines st),
                main_loop cfg secrets now lines st)).
Proof.
  revert st sn. induction lines as [|line lines IH]; intros st sn; unfold tail_loop;
    rewrite unfold_iter; unfold iteration at 1;
    rewrite bind_vis, interp_state_vis; cbn; rewrite bind_ret_l; cbn; rewrite tau_eutt.
  - rewrite bind_ret_l, interp_state_ret. reflexivity.
  - pose proof (sound_outcome _ _ _ (main_loop_body_events_sound cfg secrets now st line)) as E.
    destruct (main_loop_body_events cfg secrets now st line) as [evs out]. simpl in E. subst out.
    rewrite interp_state_bind, perform_then_serve, interp_state_ret, bind_ret_l. cbn.
    destruct (main_loop_body cfg secrets now st line) as [st' []|st' p|]; cbn.
    + rewrite interp_state_tau, tau_eutt. etrans; [apply IH|].
      rewrite <- !app_assoc. reflexivity.
    + rewrite interp_state_ret, app_nil_r, <- app_assoc. reflexivity.
    + rewrite interp_state_ret, app_nil_r, <- app_assoc. reflexivity.
Qed.

End tail_lemmas.

(** ** The loop on the tail *)

Section tail_properties.
Context {remote : Remote} (cfg : ConfigStruct) (secrets : list Secret) (now : Time).
Implicit Types (st : State) (lines : list string).

(** Served the lines of a list and then the end of the channel, the
    tree of the loop computes the outcome of [main_loop] on that list;
    the lines it
    leaves unread are the end of the list, and there are none unless the
    loop panicked; and what it shows is each line read, followed by the
    effects of that line, which are the events of the loop in their
    order: nothing of a line happens before the line is read or after
    the next one is. *)
Theorem tail_loop_spec w lines st :
  exists rest,
    eutt eq (interp_state (serve w) (tail_loop cfg secrets now st) (lines, []))
            (Ret ((rest, seen cfg secrets now lines st), main_loop cfg secrets now lines st)) /\
    rest `suffix_of` lines /\
    (returned (main_loop cfg secrets now lines st) = true -> rest = []) /\
    effects (seen cfg secrets now lines st) = (main_loop_events cfg secrets now lines st).1.
Proof.
  exists (unread cfg secrets now lines st). split; [|split; [|split]].
  - apply (tail_loop_serve cfg secrets now w lines st []).
  - apply unread_suffix.
  - apply unread_returned.
  - apply seen_events.
Qed.

(** If one credential of the list is never refused for quota, the loop
    started on the tail never ends by itself: whatever lines it is given, it performs the
    effects of each and goes on asking for the next one; it neither
    panics nor returns as long as the channel delivers. *)
Theorem tail_loop_alive w i good :
  secrets !! i = Some good ->
  (forall h content, classify (round_trip h (request_for cfg content good)) <> Quota) ->
  alive w (tail_loop cfg secrets now initState).
Proof.
  intros Hgood Hserved.
  assert (below i initState) as Hinit by (unfold below; simpl; lia).
  revert Hinit. generalize initState as st. pcofix CIH. intros st Hst.
  pfold. unfold alive_gen. cbn. constructor. intros text. left.
  destruct (main_loop_body_returns cfg secrets now i good Hgood Hserved text st Hst)
    as (st' & E & Hst').
  apply alive_perform_then.
  rewrite (sound_outcome _ _ _ (main_loop_body_events_sound cfg secrets now st text)), E.
  pfold. unfold alive_gen. simpl. constructor. right. by apply CIH.
Qed.

End tail_properties.

(** ** Examples *)

(** What is seen on the first line of [Pipeline.Run]: the line, two
    refusals with their rotations, the translation, and the print after
    the three bodies are closed. *)
Example seen_line1 :
  seen (remote := Demo.remote) Demo.cfg Demo.secrets Run.now [Run.line1] initState
  = [Read Run.line1;
     Did (Requested (request_for Demo.cfg "Hello there." Demo.spent1)); Did (Opened 0);
     Did (Logged (Infof (rotation_message 1)));
     Did (Requested (request_for Demo.cfg "Hello there." Demo.spent2)); Did (Opened 1);
     Did (Logged (Infof (rotation_message 2)));
     Did (Requested (request_for Demo.cfg "Hello there." Demo.fresh)); Did (Opened 2);
     Did (Closed 2); Did (Closed 1); Did (Closed 0);
     Did (Printed (format_output "Name" (Demo.reply "Hello there.")));
     EndOfLines].
Proof. vm_compute. reflexivity. Qed.
