(* ===== verification/Program.v ===== *)
(** * Program: the whole of main as one interaction tree

    main.go 77-172 from its first statement on: the five reads of the
    start in their order, the two lines logged between them, the exits
    through [Fatal], and then the loop on the tail.  The tree asks its
    surroundings ([Ask], answered by a [World]), performs its effects
    ([Perform]) and reads the lines ([NextLine]); it returns only
    through an exit of the start, a panic of the loop, or the end of the
    lines.

    - [info]: a line logged by [logrus.Infof] at the start.
    - [program]: the tree of [main].
    - [startup_seen]: what is to be seen of the start in a world, in its
      order, with the exit or the values the loop is entered with.
    - [program_seen], [program_unread]: what is to be seen of the whole
      run on a list of lines, and the lines left unread.
    - [main_events]: the effects of [Startup.main]: the lines logged by
      the start, then the events of the loop.

    Theorems: in every world and on every list of lines the tree
    computes what [Startup.main] computes, and shows the reads, the
    effects and the lines in the order of [program_seen]; in a world
    where the start succeeds and one credential is never refused, the
    program never stops by itself. *)

From ITree Require Import ITree ITreeFacts Events.State Events.StateFacts.
From Paco Require Import paco.
From stdpp Require Import base list strings gmap.
From S2P Require Import Prelude GoStrings GoTime Types ParseLine Translate Json Pipeline Process Progress Effects Startup Tail.

(** ** Definitions *)

(** [logrus.Infof] at the start (main.go 83 and 120), before the rest. *)
Definition info {R : Type} (msg : string) (t : itree tailE R) : itree tailE R :=
  Vis (Perform (Logged (Infof msg))) (fun _ => t).

Section program.
Context {remote : Remote} {syntax : JsonSyntax} (empty_default : bool).

(** main.go 77-172. *)
Definition program : itree tailE (fatal + outcome State unit) :=
  Vis (Ask GetEnviron) (fun env =>
  match parseEnv empty_default env with
  | inr (field, value) => Ret (inl (FailedToParseEnv field value))
  | inl cfg =>
      info ("using config: " +:+ show_config cfg) (
      Vis (Ask (OsReadFile (SecretFileName cfg))) (fun file =>
      match file with
      | inr msg => Ret (inl (ReadSecretFailed msg))
      | inl b =>
          match unmarshal_Secrets b with
          | inr msg => Ret (inl (UnmarshalSecretFailed msg))
          | inl secrets =>
              Vis (Ask (OsReadDir (LogDirectory cfg))) (fun dir =>
              match dir with
              | inr msg => Ret (inl (FailedToReadLogDirectory msg))
              | inl logFiles =>
                  let name := (mostRecentLog logFiles).1 in
                  info ("using most recent log file: " +:+ name) (
                  Vis (Ask TimeNow) (fun now =>
                  Vis (Ask (TailTailFile (LogDirectory cfg) name)) (fun err =>
                  match err with
                  | Some msg => Ret (inl (TailFileError msg))
                  | None => ITree.map inr (tail_loop cfg secrets now initState)
                  end)))
              end)
          end
      end))
  end).

(** What is to be seen of the start (main.go 77-127), in its order. *)
Definition startup_seen (w : World) : list Seen * (fatal + Started) :=
  match parseEnv empty_default (environ w) with
  | inr (field, value) => ([Asked GetEnviron], inl (FailedToParseEnv field value))
  | inl cfg =>
      let sn1 := [Asked GetEnviron;
                  Did (Logged (Infof ("using config: " +:+ show_config cfg)));
                  Asked (OsReadFile (SecretFileName cfg))] in
      match ReadFile w (SecretFileName cfg) with
      | inr msg => (sn1, inl (ReadSecretFailed msg))
      | inl b =>
          match unmarshal_Secrets b with
          | inr msg => (sn1, inl (UnmarshalSecretFailed msg))
          | inl secrets =>
              let sn2 := sn1 ++ [Asked (OsReadDir (LogDirectory cfg))] in
              match ReadDir w (LogDirectory cfg) with
              | inr msg => (sn2, inl (FailedToReadLogDirectory msg))
              | inl logFiles =>
                  let name := (mostRecentLog logFiles).1 in
                  let sn3 :=
                    sn2 ++ [Did (Logged (Infof ("using most recent log file: " +:+ name)));
                            Asked TimeNow;
                            Asked (TailTailFile (LogDirectory cfg) name)] in
                  match TailFile w (LogDirectory cfg) name with
                  | Some msg => (sn3, inl (TailFileError msg))
                  | None => (sn3, inr (mkStarted cfg secrets name (Now w)))
                  end
              end
          end
      end
  end.

(** What is to be seen of a run on a list of lines. *)
Definition program_seen (w : World) (lines : list string) : list Seen :=
  (startup_seen w).1 ++
  match (startup_seen w).2 with
  | inl _ => []
  | inr s => seen (Config s) (secret s) (now s) lines initState
  end.

(** The lines the run does not reach. *)
Definition program_unread (w : World) (lines : list string) : list string :=
  match (startup_seen w).2 with
  | inl _ => lines
  | inr s => unread (Config s) (secret s) (now s) lines initState
  end.

(** The effects of [main]: the lines of the start, then the events of
    the loop. *)
Definition main_events (w : World) (lines : list string) : list Event :=
  (Logged <$> (startup empty_default w).1) ++
  match (startup empty_default w).2 with
  | inl _ => []
  | inr s => (main_loop_events (Config s) (secret s) (now s) lines initState).1
  end.

End program.

(** ** The start *)

Lemma info_serve {R : Type} w msg (t : itree tailE R) lines sn :
  eutt eq (interp_state (serve w) (info msg t) (lines, sn))
          (interp_state (serve w) t (lines, sn ++ [Did (Logged (Infof msg))])).
Proof. apply (perform_then_serve w [Logged (Infof msg)]). Qed.

Lemma alive_ask_step {A R : Type} w (q : startE A) (k : A -> itree tailE R) :
  alive w (k (respond w q)) -> alive w (Vis (Ask q) k).
Proof. intros H. pfold. constructor. by left. Qed.

Lemma alive_info {R : Type} w msg (t : itree tailE R) : alive w t -> alive w (info msg t).
Proof. intros H. pfold. constructor. by left. Qed.

Section program_lemmas.
Context {remote : Remote} {syntax : JsonSyntax} (empty_default : bool).
Implicit Types (w : World) (lines : list string) (sn : list Seen).

(** What is seen of the start is the start. *)
Lemma startup_seen_startup w :
  (startup_seen empty_default w).2 = (startup empty_default w).2 /\
  effects (startup_seen empty_default w).1 = Logged <$> (startup empty_default w).1.
Proof.
  unfold startup_seen, startup.
  destruct (parseEnv _ _) as [cfg|[field value]]; [|done].
  destruct (ReadFile _ _) as [b|msg]; [|done].
  destruct (unmarshal_Secrets b) as [secrets|msg]; [|done].
  destruct (ReadDir _ _) as [logFiles|msg]; [|done].
  by destruct (TailFile _ _ _).
Qed.

(** The loop behind the start. *)
Lemma loop_serve w cfg secrets now lines sn :
  eutt eq (interp_state (serve w) (ITree.map inr (tail_loop cfg secrets now initState))
             (lines, sn))
          (Ret ((unread cfg secrets now lines initState,
                 sn ++ seen cfg secrets now lines initState),
                inr (main_loop cfg secrets now lines initState) : fatal + outcome State unit)).
Proof.
  unfold ITree.map. rewrite interp_state_bind, tail_loop_serve, bind_ret_l. cbn.
  by rewrite interp_state_ret.
Qed.

(** The tree, served by a world and the lines of a list. *)
Lemma program_serve w lines sn :
  eutt eq (interp_state (serve w) (program empty_default) (lines, sn))
          (Ret ((program_unread empty_default w lines,
                 sn ++ program_seen empty_default w lines),
                (main empty_default w lines).2)).
Proof.
  unfold program, program_unread, program_seen, main, startup_seen, startup.
  rewrite ask_serve. simpl respond.
  destruct (parseEnv _ _) as [cfg|[field value]]; [|by rewrite interp_state_ret].
  rewrite info_serve, ask_serve. simpl respond.
  destruct (ReadFile _ _) as [b|msg]; [|by rewrite interp_state_ret, <- !app_assoc].
  destruct (unmarshal_Secrets b) as [secrets|msg];
    [|by rewrite interp_state_ret, <- !app_assoc].
  rewrite ask_serve. simpl respond.
  destruct (ReadDir _ _) as [logFiles|msg]; [|by rewrite interp_state_ret, <- !app_assoc].
  cbv zeta. rewrite info_serve, !ask_serve. simpl respond.
  destruct (TailFile _ _ _) as [msg|]; [by rewrite interp_state_ret, <- !app_assoc|].
  rewrite loop_serve. cbn. by rewrite <- !app_assoc.
Qed.

End program_lemmas.

(** ** Properties *)

Section program_properties.
Context {remote : Remote} {syntax : JsonSyntax} (empty_default : bool).
Implicit Types (w : World) (lines : list string).

(** C11 (equivalence: the program and its surroundings).  In every world
    and on every list of lines, the tree of [main] computes what
    [Startup.main] computes: the exit of the start, or the outcome of
    the loop on the lines.  What it shows is, in this order, the
    environment read, the configuration logged, the file of the
    credentials read, the directory listed, the chosen file logged, the
    clock read, the tail opened, and then each line read followed by the
    effects of that line; its effects are the lines logged by the start
    followed by the events of the loop.  The lines left unread are the
    end of the list. *)
Theorem program_spec w lines :
  exists rest,
    eutt eq (interp_state (serve w) (program empty_default) (lines, []))
            (Ret ((rest, program_seen empty_default w lines),
                  (main empty_default w lines).2)) /\
    rest `suffix_of` lines /\
    (forall st, (main empty_default w lines).2 = inr (Returned st tt) -> rest = []) /\
    effects (program_seen empty_default w lines) = main_events empty_default w lines.
Proof.
  exists (program_unread empty_default w lines).
  destruct (startup_seen_startup empty_default w) as [E2 E1].
  split; [apply (program_serve empty_default w lines [])|split; [|split]].
  - unfold program_unread. destruct (startup_seen _ _).2; [done|apply unread_suffix].
  - intros st. unfold program_unread, main. rewrite E2.
    destruct (startup _ _) as [logged [f|s]]; [done|]. simpl. intros [= E].
    apply unread_returned. by rewrite E.
  - unfold program_seen, main_events. rewrite effects_app, E1, E2.
    destruct (startup _ _).2; [done|]. by rewrite seen_events.
Qed.

(** C25 (liveness: the program does not stop).  In a world where the
    start succeeds, if one credential of the file is never refused for
    quota, the program never ends by itself: after the reads of the
    start, whatever lines it is given, it performs the effects of each
    and goes on asking for the next one; it neither exits, panics nor
    returns as long as the tail delivers. *)
Theorem program_alive w s i good :
  (startup empty_default w).2 = inr s ->
  secret s !! i = Some good ->
  (forall h content,
     classify (round_trip h (request_for (Config s) content good)) <> Quota) ->
  alive w (program empty_default).
Proof.
  unfold startup, program. intros Hs Hgood Hserved.
  apply alive_ask_step. simpl respond.
  destruct (parseEnv _ _) as [cfg|[field value]]; [|done].
  apply alive_info, alive_ask_step. simpl respond.
  destruct (ReadFile _ _) as [b|msg]; [|done].
  destruct (unmarshal_Secrets b) as [secrets|msg]; [|done].
  apply alive_ask_step. simpl respond.
  destruct (ReadDir _ _) as [logFiles|msg]; [|done].
  apply alive_info, alive_ask_step, alive_ask_step. simpl respond.
  destruct (TailFile _ _ _) as [msg|]; [done|].
  injection Hs as <-. apply alive_map. by apply (tail_loop_alive _ _ _ w i good).
Qed.

End program_properties.

(** ** Witnesses and examples *)

Lemma program_alive_witness :
  alive (Boot.world Boot.configured)
    (program (remote := Demo.remote) (syntax := Boot.syntax) false).
Proof.
  eapply (program_alive (remote := Demo.remote) (syntax := Boot.syntax) false
            (Boot.world Boot.configured) _ 2 Demo.fresh);
    [vm_compute; reflexivity | reflexivity | apply fresh_never_refused].
Defined.

(** The start of [Boot], as it is seen. *)
Example startup_seen_configured :
  (startup_seen (syntax := Boot.syntax) false (Boot.world Boot.configured)).1
  = [Asked GetEnviron;
     Did (Logged (Infof ("using config: " +:+ show_config Demo.cfg)));
     Asked (OsReadFile "secret.json");
     Asked (OsReadDir "logs");
     Did (Logged (Infof "using most recent log file: Network_2.log"));
     Asked TimeNow;
     Asked (TailTailFile "logs" "Network_2.log")].
Proof. vm_compute. reflexivity. Qed.

(** Without LOG_DIRECTORY the credentials are read and decoded before
    the listing of the directory fails: the tail is never opened and the
    clock never read. *)
Example startup_seen_no_directory :
  startup_seen (syntax := Boot.syntax) false (Boot.world ∅)
  = ([Asked GetEnviron;
      Did (Logged (Infof ("using config: "
             +:+ show_config (mkConfig "" [] "secret.json" "ja" "ko" false))));
      Asked (OsReadFile "secret.json");
      Asked (OsReadDir "")],
     inl (FailedToReadLogDirectory "open: no such file or directory")).
Proof. vm_compute. reflexivity. Qed.
